(** * The submission aggregator of LeetCode_assistant

    A shallow embedding of the two copies of the HTTP endpoint,
    [src/api/fetchSolved.js] and [src/unnamed/part_000], and the properties
    of the specification checked against them.

    The first part models the JavaScript values the code handles, the second
    the upstream calls as a small state-and-exception monad over a trace of
    events, the third the functions of the two files under their own names,
    and the last part holds the lemmas. *)

From Stdlib Require Import ZArith Ascii String List Bool Lia DecimalString.
From Stdlib Require Import Sorting.Sorted Sorting.Permutation.
From stdpp Require Import base list gmap strings.

#[local] Set Warnings "-register-all".

Local Open Scope string_scope.
Local Open Scope list_scope.

(** ** JavaScript values *)

(** A number is an integer or [NaN].  The timestamps of the platform are epoch
    seconds; fractions and infinities are outside the model, and so are the
    integers from 10^21 on, which JavaScript prints with an exponent: the
    model prints every integer in decimal. *)
Inductive num : Type :=
| NaN
| Fin (z : Z).

(** The values [JSON.parse] builds, with [undefined] for absent properties.
    An object is the list of its own properties, read by first match. *)
Inductive jsval : Type :=
| JUndefined
| JNull
| JBool (b : bool)
| JNum (n : num)
| JStr (s : string)
| JArr (items : list jsval)
| JObj (fields : list (string * jsval)).

Definition emptyObject : jsval := JObj [].

(** [ToBoolean]. *)
Definition truthy (v : jsval) : bool :=
  match v with
  | JUndefined | JNull => false
  | JBool b => b
  | JNum NaN => false
  | JNum (Fin z) => negb (z =? 0)%Z
  | JStr s => negb (s =? "")
  | JArr _ | JObj _ => true
  end.

(** [a || b]. *)
Definition orElse (a b : jsval) : jsval := if truthy a then a else b.

Definition isArray (v : jsval) : bool :=
  match v with JArr _ => true | _ => false end.

Definition isString (v : jsval) : bool :=
  match v with JStr _ => true | _ => false end.

(** The elements of [Array.isArray(v) ? v : []]. *)
Definition arrayOrEmpty (v : jsval) : list jsval :=
  match v with JArr items => items | _ => [] end.

Fixpoint assoc (k : string) (fields : list (string * jsval)) : jsval :=
  match fields with
  | [] => JUndefined
  | (k', v) :: rest => if k =? k' then v else assoc k rest
  end.

(** [v.k] for a property name [k] that is not an index, on a value that is
    neither [undefined] nor [null] (the code guards every such access). *)
Definition getProp (v : jsval) (k : string) : jsval :=
  match v with
  | JObj fields => assoc k fields
  | JArr items => if k =? "length" then JNum (Fin (Z.of_nat (length items))) else JUndefined
  | JStr s => if k =? "length" then JNum (Fin (Z.of_nat (String.length s))) else JUndefined
  | _ => JUndefined
  end.

(** [v?.k]. *)
Definition optProp (v : jsval) (k : string) : jsval :=
  match v with
  | JUndefined | JNull => JUndefined
  | _ => getProp v k
  end.

(** [v[0]]. *)
Definition getFirst (v : jsval) : jsval :=
  match v with
  | JArr items => hd JUndefined items
  | JStr (String c _) => JStr (String c "")
  | JObj fields => assoc "0" fields
  | _ => JUndefined
  end.

(** [v === s] for a string literal [s]. *)
Definition isExactly (v : jsval) (s : string) : bool :=
  match v with JStr t => t =? s | _ => false end.

(** *** Strings *)

(** A string is a sequence of code units, of which the model has the first
    256.  The white space and line terminators of ECMAScript in that range:
    TAB, LF, VT, FF, CR, SP and NBSP. *)
Definition whiteSpace : list ascii :=
  ["009"; "010"; "011"; "012"; "013"; "032"; "160"]%char.

Definition isWhite (c : ascii) : bool := existsb (Ascii.eqb c) whiteSpace.

Fixpoint trimStart (s : string) : string :=
  match s with
  | EmptyString => EmptyString
  | String c rest => if isWhite c then trimStart rest else s
  end.

Fixpoint trimEnd (s : string) : string :=
  match s with
  | EmptyString => EmptyString
  | String c rest =>
      match trimEnd rest with
      | EmptyString => if isWhite c then EmptyString else String c EmptyString
      | kept => String c kept
      end
  end.

(** [s.trim()]. *)
Definition trim (s : string) : string := trimEnd (trimStart s).

Definition firstChar (s : string) : option ascii :=
  match s with EmptyString => None | String c _ => Some c end.

Fixpoint lastChar (s : string) : option ascii :=
  match s with
  | EmptyString => None
  | String c EmptyString => Some c
  | String _ rest => lastChar rest
  end.

Definition nonEmpty (s : string) : bool := negb (s =? "").

(** No white space at either end. *)
Definition noOuterSpace (s : string) : bool :=
  match firstChar s, lastChar s with
  | Some a, Some b => negb (isWhite a) && negb (isWhite b)
  | _, _ => true
  end.

Definition decimal (z : Z) : string := NilZero.string_of_int (Z.to_int z).

Definition numToString (n : num) : string :=
  match n with NaN => "NaN" | Fin z => decimal z end.

(** Turning [v] into a primitive goes through its [toString].  An object
    read from JSON inherits the one that prints [[object Object]], unless it
    has an own property of that name, which JSON can only make a value that
    is not a function: then the conversion throws a [TypeError], and so does
    the conversion of an array that holds such an object, which joins the
    conversions of its elements.  [convertible] tells the values that can be
    converted. *)
Fixpoint convertible (v : jsval) : bool :=
  match v with
  | JArr items => forallb convertible items
  | JObj fields => negb (existsb (fun field => fst field =? "toString") fields)
  | _ => true
  end.

(** [String(v)] for a [convertible] value; the callers look at [convertible]
    first.  Inside [Array.prototype.join], [null] and [undefined] print as
    the empty string. *)
Fixpoint ToString (v : jsval) : string :=
  match v with
  | JUndefined => "undefined"
  | JNull => "null"
  | JBool true => "true"
  | JBool false => "false"
  | JNum n => numToString n
  | JStr s => s
  | JArr items =>
      let element (x : jsval) : string :=
        match x with JUndefined | JNull => "" | _ => ToString x end in
      (fix join (l : list jsval) : string :=
         match l with
         | [] => ""
         | [x] => element x
         | x :: rest => (element x ++ "," ++ join rest)%string
         end) items
  | JObj _ => "[object Object]"
  end.

Definition digitOf (c : ascii) : option Z :=
  let n := Z.of_N (N_of_ascii c) in
  if ((48 <=? n) && (n <=? 57))%Z then Some (n - 48)%Z else None.

Fixpoint digits (s : string) (acc : Z) : option Z :=
  match s with
  | EmptyString => Some acc
  | String c rest =>
      match digitOf c with
      | Some d => digits rest (10 * acc + d)%Z
      | None => None
      end
  end.

Definition unsigned (s : string) : num :=
  match s with
  | EmptyString => NaN
  | _ => match digits s 0 with Some z => Fin z | None => NaN end
  end.

Definition negate (n : num) : num :=
  match n with NaN => NaN | Fin z => Fin (- z) end.

(** [Number(s)] for a string: white space is trimmed, the empty string is 0,
    a signed decimal integer is its value, and a string that is no numeric
    literal is [NaN].  The other numeric literals (with a fraction or an
    exponent, in base 16, 8 or 2, [Infinity]) are outside the model, which
    reads them as [NaN] too. *)
Definition StringToNumber (s : string) : num :=
  match trim s with
  | EmptyString => Fin 0
  | String "+" rest => unsigned rest
  | String "-" rest => negate (unsigned rest)
  | t => unsigned t
  end.

(** [Number(v)] for a [convertible] value. *)
Definition ToNumber (v : jsval) : num :=
  match v with
  | JUndefined => NaN
  | JNull => Fin 0
  | JBool b => Fin (if b then 1 else 0)
  | JNum n => n
  | JStr s => StringToNumber s
  | JArr _ | JObj _ => StringToNumber (ToString v)
  end.

(** [a - b]. *)
Definition numSub (a b : num) : num :=
  match a, b with
  | Fin x, Fin y => Fin (x - y)
  | _, _ => NaN
  end.

(** [a > b]. *)
Definition numGt (a b : num) : bool :=
  match a, b with
  | Fin x, Fin y => (y <? x)%Z
  | _, _ => false
  end.

(** *** Collections *)

(** A [Set] of strings, as the list of its elements in insertion order. *)
Definition Set_add (s : list string) (x : string) : list string :=
  if decide (x ∈ s) then s else s ++ [x].

(** [new Set(l)]. *)
Definition Set_from (l : list string) : list string := fold_left Set_add l [].

(** One solved problem, as the recent fetcher builds it. *)
Record Submission : Type := {
  title : jsval;
  titleSlug : string;
  timestamp : num
}.

Definition submissionToJs (item : Submission) : jsval :=
  JObj [("title", title item);
        ("titleSlug", JStr (titleSlug item));
        ("timestamp", JNum (timestamp item))].

(** A [Map] from slugs to submissions, as the list of its entries in
    insertion order; setting a present key keeps its place. *)
Fixpoint Map_get (m : list (string * Submission)) (k : string) : option Submission :=
  match m with
  | [] => None
  | (k', v) :: rest => if k =? k' then Some v else Map_get rest k
  end.

Fixpoint Map_set (m : list (string * Submission)) (k : string) (v : Submission)
  : list (string * Submission) :=
  match m with
  | [] => [(k, v)]
  | (k', v') :: rest => if k =? k' then (k, v) :: rest else (k', v') :: Map_set rest k v
  end.

Definition Map_values (m : list (string * Submission)) : list Submission := map snd m.

(** [Number(item.timestamp || 0)] on a stored submission. *)
Definition timeOf (item : Submission) : num :=
  ToNumber (orElse (JNum (timestamp item)) (JNum (Fin 0))).

(** The comparator [(a, b) => Number(b.timestamp || 0) - Number(a.timestamp || 0)]. *)
Definition compareFn (a b : Submission) : num := numSub (timeOf b) (timeOf a).

(** [Array.prototype.sort] is stable: [a] stays before a later [b] unless the
    comparator is positive ([NaN] counts as 0). *)
Definition staysBefore (a b : Submission) : bool :=
  match compareFn a b with
  | NaN => true
  | Fin z => (z <=? 0)%Z
  end.

Fixpoint insertSorted (a : Submission) (l : list Submission) : list Submission :=
  match l with
  | [] => [a]
  | b :: rest => if staysBefore a b then a :: b :: rest else b :: insertSorted a rest
  end.

Definition Array_sort (l : list Submission) : list Submission :=
  foldr insertSorted [] l.

(** ** Upstream calls and effects *)

Inductive exn : Type :=
| Error (message : string).

Definition message (e : exn) : string :=
  match e with Error m => m end.

(** The [TypeError] of converting a value that is not [convertible]. *)
Definition conversionError : exn := Error "Cannot convert object to primitive value".

(** [new Error(text)]. *)
Definition newError (text : jsval) : exn :=
  if convertible text then Error (ToString text) else conversionError.

(** The GraphQL documents the code posts, with their variables. *)
Inductive query : Type :=
| recentAccepted (username : jsval)
| recentSolved (username : jsval)
| submissionList (offset limit : Z) (username : jsval).

Inductive request : Type :=
| PostGraphQL (payload : query)
| GetSubmissions (username : jsval) (offset limit : Z).

(** The text of a response body: empty, text that [JSON.parse] rejects (with
    the message of its [SyntaxError]), or the text of a JSON value. *)
Inductive rawText : Type :=
| Blank
| Malformed (reason : string)
| Json (v : jsval).

(** What [fetch] settles to: a rejection, or a response.  A call that never
    settles leaves the handler waiting for ever and is outside the model:
    what is said of a run is said of a run whose upstream calls settle. *)
Inductive reply : Type :=
| Rejected (e : exn)
| Response (status : Z) (raw : rawText).

Inductive event : Type :=
| Fetch (rq : request) (rp : reply)
| ConsoleError (args : list string).

(** The platform: how it settles a request, given everything that happened
    before. *)
Definition upstream : Type := list event -> request -> reply.

(** Computations that call the platform, extend the trace and may throw. *)
Definition M (A : Type) : Type := upstream -> list event -> (exn + A) * list event.

Definition ret {A} (a : A) : M A := fun _ tr => (inr a, tr).

Definition throw {A} (e : exn) : M A := fun _ tr => (inl e, tr).

Definition bind {A B} (c : M A) (k : A -> M B) : M B :=
  fun u tr =>
    match c u tr with
    | (inl e, tr') => (inl e, tr')
    | (inr a, tr') => k a u tr'
    end.

Definition tryCatch {A} (c : M A) (handle : exn -> M A) : M A :=
  fun u tr =>
    match c u tr with
    | (inl e, tr') => handle e u tr'
    | (inr a, tr') => (inr a, tr')
    end.

Notation "x <- c ;; k" := (bind c (fun x => k))
  (at level 100, c at next level, right associativity).

Definition console_error (args : list string) : M unit :=
  fun _ tr => (inr tt, tr ++ [ConsoleError args]).

Record FetchResponse : Type := {
  status : Z;
  raw : rawText
}.

Definition ok (response : FetchResponse) : bool :=
  ((200 <=? status response) && (status response <=? 299))%Z.

Definition fetch (rq : request) : M FetchResponse :=
  fun u tr =>
    let rp := u tr rq in
    match rp with
    | Rejected e => (inl e, tr ++ [Fetch rq rp])
    | Response st b => (inr {| status := st; raw := b |}, tr ++ [Fetch rq rp])
    end.

(** The message of the [SyntaxError] of [JSON.parse] on the empty text. *)
Definition unexpectedEnd : string := "Unexpected end of JSON input".

(** [response.json()]. *)
Definition response_json (response : FetchResponse) : M jsval :=
  match raw response with
  | Blank => throw (Error unexpectedEnd)
  | Malformed reason => throw (Error reason)
  | Json v => ret v
  end.

(** The requests of a trace, in order. *)
Definition requests (tr : list event) : list request :=
  omap (fun ev => match ev with Fetch rq _ => Some rq | ConsoleError _ => None end) tr.

(** ** The code both files share *)

Definition pageSize : Z := 20.
Definition maxPages : nat := 500.

(** The body of [list.forEach] in the recent fetcher. *)
Definition keepLatest (dedupedBySlug : list (string * Submission)) (item : jsval)
  : list (string * Submission) :=
  if negb (truthy (optProp item "titleSlug")) then dedupedBySlug
  else
    let slug := trim (ToString (getProp item "titleSlug")) in
    if negb (nonEmpty slug) then dedupedBySlug
    else
      let timestamp := ToNumber (orElse (getProp item "timestamp") (JNum (Fin 0))) in
      let replace :=
        match Map_get dedupedBySlug slug with
        | None => true
        | Some existing => numGt timestamp (timeOf existing)
        end in
      if replace
      then Map_set dedupedBySlug slug
             {| title := orElse (getProp item "title") (JStr slug);
                titleSlug := slug;
                timestamp := timestamp |}
      else dedupedBySlug.

(** [keepLatest] throws on [item]: [String] cannot convert its slug, or
    [Number] its timestamp. *)
Definition keepLatestThrows (item : jsval) : bool :=
  truthy (optProp item "titleSlug")
  && (negb (convertible (getProp item "titleSlug"))
      || nonEmpty (trim (ToString (getProp item "titleSlug")))
         && negb (convertible (orElse (getProp item "timestamp") (JNum (Fin 0))))).

(** What the recent fetcher returns for the upstream list [entries], when no
    entry makes [keepLatest] throw. *)
Definition recentOf (entries : list jsval) : list Submission :=
  Array_sort (Map_values (fold_left keepLatest entries [])).

(** The body of [submissions.forEach] in the GraphQL full-history fetcher. *)
Definition addAccepted (accepted : list string) (submission : jsval) : list string :=
  if negb (truthy (optProp submission "titleSlug")) then accepted
  else if negb (isExactly (getProp submission "statusDisplay") "Accepted") then accepted
  else Set_add accepted (trim (ToString (getProp submission "titleSlug"))).

(** [addAccepted] throws on [submission]: [String] cannot convert its slug. *)
Definition addAcceptedThrows (submission : jsval) : bool :=
  truthy (optProp submission "titleSlug")
  && isExactly (getProp submission "statusDisplay") "Accepted"
  && negb (convertible (getProp submission "titleSlug")).

(** The body of [submissions.forEach] in the public API fetcher. *)
Definition addAcceptedPublic (accepted : list string) (submission : jsval) : list string :=
  if negb (truthy submission) then accepted
  else
    let slug :=
      match getProp submission "title_slug" with
      | JStr s => trim s
      | _ => ""
      end in
    if negb (nonEmpty slug) then accepted
    else
      let status :=
        orElse (getProp submission "status_display") (getProp submission "statusDisplay") in
      if negb (isExactly status "Accepted") then accepted
      else Set_add accepted slug.

Definition failedWith (what : string) (status : Z) : exn :=
  Error (what ++ " (" ++ decimal status ++ ")")%string.

Section Fetchers.

(** The GraphQL helper of the file at hand. *)
Variable graphqlRequest : query -> M jsval.

(** The recent fetcher, for the field [field] of the reply to [payload].  An
    entry on which the body of [forEach] throws ends the call, whatever the
    entries before it put in the map. *)
Definition fetchRecent (payload : query) (field : string) : M (list Submission) :=
  data <- graphqlRequest payload ;;
  let entries := arrayOrEmpty (optProp data field) in
  if existsb keepLatestThrows entries then throw conversionError
  else ret (recentOf entries).

(** The [for] loop of the GraphQL full-history fetcher, with [pagesLeft]
    iterations to go. *)
Fixpoint graphqlPages (pagesLeft : nat) (username : jsval) (offset : Z)
    (accepted : list string) : M (list string) :=
  match pagesLeft with
  | O => ret accepted
  | S pagesLeft' =>
      data <- graphqlRequest (submissionList offset pageSize username) ;;
      let page := optProp data "submissionList" in
      let submissions := arrayOrEmpty (optProp page "submissions") in
      if existsb addAcceptedThrows submissions then throw conversionError
      else
        let accepted' := fold_left addAccepted submissions accepted in
        if negb (truthy (optProp page "hasNext")) || (length submissions =? 0)%nat
        then ret accepted'
        else graphqlPages pagesLeft' username (offset + pageSize)%Z accepted'
  end.

Definition fetchAllGraphQL (username : jsval) : M (list string) :=
  accepted <- graphqlPages maxPages username 0%Z [] ;;
  ret (List.filter nonEmpty accepted).

End Fetchers.

(** The [for] loop of the public API fetcher.  The address is built before
    the request is sent, and [encodeURIComponent(username)] converts the
    username to a string first; the [URIError] it has for a lone surrogate
    cannot occur in the strings of the model. *)
Fixpoint publicPages (pagesLeft : nat) (username : jsval) (offset : Z)
    (accepted : list string) : M (list string) :=
  match pagesLeft with
  | O => ret accepted
  | S pagesLeft' =>
      if negb (convertible username) then throw conversionError
      else
        response <- fetch (GetSubmissions username offset pageSize) ;;
        if negb (ok response)
        then throw (failedWith "Public submissions API failed" (status response))
        else
          data <- response_json response ;;
          let submissions := arrayOrEmpty (optProp data "submissions_dump") in
          let accepted' := fold_left addAcceptedPublic submissions accepted in
          let hasNext := truthy (optProp data "has_next") in
          if negb hasNext || (length submissions =? 0)%nat
          then ret accepted'
          else publicPages pagesLeft' username (offset + pageSize)%Z accepted'
  end.

Definition fetchAllAcceptedSlugsFromPublicApi (username : jsval) : M (list string) :=
  publicPages maxPages username 0%Z [].

(** The handlers call it on a list of strings; on an entry that is not
    [convertible] the conversion would throw. *)
Definition dedupeSlugs (slugs : jsval) : list string :=
  Set_from
    (List.filter nonEmpty
       (map (fun slug => trim (ToString (orElse slug (JStr "")))) (arrayOrEmpty slugs))).

(** ** The endpoint *)

Record HttpRequest : Type := {
  method : string;
  body : jsval
}.

(** What the handler sends: [res.status(c).end()] sends no body,
    [res.status(c).json(v)] sends [v]. *)
Record HttpResponse : Type := {
  statusCode : Z;
  headers : list (string * string);
  sent : option jsval
}.

Definition corsHeaders : list (string * string) :=
  [("Access-Control-Allow-Origin", "*");
   ("Access-Control-Allow-Methods", "POST, OPTIONS");
   ("Access-Control-Allow-Headers", "Content-Type")].

Definition respond (code : Z) (payload : option jsval) : HttpResponse :=
  {| statusCode := code; headers := corsHeaders; sent := payload |}.

Definition errorBody (reason : string) : jsval := JObj [("error", JStr reason)].

Definition serverError (err : exn) : jsval :=
  JObj [("error", JStr "Server error"); ("details", JStr (message err))].

(** The object of the richer response. *)
Definition aggregated (source : string) (recentSolved : list Submission)
    (allSolvedSlugs : list string) : jsval :=
  JObj [("source", JStr source);
        ("recentSolved", JArr (map submissionToJs recentSolved));
        ("allSolvedSlugs", JArr (map JStr allSolvedSlugs));
        ("counts",
         JObj [("recentSolved", JNum (Fin (Z.of_nat (length recentSolved))));
               ("allSolved", JNum (Fin (Z.of_nat (length allSolvedSlugs))))])].

Definition isEmpty (l : list string) : bool := (length l =? 0)%nat.

(** [recentSolved.map(item => item.titleSlug)]. *)
Definition slugsOf (recentSolved : list Submission) : jsval :=
  JArr (map (fun item => JStr (titleSlug item)) recentSolved).

Section Aggregation.

(** The GraphQL full-history fetcher of the file at hand, and the labels of
    its two log lines. *)
Variable fetchFull : jsval -> M (list string).
Variables fullFailed publicFailed : string.

(** The fallback chain of [handler], from [let allSolvedSlugs = []] to the
    response; the two mutable locals are threaded as a pair. *)
Definition aggregate (username : jsval) (recentSolved : list Submission)
  : M HttpResponse :=
  first <- tryCatch
             (allSolvedSlugs <- fetchFull username ;;
              ret (allSolvedSlugs, if isEmpty allSolvedSlugs then "recent" else "full"))
             (fun error =>
                _ <- console_error [fullFailed; message error] ;;
                ret ([], "recent")) ;;
  second <- (if isEmpty (fst first)
             then tryCatch
                    (allSolvedSlugs <- fetchAllAcceptedSlugsFromPublicApi username ;;
                     ret (allSolvedSlugs,
                          if isEmpty allSolvedSlugs then snd first else "full"))
                    (fun error =>
                       _ <- console_error [publicFailed; message error] ;;
                       ret ([], snd first))
             else ret first) ;;
  let allSolvedSlugs :=
    if isEmpty (fst second) then dedupeSlugs (slugsOf recentSolved) else fst second in
  ret (respond 200 (Some (aggregated (snd second) recentSolved allSolvedSlugs))).

End Aggregation.

(** *** [src/api/fetchSolved.js] *)
Module FetchSolved.

Definition graphqlRequest (payload : query) : M jsval :=
  response <- fetch (PostGraphQL payload) ;;
  json <- response_json response ;;
  if negb (ok response)
  then throw (failedWith "LeetCode GraphQL request failed" (status response))
  else if truthy (optProp (optProp json "errors") "length")
  then throw (newError
                (orElse (optProp (getFirst (getProp json "errors")) "message")
                        (JStr "LeetCode GraphQL returned errors")))
  else ret (orElse (optProp json "data") emptyObject).

(** What [graphqlRequest] makes of the platform's reply. *)
Definition graphqlResult (rp : reply) : exn + jsval :=
  match rp with
  | Rejected e => inl e
  | Response _ Blank => inl (Error unexpectedEnd)
  | Response _ (Malformed reason) => inl (Error reason)
  | Response st (Json json) =>
      if negb ((200 <=? st) && (st <=? 299))%Z
      then inl (failedWith "LeetCode GraphQL request failed" st)
      else if truthy (optProp (optProp json "errors") "length")
      then inl (newError
                 (orElse (optProp (getFirst (getProp json "errors")) "message")
                         (JStr "LeetCode GraphQL returned errors")))
      else inr (orElse (optProp json "data") emptyObject)
  end.

Definition fetchRecentAcceptedSubmissions (username : jsval) : M (list Submission) :=
  fetchRecent graphqlRequest (recentAccepted username) "recentAcSubmissionList".

Definition fetchAllAcceptedSlugs (username : jsval) : M (list string) :=
  fetchAllGraphQL graphqlRequest username.

(** The [TypeError] of destructuring [req.body] when it is [undefined] or
    [null]; [what] names which. *)
Definition cannotDestructure (what : string) : exn :=
  Error ("Cannot destructure property 'username' of 'req.body' as it is "
         ++ what ++ ".")%string.

Definition handler (req : HttpRequest) : M HttpResponse :=
  if method req =? "OPTIONS" then ret (respond 200 None)
  else if negb (method req =? "POST")
  then ret (respond 405 (Some (errorBody "Only POST allowed")))
  else
    match body req with
    | JUndefined => throw (cannotDestructure "undefined")
    | JNull => throw (cannotDestructure "null")
    | _ =>
        let username := getProp (body req) "username" in
        if negb (truthy username)
        then ret (respond 400 (Some (errorBody "Username is required")))
        else
          tryCatch
            (recentSolved <- fetchRecentAcceptedSubmissions username ;;
             aggregate fetchAllAcceptedSlugs
               "Full history fetch failed, falling back to recent list:"
               "Public submissions API full-history fetch failed:"
               username recentSolved)
            (fun err =>
               _ <- console_error [message err] ;;
               ret (respond 500 (Some (serverError err))))
    end.

End FetchSolved.

(** *** [src/unnamed/part_000] *)
Module Part000.

Definition graphqlRequest (payload : query) : M jsval :=
  response <- fetch (PostGraphQL payload) ;;
  json <- match raw response with
          | Blank => ret emptyObject
          | Malformed _ =>
              throw (failedWith "LeetCode GraphQL returned non-JSON response"
                       (status response))
          | Json v => ret v
          end ;;
  if negb (ok response)
  then throw (failedWith "LeetCode GraphQL request failed" (status response))
  else if isArray (optProp json "errors")
          && (0 <? length (arrayOrEmpty (getProp json "errors")))%nat
  then throw (newError
                (orElse (optProp (getFirst (getProp json "errors")) "message")
                        (JStr "LeetCode GraphQL returned errors")))
  else ret (orElse (optProp json "data") emptyObject).

(** The value [graphqlRequest] reads the body as, when it reads one. *)
Definition parsed (b : rawText) : option jsval :=
  match b with
  | Blank => Some emptyObject
  | Malformed _ => None
  | Json v => Some v
  end.

(** What [graphqlRequest] makes of the platform's reply. *)
Definition graphqlResult (rp : reply) : exn + jsval :=
  match rp with
  | Rejected e => inl e
  | Response st b =>
      match parsed b with
      | None => inl (failedWith "LeetCode GraphQL returned non-JSON response" st)
      | Some json =>
          if negb ((200 <=? st) && (st <=? 299))%Z
          then inl (failedWith "LeetCode GraphQL request failed" st)
          else if isArray (optProp json "errors")
                  && (0 <? length (arrayOrEmpty (getProp json "errors")))%nat
          then inl (newError
                     (orElse (optProp (getFirst (getProp json "errors")) "message")
                             (JStr "LeetCode GraphQL returned errors")))
          else inr (orElse (optProp json "data") emptyObject)
      end
  end.

Definition fetchRecentSubmissions (username : jsval) : M (list Submission) :=
  fetchRecent graphqlRequest (recentSolved username) "recentSubmissionList".

Definition fetchAllAcceptedSlugsFromGraphQL (username : jsval) : M (list string) :=
  fetchAllGraphQL graphqlRequest username.

Definition handler (req : HttpRequest) : M HttpResponse :=
  if method req =? "OPTIONS" then ret (respond 200 None)
  else if negb (method req =? "POST")
  then ret (respond 405 (Some (errorBody "Only POST allowed")))
  else
    let fields := orElse (body req) emptyObject in
    let username := getProp fields "username" in
    let responseFormat := getProp fields "responseFormat" in
    let includeFullHistory := getProp fields "includeFullHistory" in
    if negb (truthy username) || negb (isString username)
       || negb (truthy (JStr (trim (ToString username))))
    then ret (respond 400 (Some (errorBody "Username is required")))
    else
      let safeUsername := JStr (trim (ToString username)) in
      let wantsV2 :=
        isExactly responseFormat "v2"
        || match includeFullHistory with JBool true => true | _ => false end in
      tryCatch
        (recentSolved <- fetchRecentSubmissions safeUsername ;;
         if negb wantsV2
         then ret (respond 200 (Some (JArr (map submissionToJs recentSolved))))
         else
           aggregate fetchAllAcceptedSlugsFromGraphQL
             "GraphQL full-history fetch failed:"
             "Public API full-history fetch failed:"
             safeUsername recentSolved)
        (fun err =>
           _ <- console_error [message err] ;;
           ret (respond 500 (Some (serverError err)))).

End Part000.

(** ** Notions used in the statements *)

(** The slug under which the recent fetcher files [item], if it keeps it. *)
Definition slugOf (item : jsval) : option string :=
  if truthy (optProp item "titleSlug") && nonEmpty (trim (ToString (getProp item "titleSlug")))
  then Some (trim (ToString (getProp item "titleSlug")))
  else None.

(** [Number(item.timestamp || 0)] on an upstream item. *)
Definition stampOf (item : jsval) : num :=
  ToNumber (orElse (getProp item "timestamp") (JNum (Fin 0))).

(** The timestamp the comparator sees: a stored [NaN] counts as 0. *)
Definition seconds (item : Submission) : Z :=
  match timestamp item with NaN => 0%Z | Fin z => z end.

(** The text [dedupeSlugs] makes of one entry. *)
Definition slugText (slug : jsval) : string :=
  trim (ToString (orElse slug (JStr ""))).

(** The record the recent fetcher stores for [item] under [slug]. *)
Definition recordOf (item : jsval) (slug : string) : Submission :=
  {| title := orElse (getProp item "title") (JStr slug);
     titleSlug := slug;
     timestamp := stampOf item |}.

(** Descending order of the timestamps the comparator sees. *)
Definition newerFirst (a b : Submission) : Prop := (seconds b <= seconds a)%Z.

(** What the recent fetcher owes its caller for the upstream list [entries]:
    one record per slug, each built from an entry of that slug, no entry of
    that slug with a higher timestamp, newest first. *)
Definition LatestPerSlug (entries : list jsval) (out : list Submission) : Prop :=
  NoDup (map titleSlug out)
  /\ (forall r, r ∈ out ->
        exists item, item ∈ entries /\ slugOf item = Some (titleSlug r)
                     /\ r = recordOf item (titleSlug r))
  /\ (forall item s, item ∈ entries -> slugOf item = Some s ->
        exists r, r ∈ out /\ titleSlug r = s
                  /\ forall t, stampOf item = Fin t -> (t <= seconds r)%Z)
  /\ StronglySorted newerFirst out.

(** The upstream item [{titleSlug: slug, timestamp: ts}]. *)
Definition solved (slug : string) (ts : Z) : jsval :=
  JObj [("titleSlug", JStr slug); ("timestamp", JNum (Fin ts))].

(** The [Map] after the entries [seen]: its keys are distinct, each value is
    the record of a seen entry filed under its own slug, and the value of a
    slug carries a timestamp no lower than any seen under that slug. *)
Definition Latest (m : list (string * Submission)) (seen : list jsval) : Prop :=
  NoDup (map fst m)
  /\ (forall k r, (k, r) ∈ m ->
        exists item, item ∈ seen /\ slugOf item = Some k /\ r = recordOf item k)
  /\ (forall item s, item ∈ seen -> slugOf item = Some s ->
        exists r, Map_get m s = Some r
                  /\ forall t, stampOf item = Fin t -> (t <= seconds r)%Z).

(** A GraphQL helper that posts its payload once and reads the reply by
    [result]. *)
Definition PostsOnce (graphqlRequest : query -> M jsval) (result : reply -> exn + jsval)
  : Prop :=
  forall payload u tr,
    graphqlRequest payload u tr
    = (result (u tr (PostGraphQL payload)),
       tr ++ [Fetch (PostGraphQL payload) (u tr (PostGraphQL payload))]).

(** A reply that [fetch] resolved with a status in the 2xx range. *)
Definition succeeded (st : Z) : Prop := (200 <= st <= 299)%Z.

(** A platform that gives the same reply to every request. *)
Definition always (rp : reply) : upstream := fun _ _ => rp.

(** What a recent fetcher built on a helper reading replies by [result]
    returns for the reply [rp], reading the list from [field]. *)
Definition recentResult (result : reply -> exn + jsval) (field : string) (rp : reply)
  : exn + list Submission :=
  match result rp with
  | inl e => inl e
  | inr data =>
      if existsb keepLatestThrows (arrayOrEmpty (optProp data field))
      then inl conversionError
      else inr (recentOf (arrayOrEmpty (optProp data field)))
  end.

(** *** Pages of the full history *)

(** The submissions the GraphQL fetcher reads from the data of a page. *)
Definition submissionsOf (data : jsval) : list jsval :=
  arrayOrEmpty (optProp (optProp data "submissionList") "submissions").

(** The page makes the GraphQL loop [break]: no next page, or no submission. *)
Definition lastPage (data : jsval) : bool :=
  negb (truthy (optProp (optProp data "submissionList") "hasNext"))
  || (length (submissionsOf data) =? 0)%nat.

(** The slug the GraphQL fetcher adds for [submission]: it has a slug and its
    status is the string [Accepted]. *)
Definition acceptedSlug (submission : jsval) : option string :=
  if truthy (optProp submission "titleSlug")
     && isExactly (getProp submission "statusDisplay") "Accepted"
  then Some (trim (ToString (getProp submission "titleSlug")))
  else None.

(** The slug the public API fetcher adds for [submission]. *)
Definition acceptedSlugPublic (submission : jsval) : option string :=
  match getProp submission "title_slug" with
  | JStr s =>
      if truthy submission && nonEmpty (trim s)
         && isExactly (orElse (getProp submission "status_display")
                              (getProp submission "statusDisplay")) "Accepted"
      then Some (trim s)
      else None
  | _ => None
  end.

(** The request of iteration [k] of either loop. *)
Definition historyRequest (username : jsval) (k : nat) : request :=
  PostGraphQL (submissionList (pageSize * Z.of_nat k) pageSize username).

Definition publicRequest (username : jsval) (k : nat) : request :=
  GetSubmissions username (pageSize * Z.of_nat k) pageSize.

(** The events of a loop that sent [request_at 0], [request_at 1], ... and
    got [replies]. *)
Definition exchanges (request_at : nat -> request) (replies : list reply) : list event :=
  imap (fun k rp => Fetch (request_at k) rp) replies.

(** [x] is the slug of an accepted submission on a page among [replies]. *)
Definition acceptedOn (result : reply -> exn + jsval) (replies : list reply) (x : string)
  : Prop :=
  exists rp data submission,
    rp ∈ replies /\ result rp = inr data
    /\ submission ∈ submissionsOf data /\ acceptedSlug submission = Some x.

(** A full-history fetcher over GraphQL: it asks for pages of [pageSize] at
    offsets 0, 20, 40, ..., at most [maxPages] of them, asks for no page
    after one that is a [lastPage], and returns without duplicates the
    non-empty slugs of the accepted submissions of the pages it got. *)
Definition PagedHistory (fetcher : jsval -> M (list string))
    (result : reply -> exn + jsval) : Prop :=
  forall username u tr, exists replies,
    snd (fetcher username u tr) = tr ++ exchanges (historyRequest username) replies
    /\ length replies <= maxPages
    /\ (forall k rp data,
          replies !! k = Some rp -> result rp = inr data -> lastPage data = true ->
          length replies = S k)
    /\ (forall out, fst (fetcher username u tr) = inr out ->
          NoDup out
          /\ forall x, x ∈ out <-> x <> "" /\ acceptedOn result replies x).

(** What the GraphQL loop makes of a reply: the data of the page, or the
    error thrown while reading the reply or adding its submissions. *)
Definition pageRead (result : reply -> exn + jsval) (rp : reply) : exn + jsval :=
  match result rp with
  | inl e => inl e
  | inr data =>
      if existsb addAcceptedThrows (submissionsOf data) then inl conversionError
      else inr data
  end.

(** The run of a full-history fetcher over GraphQL, page by page.  It asks
    for pages of [pageSize] at offsets 0, 20, 40, ..., the first one always,
    and [replies] are the platform's answers in turn.  The next page is asked
    for exactly when the page at hand was read, said that more follow, held a
    submission, and fewer than [maxPages] pages were asked for.  The fetcher
    throws exactly when the last page it asked for could not be read, and
    then with the error of that page; otherwise it returns, without
    duplicates, the non-empty slugs of the accepted submissions of all the
    pages. *)
Definition GraphQLHistory (fetcher : jsval -> M (list string))
    (result : reply -> exn + jsval) : Prop :=
  forall username u tr, exists replies,
    snd (fetcher username u tr) = tr ++ exchanges (historyRequest username) replies
    /\ 1 <= length replies <= maxPages
    /\ (forall k rp,
          replies !! k = Some rp ->
          rp = u (tr ++ exchanges (historyRequest username) (take k replies))
                 (historyRequest username k))
    /\ (forall k rp,
          replies !! k = Some rp ->
          (S k < length replies
           <-> S k < maxPages
               /\ exists data, pageRead result rp = inr data /\ lastPage data = false))
    /\ (forall e,
          fst (fetcher username u tr) = inl e
          <-> exists rp, last replies = Some rp /\ pageRead result rp = inl e)
    /\ (forall out,
          fst (fetcher username u tr) = inr out ->
          NoDup out /\ forall x, x ∈ out <-> x <> "" /\ acceptedOn result replies x).

(** A slug as a response may carry it: not empty, no white space around. *)
Definition clean (x : string) : Prop := x <> "" /\ noOuterSpace x = true.

(** The body of a GraphQL page, and of a page of the public API. *)
Definition graphqlPage (hasNext : jsval) (submissions : list jsval) : jsval :=
  JObj [("data",
         JObj [("submissionList",
                JObj [("hasNext", hasNext); ("submissions", JArr submissions)])])].

Definition publicPage (has_next : jsval) (submissions_dump : list jsval) : jsval :=
  JObj [("submissions_dump", JArr submissions_dump); ("has_next", has_next)].

(** What the public API fetcher makes of a reply: the parsed body, or the
    error it throws. *)
Definition publicResult (rp : reply) : exn + jsval :=
  match rp with
  | Rejected e => inl e
  | Response st b =>
      if negb ((200 <=? st) && (st <=? 299))%Z
      then inl (failedWith "Public submissions API failed" st)
      else match b with
           | Blank => inl (Error unexpectedEnd)
           | Malformed reason => inl (Error reason)
           | Json v => inr v
           end
  end.

Definition dumpOf (data : jsval) : list jsval :=
  arrayOrEmpty (optProp data "submissions_dump").

(** The page makes the public API loop [break]. *)
Definition lastPublic (data : jsval) : bool :=
  negb (truthy (optProp data "has_next")) || (length (dumpOf data) =? 0)%nat.

(** [x] is the slug of an accepted submission on a page of the public API
    among [replies]. *)
Definition acceptedOnPublic (replies : list reply) (x : string) : Prop :=
  exists rp data submission,
    rp ∈ replies /\ publicResult rp = inr data
    /\ submission ∈ dumpOf data /\ acceptedSlugPublic submission = Some x.

(** The reply is a GraphQL page that reports [hasNext: true] and holds the
    submissions [submissions], at least one: a 2xx response whose JSON body
    carries no errors (its [errors], if any, has no truthy [length]) and has
    the two fields under [data.submissionList], whatever else it holds. *)
Definition MorePage (rp : reply) (submissions : list jsval) : Prop :=
  exists st json,
    rp = Response st (Json json) /\ succeeded st
    /\ truthy (optProp (optProp json "errors") "length") = false
    /\ getProp (getProp (getProp json "data") "submissionList") "hasNext" = JBool true
    /\ getProp (getProp (getProp json "data") "submissionList") "submissions"
       = JArr submissions
    /\ submissions <> [].

(** The reply is a page of the public API that reports [has_next: true] and
    holds the submissions [submissions_dump], at least one. *)
Definition MorePublicPage (rp : reply) (submissions_dump : list jsval) : Prop :=
  exists st data,
    rp = Response st (Json data) /\ succeeded st
    /\ getProp data "has_next" = JBool true
    /\ getProp data "submissions_dump" = JArr submissions_dump
    /\ submissions_dump <> [].

(** A platform whose every GraphQL page for [username] reports
    [hasNext: true] and holds at least one submission, none with a slug that
    cannot be converted. *)
Definition AlwaysMoreGraphQL (u : upstream) (username : jsval) : Prop :=
  forall history offset, exists submissions,
    MorePage (u history (PostGraphQL (submissionList offset pageSize username))) submissions
    /\ existsb addAcceptedThrows submissions = false.

(** A platform whose every page of the public API for [username] reports
    [has_next: true] and holds at least one submission. *)
Definition AlwaysMorePublic (u : upstream) (username : jsval) : Prop :=
  forall history offset, exists submissions_dump,
    MorePublicPage (u history (GetSubmissions username offset pageSize)) submissions_dump.

(** A full-history loop that ran to its ceiling: it sent exactly 500
    requests, [request_at 0] to [request_at 499], got [replies], and
    returned a list that holds without duplicates the slugs that [accepted]
    finds on them. *)
Definition FullRun (run : (exn + list string) * list event) (tr : list event)
    (request_at : nat -> request) (accepted : list reply -> string -> Prop) : Prop :=
  exists out replies,
    run = (inr out, tr ++ exchanges request_at replies)
    /\ length replies = 500
    /\ NoDup out
    /\ forall x, x ∈ out <-> accepted replies x.

(** An object that cannot be converted to a string, and an accepted
    submission that has it for a slug. *)
Definition unconvertible : jsval := JObj [("toString", JNull)].

Definition unconvertibleItem : jsval :=
  JObj [("titleSlug", unconvertible); ("statusDisplay", JStr "Accepted")].

(** The platform that answers every request with one more page holding
    [submission], and says there are more. *)
Definition endless (submission : jsval) : upstream :=
  fun _ rq =>
    match rq with
    | PostGraphQL _ => Response 200 (Json (graphqlPage (JBool true) [submission]))
    | GetSubmissions _ _ _ => Response 200 (Json (publicPage (JBool true) [submission]))
    end.

(** *** Requests and responses *)

(** [req.body.k] as part_000 reads it, through [req.body || {}]. *)
Definition bodyField (req : HttpRequest) (k : string) : jsval :=
  getProp (orElse (body req) emptyObject) k.

(** The request opts into the richer format. *)
Definition wantsV2 (req : HttpRequest) : Prop :=
  bodyField req "responseFormat" = JStr "v2"
  \/ bodyField req "includeFullHistory" = JBool true.

(** The object of the richer response, over the values it carries. *)
Definition richBody (source : string) (recentSolved allSolvedSlugs : list jsval) : jsval :=
  JObj [("source", JStr source);
        ("recentSolved", JArr recentSolved);
        ("allSolvedSlugs", JArr allSolvedSlugs);
        ("counts",
         JObj [("recentSolved", JNum (Fin (Z.of_nat (length recentSolved))));
               ("allSolved", JNum (Fin (Z.of_nat (length allSolvedSlugs))))])].


(** A platform that serves the recent list [entries] under either field and
    refuses everything else with status 403. *)
Definition recentOnly (entries : list jsval) : upstream :=
  fun _ rq =>
    match rq with
    | PostGraphQL (recentAccepted _) | PostGraphQL (recentSolved _) =>
        Response 200
          (Json (JObj [("data", JObj [("recentAcSubmissionList", JArr entries);
                                      ("recentSubmissionList", JArr entries)])]))
    | _ => Response 403 (Malformed "Unexpected token < in JSON at position 0")
    end.

(** A [POST] of the body [fields]. *)
Definition post (fields : list (string * jsval)) : HttpRequest :=
  {| method := "POST"; body := JObj fields |}.

(** The response carries the richer object: the four keys, with the counts
    equal to the lengths of the two arrays. *)
Definition RichResponse (resp : HttpResponse) : Prop :=
  exists source recentSolved allSolvedSlugs,
    sent resp = Some (richBody source recentSolved allSolvedSlugs).

(** The [allSolvedSlugs] of the response are distinct clean strings. *)
Definition CleanSlugs (resp : HttpResponse) : Prop :=
  exists payload slugs,
    sent resp = Some payload
    /\ getProp payload "allSolvedSlugs" = JArr (map JStr slugs)
    /\ NoDup slugs /\ Forall clean slugs.

(** A request for the richer format on behalf of [alice], and the one solved
    problem of the examples. *)
Definition aliceV2 : HttpRequest :=
  post [("username", JStr "alice"); ("responseFormat", JStr "v2")].

Definition twoSum : Submission :=
  {| title := JStr "two-sum"; titleSlug := "two-sum"; timestamp := Fin 7 |}.

(** *** Notions for the further properties *)

(** One run of a pagination loop that had [n] iterations to go and held
    [accepted], started after the events [tr]: it got [replies] and ended
    with [outcome].  It asked for at most [n] pages, each reply being the
    platform's answer at that point; it asked for none exactly when it had no
    iteration to go or was not [ready] to build its requests; every page
    before the last one was read and said that more follow; it throws
    exactly when it is not ready or its last reply is an error; it returns
    because it ran out of iterations or its last page ended the loop; and
    what it returns is [accepted] and the picks of the pages it read. *)
Definition PagedRun (u : upstream) (tr : list event) (request_at : nat -> request)
    (ready : bool) (read : reply -> exn + jsval) (subs : jsval -> list jsval)
    (lastp : jsval -> bool) (pick : jsval -> option string)
    (n : nat) (accepted : list string) (replies : list reply)
    (outcome : exn + list string) : Prop :=
  length replies <= n
  /\ (forall k rp,
        replies !! k = Some rp ->
        rp = u (tr ++ exchanges request_at (take k replies)) (request_at k))
  /\ (replies = [] <-> n = 0 \/ ready = false)
  /\ (forall k rp,
        replies !! k = Some rp -> S k < length replies ->
        exists data, read rp = inr data /\ lastp data = false)
  /\ (forall e,
        outcome = inl e
        <-> (ready = false /\ 0 < n /\ e = conversionError)
            \/ exists rp, last replies = Some rp /\ read rp = inl e)
  /\ (forall out,
        outcome = inr out ->
        (length replies = n
         \/ exists rp data,
              last replies = Some rp /\ read rp = inr data /\ lastp data = true)
        /\ (NoDup accepted -> NoDup out)
        /\ forall x,
             x ∈ out
             <-> x ∈ accepted
                 \/ exists rp data submission,
                      rp ∈ replies /\ read rp = inr data
                      /\ submission ∈ subs data /\ pick submission = Some x).

(** A full-history fetcher is all or nothing.  It throws before it asks for
    anything exactly when it is not [ready] to build its request, and
    otherwise exactly when the last page it asked for could not be [read],
    whatever the pages before it held; every page before the last was read
    and said that more follow; and it returns only after [maxPages] pages or
    a page that ends the loop. *)
Definition AllOrNothing (fetcher : jsval -> M (list string))
    (request_at : jsval -> nat -> request) (ready : jsval -> bool)
    (read : reply -> exn + jsval) (lastp : jsval -> bool) : Prop :=
  forall username u tr, exists replies,
    snd (fetcher username u tr) = tr ++ exchanges (request_at username) replies
    /\ (replies = [] <-> ready username = false)
    /\ (forall k rp,
          replies !! k = Some rp -> S k < length replies ->
          exists data, read rp = inr data /\ lastp data = false)
    /\ (forall e,
          fst (fetcher username u tr) = inl e
          <-> (ready username = false /\ e = conversionError)
              \/ exists rp, last replies = Some rp /\ read rp = inl e)
    /\ (forall out,
          fst (fetcher username u tr) = inr out ->
          length replies = maxPages
          \/ exists rp data,
               last replies = Some rp /\ read rp = inr data /\ lastp data = true).

(** The requests of one call of a handler: none, or the recent query
    followed by [g] GraphQL pages and then [p] pages of the public API, all
    for [username]. *)
Definition Traffic (username : jsval) (recentQuery : query) (news : list request) : Prop :=
  news = []
  \/ exists g p,
       g <= maxPages /\ p <= maxPages
       /\ news = PostGraphQL recentQuery
                 :: map (historyRequest username) (seq 0 g)
                 ++ map (publicRequest username) (seq 0 p).


(** The four statuses the handlers answer with. *)
Definition knownStatus (code : Z) : Prop :=
  code = 200%Z \/ code = 400%Z \/ code = 405%Z \/ code = 500%Z.

(** A platform scripted by request: the recent list [entries], GraphQL pages
    by offset, and pages of the public API by offset. *)
Definition scripted (entries : list jsval) (graphql public : Z -> reply) : upstream :=
  fun _ rq =>
    match rq with
    | PostGraphQL (recentAccepted _) | PostGraphQL (recentSolved _) =>
        Response 200
          (Json (JObj [("data", JObj [("recentAcSubmissionList", JArr entries);
                                      ("recentSubmissionList", JArr entries)])]))
    | PostGraphQL (submissionList offset _ _) => graphql offset
    | GetSubmissions _ offset _ => public offset
    end.

(** An accepted submission as either source reports it. *)
Definition acceptedItem (slug : string) : jsval :=
  JObj [("titleSlug", JStr slug); ("title_slug", JStr slug);
        ("statusDisplay", JStr "Accepted"); ("status_display", JStr "Accepted")].

(** A platform whose history has one page with [slug] on it. *)
Definition onePage (slug : string) : Z -> reply :=
  fun _ => Response 200 (Json (graphqlPage (JBool false) [acceptedItem slug])).

Definition onePublicPage (slug : string) : Z -> reply :=
  fun _ => Response 200 (Json (publicPage (JBool false) [acceptedItem slug])).

(** A platform whose history answers the first page and fails on the next. *)
Definition secondPageFails (slug : string) : Z -> reply :=
  fun offset =>
    if (offset =? 0)%Z
    then Response 200 (Json (graphqlPage (JBool true) [acceptedItem slug]))
    else Response 502 Blank.

Definition refused : Z -> reply := fun _ => Response 403 Blank.

(** A history of two pages: the first holds [first] and says that more
    follow, the second holds [second] and is the last. *)
Definition twoPages (first second : string) : Z -> reply :=
  fun offset =>
    if (offset =? 0)%Z
    then Response 200 (Json (graphqlPage (JBool true) [acceptedItem first]))
    else Response 200 (Json (graphqlPage (JBool false) [acceptedItem second])).


(** The same username asked in the old way and in the richer way. *)
Definition aliceLegacy : HttpRequest := post [("username", JStr "alice")].

(** * Properties *)

(** ** Strings *)

Lemma trimStart_first s c :
  firstChar (trimStart s) = Some c -> isWhite c = false.
Proof.
  induction s as [|a s IH]; simpl; [discriminate|].
  destruct (isWhite a) eqn:Ha; [exact IH|].
  simpl. intros [= <-]. exact Ha.
Qed.

Lemma trimEnd_first s c :
  firstChar s = Some c -> isWhite c = false -> firstChar (trimEnd s) = Some c.
Proof.
  destruct s as [|a s]; simpl; [discriminate|].
  intros [= ->] Hc. destruct (trimEnd s); [rewrite Hc|]; reflexivity.
Qed.

Lemma trimEnd_last s c :
  lastChar (trimEnd s) = Some c -> isWhite c = false.
Proof.
  induction s as [|a s IH]; simpl; [discriminate|].
  destruct (trimEnd s) as [|b t] eqn:Ht.
  - destruct (isWhite a) eqn:Ha; simpl; [discriminate|].
    intros [= <-]. exact Ha.
  - intros H. apply IH. exact H.
Qed.

Lemma trimEnd_first_inv s c :
  firstChar (trimEnd s) = Some c -> firstChar s = Some c.
Proof.
  destruct s as [|a s]; simpl; [discriminate|].
  destruct (trimEnd s); [destruct (isWhite a)|]; simpl; congruence.
Qed.

Lemma trim_noOuterSpace s : noOuterSpace (trim s) = true.
Proof.
  unfold noOuterSpace, trim.
  destruct (firstChar (trimEnd (trimStart s))) as [a|] eqn:Ha; [|reflexivity].
  destruct (lastChar (trimEnd (trimStart s))) as [b|] eqn:Hb; [|reflexivity].
  apply trimEnd_first_inv, trimStart_first in Ha.
  apply trimEnd_last in Hb. rewrite Ha, Hb. reflexivity.
Qed.

Lemma trimStart_fixed s :
  match firstChar s with Some c => isWhite c = false | None => True end ->
  trimStart s = s.
Proof.
  destruct s as [|a s]; simpl; [reflexivity|]. intros ->. reflexivity.
Qed.

Lemma trimEnd_idem s : trimEnd (trimEnd s) = trimEnd s.
Proof.
  induction s as [|a s IH]; simpl; [reflexivity|].
  destruct (trimEnd s) as [|b t] eqn:Ht.
  - destruct (isWhite a) eqn:Ha; simpl; [reflexivity|]. rewrite Ha. reflexivity.
  - simpl in IH |- *. destruct (trimEnd t) as [|b' t'] eqn:Ht'.
    + destruct (isWhite b); [discriminate|]. congruence.
    + rewrite IH. reflexivity.
Qed.

Lemma trim_idem s : trim (trim s) = trim s.
Proof.
  unfold trim at 1.
  rewrite (trimStart_fixed (trim s)).
  - apply trimEnd_idem.
  - unfold trim. destruct (firstChar (trimEnd (trimStart s))) as [c|] eqn:Hc; [|exact I].
    apply trimEnd_first_inv, trimStart_first in Hc. exact Hc.
Qed.

Lemma trimEnd_fixed s :
  match lastChar s with Some c => isWhite c = false | None => True end ->
  trimEnd s = s.
Proof.
  induction s as [|a s IH]; simpl; [reflexivity|].
  destruct s as [|b t].
  - simpl. intros ->. reflexivity.
  - intros H. rewrite (IH H). reflexivity.
Qed.

(** A string with no white space at either end is its own trim. *)
Lemma trim_fixed s : noOuterSpace s = true -> trim s = s.
Proof.
  unfold noOuterSpace, trim. intros H.
  destruct s as [|a t]; [reflexivity|].
  assert (Hlast : exists b, lastChar (String a t) = Some b).
  { clear H. revert a. induction t as [|c t IH]; intros a; simpl; [eauto|].
    destruct (IH c) as [b Hb]. exists b. exact Hb. }
  destruct Hlast as [b Hb]. rewrite Hb in H. simpl firstChar in H.
  apply andb_true_iff in H as [Ha Hw]. apply negb_true_iff in Ha, Hw.
  rewrite trimStart_fixed by (simpl; exact Ha).
  apply trimEnd_fixed. rewrite Hb. exact Hw.
Qed.

Lemma nonEmpty_true s : nonEmpty s = true <-> s <> "".
Proof.
  unfold nonEmpty. rewrite negb_true_iff. split.
  - intros H ->. discriminate.
  - intros H. apply String.eqb_neq. exact H.
Qed.

Lemma eqb_false s t : s <> t -> (s =? t) = false.
Proof. apply String.eqb_neq. Qed.

Lemma isExactly_true v s : isExactly v s = true <-> v = JStr s.
Proof.
  destruct v; simpl; try (split; [discriminate|intros [=]]).
  rewrite String.eqb_eq. split; [congruence|intros [= ->]; reflexivity].
Qed.

Lemma ToString_orElse_str s : ToString (orElse (JStr s) (JStr "")) = s.
Proof.
  unfold orElse. simpl. destruct (s =? "") eqn:E; simpl; [|reflexivity].
  apply String.eqb_eq in E. congruence.
Qed.

Lemma slugText_trimmed s : slugText (JStr (trim s)) = trim s.
Proof. unfold slugText. rewrite ToString_orElse_str. apply trim_idem. Qed.

(** ** Sets in insertion order *)

Lemma elem_of_Set_add (s : list string) x y : y ∈ Set_add s x <-> y ∈ s \/ y = x.
Proof.
  unfold Set_add. destruct (decide (x ∈ s)) as [Hx|Hx].
  - split; [auto|]. intros [H| ->]; assumption.
  - rewrite elem_of_app, list_elem_of_singleton. reflexivity.
Qed.

Lemma NoDup_Set_add (s : list string) x : NoDup s -> NoDup (Set_add s x).
Proof.
  intros Hs. unfold Set_add. destruct (decide (x ∈ s)) as [Hx|Hx]; [exact Hs|].
  apply NoDup_app. split; [exact Hs|]. split.
  - intros y Hy Hy'. apply list_elem_of_singleton in Hy'. subst. contradiction.
  - apply NoDup_singleton.
Qed.

Section Folding.

Context {A : Type} (add : list string -> A -> list string).

(** A loop body that only ever adds to the set keeps it duplicate free. *)
Lemma NoDup_fold_left (l : list A) (s : list string) :
  (forall acc a, NoDup acc -> NoDup (add acc a)) ->
  NoDup s -> NoDup (fold_left add l s).
Proof.
  intros Hadd. revert s. induction l as [|a l IH]; simpl; intros s Hs; [exact Hs|].
  apply IH, Hadd, Hs.
Qed.

(** What a fold adds, when each step adds at most one element [pick a]. *)
Lemma elem_of_fold_left (pick : A -> option string) (l : list A) (s : list string) y :
  (forall acc a z, z ∈ add acc a <-> z ∈ acc \/ pick a = Some z) ->
  y ∈ fold_left add l s <-> y ∈ s \/ exists a, a ∈ l /\ pick a = Some y.
Proof.
  intros Hadd. revert s. induction l as [|a l IH]; simpl; intros s.
  - split; [auto|]. intros [H|[a [Ha _]]]; [exact H|]. inversion Ha.
  - rewrite IH, Hadd. split.
    + intros [[H|H]|[b [Hb Hp]]]; [auto| |].
      * right. exists a. split; [left|exact H].
      * right. exists b. split; [right; exact Hb|exact Hp].
    + intros [H|[b [Hb Hp]]]; [auto|].
      apply elem_of_cons in Hb as [->|Hb]; [auto|].
      right. exists b. auto.
Qed.

End Folding.

Lemma NoDup_Set_from l : NoDup (Set_from l).
Proof.
  apply NoDup_fold_left; [intros; apply NoDup_Set_add; assumption|apply NoDup_nil_2].
Qed.

Lemma elem_of_Set_from l y : y ∈ Set_from l <-> y ∈ l.
Proof.
  unfold Set_from. rewrite (elem_of_fold_left Set_add Some).
  - split.
    + intros [H|[a [Ha [= ->]]]]; [inversion H|exact Ha].
    + intros H. right. exists y. auto.
  - intros acc a z. rewrite elem_of_Set_add. split; intros [H|H]; auto.
    + right. congruence.
    + right. congruence.
Qed.

Lemma fold_Set_add_fresh l s : NoDup (s ++ l) -> fold_left Set_add l s = s ++ l.
Proof.
  revert s. induction l as [|x l IH]; simpl; intros s H.
  - rewrite app_nil_r. reflexivity.
  - assert (Hx : x ∉ s).
    { apply NoDup_app in H as (_ & H & _). intros Hin. apply (H x Hin). left. }
    unfold Set_add at 2. destruct (decide (x ∈ s)); [contradiction|].
    rewrite IH; rewrite <- app_assoc; [reflexivity|exact H].
Qed.

Lemma Set_from_NoDup l : NoDup l -> Set_from l = l.
Proof. intros H. unfold Set_from. rewrite fold_Set_add_fresh; [reflexivity|exact H]. Qed.

(** ** The slug deduplication helper *)

Lemma elem_of_dedupeSlugs l x :
  x ∈ dedupeSlugs (JArr l) <-> x <> "" /\ exists v, v ∈ l /\ slugText v = x.
Proof.
  unfold dedupeSlugs. simpl. rewrite elem_of_Set_from, list_elem_of_In, filter_In.
  rewrite nonEmpty_true, in_map_iff. split.
  - intros [(v & Hv & Hin) Hx]. split; [exact Hx|].
    exists v. rewrite list_elem_of_In. auto.
  - intros [Hx (v & Hin & Hv)]. split; [|exact Hx].
    exists v. rewrite <- list_elem_of_In. auto.
Qed.

Lemma NoDup_dedupeSlugs v : NoDup (dedupeSlugs v).
Proof. apply NoDup_Set_from. Qed.

Lemma filter_all {A} (f : A -> bool) (l : list A) :
  (forall x, x ∈ l -> f x = true) -> List.filter f l = l.
Proof.
  induction l as [|a l IH]; simpl; intros H; [reflexivity|].
  rewrite (H a) by left. rewrite IH; [reflexivity|].
  intros x Hx. apply H. right. exact Hx.
Qed.

Lemma map_fixed {A} (f : A -> A) (l : list A) :
  (forall x, x ∈ l -> f x = x) -> map f l = l.
Proof.
  induction l as [|a l IH]; simpl; intros H; [reflexivity|].
  rewrite (H a) by left. rewrite IH; [reflexivity|].
  intros x Hx. apply H. right. exact Hx.
Qed.

(** Slugs that are already clean and distinct pass through unchanged. *)
Lemma dedupeSlugs_clean (l : list string) :
  NoDup l -> (forall x, x ∈ l -> x <> "" /\ trim x = x) ->
  dedupeSlugs (JArr (map JStr l)) = l.
Proof.
  intros Hnd Hclean. unfold dedupeSlugs. simpl.
  rewrite map_map.
  rewrite (map_ext_in _ (fun x => x)), map_id.
  - rewrite filter_all; [apply Set_from_NoDup, Hnd|].
    intros x Hx. apply nonEmpty_true, Hclean, Hx.
  - intros x Hx. apply list_elem_of_In in Hx.
    rewrite ToString_orElse_str. apply Hclean, Hx.
Qed.


(** On strings, the entries are trimmed and the empty ones dropped. *)
Corollary dedupeSlugs_strings (l : list string) x :
  x ∈ dedupeSlugs (JArr (map JStr l)) <-> x <> "" /\ exists s, s ∈ l /\ trim s = x.
Proof.
  rewrite elem_of_dedupeSlugs. split; intros [Hx H]; (split; [exact Hx|]).
  - destruct H as (v & Hv & Ht). apply list_elem_of_fmap in Hv as (s & -> & Hs).
    exists s. split; [exact Hs|]. unfold slugText in Ht.
    rewrite ToString_orElse_str in Ht. exact Ht.
  - destruct H as (s & Hs & Ht). exists (JStr s). split.
    + apply list_elem_of_fmap. exists s. auto.
    + unfold slugText. rewrite ToString_orElse_str. exact Ht.
Qed.


(** ** The recent fetcher *)

Lemma timeOf_seconds r : timeOf r = Fin (seconds r).
Proof.
  unfold timeOf, seconds, orElse. destruct (timestamp r) as [|z]; simpl; [reflexivity|].
  destruct (z =? 0)%Z eqn:E; simpl; [|reflexivity].
  apply Z.eqb_eq in E. congruence.
Qed.

Lemma staysBefore_spec a b : staysBefore a b = (seconds b <=? seconds a)%Z.
Proof.
  unfold staysBefore, compareFn. rewrite !timeOf_seconds. simpl.
  apply eq_true_iff_eq. rewrite !Z.leb_le. lia.
Qed.

Lemma keepLatest_eq m item :
  keepLatest m item =
  match slugOf item with
  | None => m
  | Some s =>
      if match Map_get m s with
         | None => true
         | Some existing => numGt (stampOf item) (timeOf existing)
         end
      then Map_set m s (recordOf item s)
      else m
  end.
Proof.
  unfold keepLatest, slugOf.
  destruct (truthy (optProp item "titleSlug")); simpl; [|reflexivity].
  destruct (nonEmpty (trim (ToString (getProp item "titleSlug")))); reflexivity.
Qed.

Lemma Map_get_set m k v k' :
  Map_get (Map_set m k v) k' = if k' =? k then Some v else Map_get m k'.
Proof.
  induction m as [|[a b] m IH]; simpl; [reflexivity|].
  destruct (k =? a) eqn:E; simpl.
  - apply String.eqb_eq in E. subst a. destruct (k' =? k); reflexivity.
  - rewrite IH. destruct (k' =? a) eqn:E'; [|reflexivity].
    apply String.eqb_eq in E'. subst a. rewrite String.eqb_sym, E. reflexivity.
Qed.

Lemma Map_get_elem m k v : Map_get m k = Some v -> (k, v) ∈ m.
Proof.
  induction m as [|[a b] m IH]; simpl; [discriminate|].
  destruct (k =? a) eqn:E.
  - apply String.eqb_eq in E. intros [= ->]. subst. left.
  - intros H. right. apply IH, H.
Qed.

Lemma elem_of_Map_set m k v e : e ∈ Map_set m k v -> e = (k, v) \/ e ∈ m.
Proof.
  induction m as [|[a b] m IH]; simpl.
  - intros H. apply list_elem_of_singleton in H. auto.
  - destruct (k =? a).
    + intros H. apply elem_of_cons in H as [H|H]; [auto|]. right. right. exact H.
    + intros H. apply elem_of_cons in H as [H|H]; [right; subst; left|].
      destruct (IH H) as [H'|H']; [auto|]. right. right. exact H'.
Qed.

Lemma keys_Map_set m k v x :
  x ∈ map fst (Map_set m k v) <-> x = k \/ x ∈ map fst m.
Proof.
  induction m as [|[a b] m IH]; simpl.
  - rewrite list_elem_of_singleton. split; [auto|]. intros [H|H]; [exact H|inversion H].
  - destruct (k =? a) eqn:E; simpl.
    + apply String.eqb_eq in E. subst a. rewrite !elem_of_cons. tauto.
    + rewrite !elem_of_cons, IH. tauto.
Qed.

Lemma NoDup_Map_set m k v : NoDup (map fst m) -> NoDup (map fst (Map_set m k v)).
Proof.
  induction m as [|[a b] m IH]; simpl; intros H.
  - apply NoDup_singleton.
  - apply NoDup_cons in H as [Ha Hm]. destruct (k =? a) eqn:E; simpl.
    + apply String.eqb_eq in E. subst a. apply NoDup_cons. auto.
    + apply NoDup_cons. split; [|apply IH, Hm].
      rewrite keys_Map_set. intros [->|H]; [|contradiction].
      rewrite String.eqb_refl in E. discriminate.
Qed.

Lemma seconds_recordOf item s t :
  stampOf item = Fin t -> seconds (recordOf item s) = t.
Proof. unfold seconds, recordOf. simpl. intros ->. reflexivity. Qed.

Lemma numGt_Fin a e :
  numGt a (timeOf e) = true -> exists z, a = Fin z /\ (seconds e < z)%Z.
Proof.
  rewrite timeOf_seconds. destruct a as [|z]; simpl; [discriminate|].
  intros H. exists z. split; [reflexivity|]. apply Z.ltb_lt, H.
Qed.

Lemma Latest_replaced m seen item s :
  Latest m seen -> slugOf item = Some s ->
  (forall e, Map_get m s = Some e -> exists z, stampOf item = Fin z /\ (seconds e < z)%Z) ->
  Latest (Map_set m s (recordOf item s)) (seen ++ [item]).
Proof.
  intros (Hnd & Hfrom & Hmax) Hs Hnew. split; [|split].
  - apply NoDup_Map_set, Hnd.
  - intros k r Hin. apply elem_of_Map_set in Hin as [[= -> ->]|Hin].
    + exists item. split; [|auto]. apply elem_of_app. right. left.
    + destruct (Hfrom k r Hin) as (it & Hit & H). exists it. split; [|exact H].
      apply elem_of_app. left. exact Hit.
  - intros it s' Hit Hs'. rewrite Map_get_set.
    apply elem_of_app in Hit as [Hit|Hit].
    + destruct (Hmax it s' Hit Hs') as (r & Hr & Hle).
      destruct (s' =? s) eqn:E; [|exists r; auto].
      apply String.eqb_eq in E. subst s'.
      destruct (Hnew r Hr) as (z & Hz & Hlt).
      eexists. split; [reflexivity|]. intros t Ht.
      rewrite (seconds_recordOf item s z Hz). specialize (Hle t Ht). lia.
    + apply list_elem_of_singleton in Hit. subst it.
      assert (s' = s) by congruence. subst s'. rewrite String.eqb_refl.
      eexists. split; [reflexivity|]. intros t Ht.
      rewrite (seconds_recordOf item s t Ht). lia.
Qed.

Lemma Latest_kept m seen item :
  Latest m seen ->
  (forall s, slugOf item = Some s ->
     exists e, Map_get m s = Some e /\ numGt (stampOf item) (timeOf e) = false) ->
  Latest m (seen ++ [item]).
Proof.
  intros (Hnd & Hfrom & Hmax) Hold. split; [exact Hnd|split].
  - intros k r Hin. destruct (Hfrom k r Hin) as (it & Hit & H).
    exists it. split; [|exact H]. apply elem_of_app. left. exact Hit.
  - intros it s Hit Hs. apply elem_of_app in Hit as [Hit|Hit]; [eauto|].
    apply list_elem_of_singleton in Hit. subst it.
    destruct (Hold s Hs) as (e & He & Hgt). exists e. split; [exact He|].
    intros t Ht. rewrite Ht, timeOf_seconds in Hgt. simpl in Hgt.
    apply Z.ltb_ge in Hgt. exact Hgt.
Qed.

Lemma Latest_step m seen item :
  Latest m seen -> Latest (keepLatest m item) (seen ++ [item]).
Proof.
  intros H. rewrite keepLatest_eq. destruct (slugOf item) as [s|] eqn:Hs.
  - destruct (Map_get m s) as [e|] eqn:Hg.
    + destruct (numGt (stampOf item) (timeOf e)) eqn:Hgt.
      * apply Latest_replaced; [exact H|exact Hs|].
        intros e' He'. assert (e' = e) by congruence. subst e'.
        apply numGt_Fin, Hgt.
      * apply Latest_kept; [exact H|].
        intros s' Hs'. assert (s' = s) by congruence. subst s'. eauto.
    + apply Latest_replaced; [exact H|exact Hs|]. intros e He. congruence.
  - apply Latest_kept; [exact H|]. intros s Hs'. congruence.
Qed.

Lemma Latest_fold entries m seen :
  Latest m seen -> Latest (fold_left keepLatest entries m) (seen ++ entries).
Proof.
  revert m seen. induction entries as [|item entries IH]; simpl; intros m seen H.
  - rewrite app_nil_r. exact H.
  - replace (seen ++ item :: entries) with ((seen ++ [item]) ++ entries)
      by (rewrite <- app_assoc; reflexivity).
    apply IH, Latest_step, H.
Qed.

Lemma Latest_all entries : Latest (fold_left keepLatest entries []) entries.
Proof.
  apply (Latest_fold entries [] []). split; [apply NoDup_nil_2|].
  split; [intros k r H; inversion H|intros item s H; inversion H].
Qed.

(** *** Sorting *)

Lemma insertSorted_perm a l : insertSorted a l ≡ₚ a :: l.
Proof.
  induction l as [|b l IH]; simpl; [reflexivity|].
  destruct (staysBefore a b); [reflexivity|].
  rewrite IH. apply perm_swap.
Qed.

Lemma Array_sort_perm l : Array_sort l ≡ₚ l.
Proof.
  induction l as [|a l IH]; simpl; [reflexivity|].
  rewrite insertSorted_perm, IH. reflexivity.
Qed.

Lemma insertSorted_sorted a l :
  StronglySorted newerFirst l -> StronglySorted newerFirst (insertSorted a l).
Proof.
  induction l as [|b l IH]; simpl; intros H.
  - constructor; constructor.
  - rewrite staysBefore_spec. destruct (seconds b <=? seconds a)%Z eqn:E.
    + apply Z.leb_le in E. constructor; [exact H|].
      constructor; [exact E|].
      apply StronglySorted_inv in H as [_ Hb].
      eapply Forall_impl; [exact Hb|]. unfold newerFirst. intros c Hc. lia.
    + apply Z.leb_gt in E. apply StronglySorted_inv in H as [Hl Hb].
      constructor; [apply IH, Hl|].
      rewrite insertSorted_perm. constructor; [unfold newerFirst; lia|exact Hb].
Qed.

Lemma Array_sort_sorted l : StronglySorted newerFirst (Array_sort l).
Proof.
  induction l as [|a l IH]; simpl; [constructor|]. apply insertSorted_sorted, IH.
Qed.

Lemma recentOf_LatestPerSlug entries : LatestPerSlug entries (recentOf entries).
Proof.
  destruct (Latest_all entries) as (Hnd & Hfrom & Hmax).
  set (m := fold_left keepLatest entries []) in *.
  assert (Hin : forall r, r ∈ recentOf entries <-> exists k, (k, r) ∈ m).
  { intros r. unfold recentOf. fold m. rewrite Array_sort_perm.
    unfold Map_values. rewrite list_elem_of_fmap. split.
    - intros ([k r'] & -> & H). exists k. exact H.
    - intros (k & H). exists (k, r). auto. }
  assert (Hkey : forall k r, (k, r) ∈ m -> titleSlug r = k).
  { intros k r H. destruct (Hfrom k r H) as (it & _ & _ & ->). reflexivity. }
  split; [|split; [|split]].
  - unfold recentOf. fold m. rewrite Array_sort_perm.
    unfold Map_values. rewrite map_map.
    rewrite (map_ext_in _ fst); [exact Hnd|].
    intros [k r] H. simpl. apply Hkey, list_elem_of_In, H.
  - intros r Hr. apply Hin in Hr as (k & Hk).
    rewrite (Hkey k r Hk). apply Hfrom, Hk.
  - intros item s Hitem Hs. destruct (Hmax item s Hitem Hs) as (r & Hr & Hle).
    apply Map_get_elem in Hr. exists r. split; [apply Hin; eauto|].
    split; [apply (Hkey s r Hr)|exact Hle].
  - apply Array_sort_sorted.
Qed.

(** *** The records of the output *)

Lemma slugOf_clean item s : slugOf item = Some s -> clean s.
Proof.
  unfold slugOf. destruct (truthy (optProp item "titleSlug")); simpl; [|discriminate].
  destruct (nonEmpty (trim (ToString (getProp item "titleSlug")))) eqn:E; [|discriminate].
  intros [= <-]. split; [apply nonEmpty_true, E|apply trim_noOuterSpace].
Qed.

Lemma recordOf_title item s : s <> "" -> truthy (title (recordOf item s)) = true.
Proof.
  intros Hs. unfold recordOf, orElse. simpl.
  destruct (truthy (getProp item "title")) eqn:E; [exact E|].
  simpl. rewrite (eqb_false _ _ Hs). reflexivity.
Qed.

Lemma recentOf_records entries r :
  r ∈ recentOf entries ->
  clean (titleSlug r) /\ truthy (title r) = true
  /\ exists item, item ∈ entries /\ timestamp r = stampOf item.
Proof.
  intros Hr. destruct (recentOf_LatestPerSlug entries) as (_ & Hfrom & _).
  destruct (Hfrom r Hr) as (item & Hitem & Hslug & Hrec).
  pose proof (slugOf_clean _ _ Hslug) as Hclean.
  split; [exact Hclean|]. split.
  - rewrite Hrec. apply recordOf_title, Hclean.
  - exists item. split; [exact Hitem|]. rewrite Hrec. reflexivity.
Qed.

Lemma slugs_of_recent entries :
  NoDup (map titleSlug (recentOf entries))
  /\ forall x, x ∈ map titleSlug (recentOf entries) -> x <> "" /\ trim x = x.
Proof.
  split; [apply recentOf_LatestPerSlug|].
  intros x Hx. apply list_elem_of_fmap in Hx as (r & -> & Hr).
  destruct (recentOf_records entries r Hr) as ([Hne Htrim] & _).
  split; [exact Hne|apply trim_fixed, Htrim].
Qed.

Lemma dedupe_of_recent entries :
  dedupeSlugs (slugsOf (recentOf entries)) = map titleSlug (recentOf entries).
Proof.
  unfold slugsOf.
  rewrite <- (map_map titleSlug JStr).
  destruct (slugs_of_recent entries) as [Hnd Hclean].
  apply dedupeSlugs_clean; assumption.
Qed.

(** ** The GraphQL helper *)

Lemma FetchSolved_PostsOnce : PostsOnce FetchSolved.graphqlRequest FetchSolved.graphqlResult.
Proof.
  intros payload u tr.
  unfold FetchSolved.graphqlRequest, FetchSolved.graphqlResult, bind, fetch.
  destruct (u tr (PostGraphQL payload)) as [e|st b]; [reflexivity|].
  unfold response_json, ok. simpl. destruct b as [|reason|json]; try reflexivity.
  unfold ret, throw.
  destruct (negb ((200 <=? st)%Z && (st <=? 299)%Z)); [reflexivity|].
  destruct (truthy (optProp (optProp json "errors") "length")); reflexivity.
Qed.

Lemma Part000_PostsOnce : PostsOnce Part000.graphqlRequest Part000.graphqlResult.
Proof.
  intros payload u tr.
  unfold Part000.graphqlRequest, Part000.graphqlResult, bind, fetch.
  destruct (u tr (PostGraphQL payload)) as [e|st b]; [reflexivity|].
  unfold ok. simpl. destruct b as [|reason|json]; unfold ret, throw; simpl;
    try reflexivity.
  - destruct (negb ((200 <=? st)%Z && (st <=? 299)%Z)); reflexivity.
  - destruct (negb ((200 <=? st)%Z && (st <=? 299)%Z)); [reflexivity|].
    destruct (isArray (optProp json "errors")
              && (0 <? length (arrayOrEmpty (getProp json "errors")))%nat); reflexivity.
Qed.

Lemma succeeded_spec st :
  negb ((200 <=? st)%Z && (st <=? 299)%Z) = false <-> succeeded st.
Proof.
  unfold succeeded. rewrite negb_false_iff, andb_true_iff, !Z.leb_le. reflexivity.
Qed.

(** *** The recent fetcher, end to end *)

Lemma fetchRecent_result graphqlRequest result payload field u tr :
  PostsOnce graphqlRequest result ->
  fetchRecent graphqlRequest payload field u tr
  = (recentResult result field (u tr (PostGraphQL payload)),
     tr ++ [Fetch (PostGraphQL payload) (u tr (PostGraphQL payload))]).
Proof.
  intros H. unfold fetchRecent, bind, recentResult. rewrite H.
  destruct (result (u tr (PostGraphQL payload))) as [e|data]; [reflexivity|].
  destruct (existsb keepLatestThrows _); reflexivity.
Qed.


Lemma solved_reads slug ts :
  clean slug -> slugOf (solved slug ts) = Some slug /\ stampOf (solved slug ts) = Fin ts.
Proof.
  intros [Hne Htrim]. split.
  - unfold slugOf. simpl. rewrite (eqb_false _ _ Hne), (trim_fixed _ Htrim). simpl.
    unfold nonEmpty. rewrite (eqb_false _ _ Hne). reflexivity.
  - unfold stampOf, orElse. simpl. destruct (ts =? 0)%Z eqn:E; simpl; [|reflexivity].
    apply Z.eqb_eq in E. congruence.
Qed.

(** C3: whatever list the platform sends, the recent fetcher returns one
    record per slug, built from an entry of that slug, with a timestamp no
    lower than that of any entry of the slug, in descending order of
    timestamp; an entry [{titleSlug: s, timestamp: t}] with a clean [s] and an
    integer [t] is read as slug [s] at time [t]; both files post one query
    and return [recentOf] of the list they read from the reply (or throw, on
    a reply they cannot read or an entry they cannot convert); and on the
    list of the specification the output is the two records it names. *)
Theorem recent_fetcher_latest_per_slug :
  (forall entries, LatestPerSlug entries (recentOf entries))
  /\ (forall slug ts,
        clean slug ->
        slugOf (solved slug ts) = Some slug /\ stampOf (solved slug ts) = Fin ts)
  /\ (forall username u tr,
        let rq := PostGraphQL (recentAccepted username) in
        FetchSolved.fetchRecentAcceptedSubmissions username u tr
        = (recentResult FetchSolved.graphqlResult "recentAcSubmissionList" (u tr rq),
           tr ++ [Fetch rq (u tr rq)]))
  /\ (forall username u tr,
        let rq := PostGraphQL (recentSolved username) in
        Part000.fetchRecentSubmissions username u tr
        = (recentResult Part000.graphqlResult "recentSubmissionList" (u tr rq),
           tr ++ [Fetch rq (u tr rq)]))
  /\ recentOf [solved "a" 1; solved "a" 5; solved "b" 2]
     = [ {| title := JStr "a"; titleSlug := "a"; timestamp := Fin 5 |};
         {| title := JStr "b"; titleSlug := "b"; timestamp := Fin 2 |} ].
Proof.
  split; [apply recentOf_LatestPerSlug|].
  split; [apply solved_reads|].
  split; [intros; apply fetchRecent_result, FetchSolved_PostsOnce|].
  split; [intros; apply fetchRecent_result, Part000_PostsOnce|].
  reflexivity.
Qed.

Lemma recent_fetcher_latest_per_slug_witness :
  NoDup (map titleSlug (recentOf [solved "a" 1; solved "a" 5; solved "b" 2])).
Proof.
  exact (proj1 (proj1 recent_fetcher_latest_per_slug
                  [solved "a" 1; solved "a" 5; solved "b" 2])).
Defined.

(** The same list behind a real reply of the platform, through either file. *)
Example recent_fetcher_on_reply :
  let data := JObj [("recentAcSubmissionList", JArr [solved "a" 1; solved "a" 5; solved "b" 2]);
                    ("recentSubmissionList", JArr [solved " b" 2; solved "a" 5])] in
  let u := always (Response 200 (Json (JObj [("data", data)]))) in
  fst (FetchSolved.fetchRecentAcceptedSubmissions (JStr "alice") u [])
  = inr [ {| title := JStr "a"; titleSlug := "a"; timestamp := Fin 5 |};
          {| title := JStr "b"; titleSlug := "b"; timestamp := Fin 2 |} ]
  /\ fst (Part000.fetchRecentSubmissions (JStr "alice") u [])
     = inr [ {| title := JStr "a"; titleSlug := "a"; timestamp := Fin 5 |};
             {| title := JStr "b"; titleSlug := "b"; timestamp := Fin 2 |} ].
Proof. split; reflexivity. Qed.

(** *** When the helper throws *)

Lemma optProp_array json k errs : optProp json k = JArr errs -> getProp json k = JArr errs.
Proof. destruct json; simpl; congruence. Qed.

Lemma Part000_errors json :
  isArray (optProp json "errors")
  && (0 <? length (arrayOrEmpty (getProp json "errors")))%nat = true
  <-> exists errs, optProp json "errors" = JArr errs /\ errs <> [].
Proof.
  split.
  - intros H. apply andb_true_iff in H as [Harr Hlen].
    destruct (optProp json "errors") as [| | | | |errs|] eqn:E; try discriminate.
    exists errs. split; [reflexivity|].
    rewrite (optProp_array _ _ _ E) in Hlen. simpl in Hlen.
    intros ->. discriminate.
  - intros (errs & E & Hne). rewrite (optProp_array _ _ _ E), E. simpl.
    destruct errs; [contradiction|reflexivity].
Qed.

Lemma not_succeeded st :
  negb ((200 <=? st)%Z && (st <=? 299)%Z) = true <-> ~ succeeded st.
Proof.
  rewrite <- succeeded_spec. destruct (negb ((200 <=? st)%Z && (st <=? 299)%Z)).
  - split; [discriminate|reflexivity].
  - split; [discriminate|]. intros H. contradiction H. reflexivity.
Qed.

Lemma Part000_result_fails st b :
  (exists e, Part000.graphqlResult (Response st b) = inl e)
  <-> ~ succeeded st
      \/ (exists reason, b = Malformed reason)
      \/ (exists json errs, b = Json json /\ optProp json "errors" = JArr errs /\ errs <> []).
Proof.
  unfold Part000.graphqlResult.
  destruct b as [|reason|json]; simpl.
  - destruct (negb ((200 <=? st)%Z && (st <=? 299)%Z)) eqn:Hst.
    + apply not_succeeded in Hst. split; [auto|eauto].
    + apply succeeded_spec in Hst. split.
      * intros [e He]. discriminate.
      * intros [H|[[r H]|(j & errs & H & _)]]; [contradiction|discriminate|discriminate].
  - split; [|eauto]. intros _. right. left. eauto.
  - destruct (negb ((200 <=? st)%Z && (st <=? 299)%Z)) eqn:Hst.
    + apply not_succeeded in Hst. split; [auto|eauto].
    + apply succeeded_spec in Hst.
      destruct (isArray (optProp json "errors")
                && (0 <? length (arrayOrEmpty (getProp json "errors")))%nat) eqn:Herr.
      * split; [|eauto]. intros _. right. right.
        apply Part000_errors in Herr as (errs & H1 & H2). eauto.
      * split; [intros [e He]; discriminate|].
        intros [H|[[r H]|(j & errs & [= <-] & H1 & H2)]];
          [contradiction|discriminate|].
        assert (Ht : isArray (optProp json "errors")
                     && (0 <? length (arrayOrEmpty (getProp json "errors")))%nat = true)
          by (apply Part000_errors; eauto).
        congruence.
Qed.

Lemma Part000_result_data rp data :
  Part000.graphqlResult rp = inr data ->
  exists st b json, rp = Response st b /\ succeeded st /\ Part000.parsed b = Some json
                    /\ data = orElse (optProp json "data") emptyObject.
Proof.
  unfold Part000.graphqlResult. destruct rp as [e|st b]; [discriminate|].
  destruct (Part000.parsed b) as [json|] eqn:Hp; [|discriminate].
  destruct (negb ((200 <=? st)%Z && (st <=? 299)%Z)) eqn:Hst; [discriminate|].
  apply succeeded_spec in Hst.
  destruct (isArray (optProp json "errors")
            && (0 <? length (arrayOrEmpty (getProp json "errors")))%nat); [discriminate|].
  intros [= <-]. exists st, b, json. auto.
Qed.

Lemma FetchSolved_result_fails st b :
  (exists e, FetchSolved.graphqlResult (Response st b) = inl e)
  <-> ~ succeeded st
      \/ b = Blank
      \/ (exists reason, b = Malformed reason)
      \/ (exists json, b = Json json
                       /\ truthy (optProp (optProp json "errors") "length") = true).
Proof.
  unfold FetchSolved.graphqlResult.
  destruct b as [|reason|json].
  - split; [auto|eauto].
  - split; [|eauto]. intros _. right. right. left. eauto.
  - destruct (negb ((200 <=? st)%Z && (st <=? 299)%Z)) eqn:Hst.
    + apply not_succeeded in Hst. split; [auto|eauto].
    + apply succeeded_spec in Hst.
      destruct (truthy (optProp (optProp json "errors") "length")) eqn:Hlen.
      * split; [|eauto]. intros _. right. right. right. eauto.
      * split; [intros [e He]; discriminate|].
        intros [H|[H|[[r H]|(j & [= <-] & H1)]]];
          [contradiction|discriminate|discriminate|congruence].
Qed.

Lemma FetchSolved_result_data rp data :
  FetchSolved.graphqlResult rp = inr data ->
  exists st json, rp = Response st (Json json) /\ succeeded st
                  /\ data = orElse (optProp json "data") emptyObject.
Proof.
  unfold FetchSolved.graphqlResult. destruct rp as [e|st b]; [discriminate|].
  destruct b as [|reason|json]; try discriminate.
  destruct (negb ((200 <=? st)%Z && (st <=? 299)%Z)) eqn:Hst; [discriminate|].
  apply succeeded_spec in Hst.
  destruct (truthy (optProp (optProp json "errors") "length")); [discriminate|].
  intros [= <-]. exists st, json. auto.
Qed.

(** C8, as the code has it.  On a reply with status [st] and body [b]:
    the helper of part_000 throws exactly when the status is outside 2xx, or
    the body is non-empty text that is not JSON, or the parsed body has a
    non-empty [errors] array; an empty body is read as [{}].  The helper of
    fetchSolved.js throws exactly when the status is outside 2xx, or the body
    is empty or not JSON, or [errors] has a truthy [length].  Otherwise
    either returns [json.data || {}]. *)
Theorem graphqlRequest_failure_conditions payload u tr st b :
  u tr (PostGraphQL payload) = Response st b ->
  ((exists e, fst (Part000.graphqlRequest payload u tr) = inl e)
     <-> ~ succeeded st
         \/ (exists reason, b = Malformed reason)
         \/ (exists json errs, b = Json json /\ optProp json "errors" = JArr errs /\ errs <> []))
  /\ (forall data, fst (Part000.graphqlRequest payload u tr) = inr data ->
        exists json, Part000.parsed b = Some json
                     /\ data = orElse (optProp json "data") emptyObject)
  /\ ((exists e, fst (FetchSolved.graphqlRequest payload u tr) = inl e)
        <-> ~ succeeded st
            \/ b = Blank
            \/ (exists reason, b = Malformed reason)
            \/ (exists json, b = Json json
                             /\ truthy (optProp (optProp json "errors") "length") = true))
  /\ (forall data, fst (FetchSolved.graphqlRequest payload u tr) = inr data ->
        exists json, b = Json json /\ data = orElse (optProp json "data") emptyObject).
Proof.
  intros Hrp. rewrite Part000_PostsOnce, FetchSolved_PostsOnce, Hrp. cbn [fst].
  split; [apply Part000_result_fails|].
  split.
  { intros data H. apply Part000_result_data in H as (st' & b' & json & [= <- <-] & _ & H).
    exists json. exact H. }
  split; [apply FetchSolved_result_fails|].
  intros data H. apply FetchSolved_result_data in H as (st' & json & [= <- ->] & _ & H).
  exists json. auto.
Qed.

Lemma graphqlRequest_failure_conditions_witness :
  exists e,
    fst (Part000.graphqlRequest (recentSolved (JStr "alice"))
           (always (Response 404 (Json JNull))) []) = inl e.
Proof.
  apply (graphqlRequest_failure_conditions (recentSolved (JStr "alice"))
           (always (Response 404 (Json JNull))) [] 404 (Json JNull) eq_refl).
  left. unfold succeeded. lia.
Defined.

(** C8 as the specification words it fails twice.  An empty body is not
    JSON ([response.json()] rejects it), yet the helper of part_000 reads it
    as [{}] and returns; and the helper of fetchSolved.js throws on an
    [errors] that is a string, not an array. *)
Lemma graphqlRequest_empty_body_not_a_failure :
  fst (response_json {| status := 200; raw := Blank |} (always (Response 200 Blank)) [])
  = inl (Error unexpectedEnd)
  /\ fst (Part000.graphqlRequest (recentSolved (JStr "alice"))
            (always (Response 200 Blank)) []) = inr emptyObject
  /\ fst (FetchSolved.graphqlRequest (recentAccepted (JStr "alice"))
            (always (Response 200 (Json (JObj [("errors", JStr "blocked")])))) [])
     = inl (Error "LeetCode GraphQL returned errors").
Proof. repeat split. Qed.

(** ** The pagination loops *)

Lemma addAccepted_eq acc submission :
  addAccepted acc submission
  = match acceptedSlug submission with Some x => Set_add acc x | None => acc end.
Proof.
  unfold addAccepted, acceptedSlug.
  destruct (truthy (optProp submission "titleSlug")); simpl; [|reflexivity].
  destruct (isExactly (getProp submission "statusDisplay") "Accepted"); reflexivity.
Qed.

Lemma addAcceptedPublic_eq acc submission :
  addAcceptedPublic acc submission
  = match acceptedSlugPublic submission with Some x => Set_add acc x | None => acc end.
Proof.
  unfold addAcceptedPublic, acceptedSlugPublic.
  destruct (truthy submission); simpl.
  - destruct (getProp submission "title_slug"); simpl; try reflexivity.
    destruct (nonEmpty (trim s)); simpl; [|reflexivity].
    destruct (isExactly _ "Accepted"); reflexivity.
  - destruct (getProp submission "title_slug"); reflexivity.
Qed.

Lemma elem_of_addAccepted acc a z :
  z ∈ addAccepted acc a <-> z ∈ acc \/ acceptedSlug a = Some z.
Proof.
  rewrite addAccepted_eq. destruct (acceptedSlug a) as [x|].
  - rewrite elem_of_Set_add. split; intros [H|H]; auto; right; congruence.
  - split; [auto|]. intros [H|H]; [exact H|discriminate].
Qed.

Lemma NoDup_addAccepted acc a : NoDup acc -> NoDup (addAccepted acc a).
Proof.
  rewrite addAccepted_eq. destruct (acceptedSlug a); [apply NoDup_Set_add|auto].
Qed.

Lemma elem_of_addAcceptedPublic acc a z :
  z ∈ addAcceptedPublic acc a <-> z ∈ acc \/ acceptedSlugPublic a = Some z.
Proof.
  rewrite addAcceptedPublic_eq. destruct (acceptedSlugPublic a) as [x|].
  - rewrite elem_of_Set_add. split; intros [H|H]; auto; right; congruence.
  - split; [auto|]. intros [H|H]; [exact H|discriminate].
Qed.

Lemma NoDup_addAcceptedPublic acc a : NoDup acc -> NoDup (addAcceptedPublic acc a).
Proof.
  rewrite addAcceptedPublic_eq. destruct (acceptedSlugPublic a); [apply NoDup_Set_add|auto].
Qed.

Lemma acceptedSlugPublic_clean a x : acceptedSlugPublic a = Some x -> clean x.
Proof.
  unfold acceptedSlugPublic. destruct (getProp a "title_slug"); try discriminate.
  destruct (truthy a); simpl; [|discriminate].
  destruct (nonEmpty (trim s)) eqn:E; simpl; [|discriminate].
  destruct (isExactly _ "Accepted"); [|discriminate].
  intros [= <-]. split; [apply nonEmpty_true, E|apply trim_noOuterSpace].
Qed.

Lemma acceptedSlug_trimmed a x : acceptedSlug a = Some x -> noOuterSpace x = true.
Proof.
  unfold acceptedSlug. destruct (_ && _); [|discriminate].
  intros [= <-]. apply trim_noOuterSpace.
Qed.

Lemma exchanges_cons request_at rp replies :
  exchanges request_at (rp :: replies)
  = Fetch (request_at 0) rp :: exchanges (fun k => request_at (S k)) replies.
Proof. reflexivity. Qed.

Lemma exchanges_ext f g replies :
  (forall k, f k = g k) -> exchanges f replies = exchanges g replies.
Proof.
  intros H. unfold exchanges. apply imap_ext. intros k rp _. rewrite H. reflexivity.
Qed.

Lemma NoDup_List_filter {A} (f : A -> bool) (l : list A) :
  NoDup l -> NoDup (List.filter f l).
Proof.
  induction 1 as [|x l Hx Hl IH]; simpl; [constructor|].
  destruct (f x); [|exact IH]. constructor; [|exact IH].
  rewrite list_elem_of_In, filter_In, <- list_elem_of_In. tauto.
Qed.

(** *** A loop of pages, in general *)

Lemma last_cons_cons {A} (x y : A) l : last (x :: y :: l) = last (y :: l).
Proof. reflexivity. Qed.

Section PagedLoop.

(** A loop of the shape both fetchers have: when it is [ready] to build its
    request, one request per iteration, a throw on a reply it cannot [read],
    a fold over the page, a [break] on [lastp]. *)
Variable loop : nat -> Z -> list string -> M (list string).
Variable mk : Z -> request.
Variable ready : bool.
Variable read : reply -> exn + jsval.
Variable subs : jsval -> list jsval.
Variable lastp : jsval -> bool.
Variable add : list string -> jsval -> list string.
Variable pick : jsval -> option string.

Hypothesis loop_0 : forall offset accepted u tr,
  loop 0 offset accepted u tr = (inr accepted, tr).
Hypothesis loop_S : forall n offset accepted u tr,
  loop (S n) offset accepted u tr
  = if ready
    then let rq := mk offset in
         let tr1 := tr ++ [Fetch rq (u tr rq)] in
         match read (u tr rq) with
         | inl e => (inl e, tr1)
         | inr data =>
             let accepted' := fold_left add (subs data) accepted in
             if lastp data then (inr accepted', tr1)
             else loop n (offset + pageSize)%Z accepted' u tr1
         end
    else (inl conversionError, tr).
Hypothesis add_elem : forall acc a z, z ∈ add acc a <-> z ∈ acc \/ pick a = Some z.
Hypothesis add_NoDup : forall acc a, NoDup acc -> NoDup (add acc a).

Lemma paged_run n :
  forall start accepted u tr, exists replies,
    snd (loop n (pageSize * Z.of_nat start)%Z accepted u tr)
    = tr ++ exchanges (fun k => mk (pageSize * Z.of_nat (start + k))%Z) replies
    /\ PagedRun u tr (fun k => mk (pageSize * Z.of_nat (start + k))%Z)
         ready read subs lastp pick n accepted replies
         (fst (loop n (pageSize * Z.of_nat start)%Z accepted u tr)).
Proof.
  induction n as [|n IH]; intros start accepted u tr.
  - exists []. rewrite loop_0. simpl. rewrite app_nil_r. split; [reflexivity|].
    split; [simpl; lia|]. split; [intros k rp H; inversion H|].
    split; [split; auto|]. split; [intros k rp H; inversion H|]. split.
    + intros e. split; [discriminate|].
      intros [(_ & H & _)|(rp & H & _)]; [lia|discriminate].
    + intros out [= <-]. split; [left; reflexivity|]. split; [auto|].
      intros x. split; [auto|]. intros [H|(rp & _ & _ & H & _)]; [exact H|inversion H].
  - rewrite loop_S. specialize (IH (S start)). revert IH.
    generalize ready as b. intros [|] IH.
    2:{ exists []. simpl. rewrite app_nil_r. split; [reflexivity|].
        split; [simpl; lia|]. split; [intros k rp H; inversion H|].
        split; [split; auto|]. split; [intros k rp H; inversion H|]. split.
        - intros e. split.
          + intros [= <-]. left. split; [reflexivity|]. split; [lia|reflexivity].
          + intros [(_ & _ & ->)|(rp & H & _)]; [reflexivity|discriminate].
        - intros out H. discriminate. }
    cbv zeta.
    set (rq := mk (pageSize * Z.of_nat start)%Z).
    assert (Hrq : mk (pageSize * Z.of_nat (start + 0))%Z = rq).
    { unfold rq. rewrite Nat.add_0_r. reflexivity. }
    assert (Hone : forall k rp,
               [u tr rq] !! k = Some rp ->
               rp = u (tr ++ exchanges (fun k => mk (pageSize * Z.of_nat (start + k))%Z)
                                (take k [u tr rq]))
                      (mk (pageSize * Z.of_nat (start + k))%Z)).
    { intros [|k] rp; simpl; [|intros H; inversion H].
      intros [= <-]. rewrite app_nil_r, Hrq. reflexivity. }
    assert (Hsome : [u tr rq] = [] <-> S n = 0 \/ true = false).
    { split; [discriminate|]. intros [H|H]; discriminate. }
    destruct (read (u tr rq)) as [e|data] eqn:Hres.
    + exists [u tr rq]. rewrite exchanges_cons, Hrq. simpl.
      split; [reflexivity|]. split; [simpl; lia|]. split; [exact Hone|].
      split; [exact Hsome|]. split.
      { intros [|k] rp; simpl; intros H Hk; [lia|inversion H]. }
      split.
      { intros e'. split.
        - intros [= <-]. right. exists (u tr rq). auto.
        - intros [(H & _)|(rp & [= <-] & H)]; [discriminate|congruence]. }
      intros out H. discriminate.
    + destruct (lastp data) eqn:Hlast.
      * exists [u tr rq]. rewrite exchanges_cons, Hrq. simpl.
        split; [reflexivity|]. split; [simpl; lia|]. split; [exact Hone|].
        split; [exact Hsome|]. split.
        { intros [|k] rp; simpl; intros H Hk; [lia|inversion H]. }
        split.
        { intros e'. split; [discriminate|].
          intros [(H & _)|(rp & [= <-] & H)]; [discriminate|congruence]. }
        intros out [= <-]. split; [right; exists (u tr rq), data; auto|]. split.
        { apply NoDup_fold_left. exact add_NoDup. }
        intros x. rewrite (elem_of_fold_left add pick) by exact add_elem. split.
        { intros [H|(sub & Hin & Hs)]; [auto|].
          right. exists (u tr rq), data, sub. split; [left|auto]. }
        intros [H|(rp & d & sub & Hrp & Hd & Hin & Hs)]; [auto|].
        apply list_elem_of_singleton in Hrp. subst rp.
        assert (d = data) by congruence. subst d. right. exists sub. auto.
      * replace (pageSize * Z.of_nat start + pageSize)%Z
          with (pageSize * Z.of_nat (S start))%Z by lia.
        destruct (IH (fold_left add (subs data) accepted) u
                    (tr ++ [Fetch rq (u tr rq)]))
          as (replies & Htr & Hlen & Htie & Hnone & Hmore & Hthrow & Hret).
        assert (Hext : forall l,
                   exchanges (fun k => mk (pageSize * Z.of_nat (start + S k))%Z) l
                   = exchanges (fun k => mk (pageSize * Z.of_nat (S start + k))%Z) l).
        { intros l. apply exchanges_ext. intros k. f_equal. lia. }
        exists (u tr rq :: replies). rewrite exchanges_cons, Hrq, Htr.
        split.
        { rewrite <- app_assoc. simpl. f_equal. f_equal.
          apply exchanges_ext. intros k. f_equal. lia. }
        split; [simpl; lia|]. split.
        { intros [|k] rp.
          - simpl. intros [= <-]. rewrite app_nil_r, Hrq. reflexivity.
          - intros Hk. change ((u tr rq :: replies) !! S k) with (replies !! k) in Hk.
            rewrite (Htie k rp Hk).
            change (take (S k) (u tr rq :: replies)) with (u tr rq :: take k replies).
            rewrite exchanges_cons, Hrq, Hext, <- app_assoc. simpl.
            f_equal. f_equal. lia. }
        split; [split; [discriminate|intros [H|H]; discriminate]|]. split.
        { intros [|k] rp; simpl.
          - intros [= <-] _. exists data. auto.
          - intros Hk Hlt. apply (Hmore k rp Hk). lia. }
        split.
        { intros e. rewrite Hthrow. destruct replies as [|rp1 replies].
          - simpl. split.
            + intros [(H & _)|(rp & H & _)]; discriminate.
            + intros [(H & _)|(rp & [= <-] & H)]; [discriminate|congruence].
          - rewrite last_cons_cons. split.
            + intros [(H & _)|H]; [discriminate|right; exact H].
            + intros [(H & _)|H]; [discriminate|right; exact H]. }
        intros out Hout. destruct (Hret out Hout) as (Hend & Hnd & Hin). split.
        { destruct Hend as [Hend|(rp & d & Hl & Hd & Hp)].
          - left. simpl. lia.
          - right. exists rp, d. split; [|auto].
            destruct replies as [|rp1 replies]; [discriminate|].
            rewrite last_cons_cons. exact Hl. }
        split.
        { intros Hacc. apply Hnd, NoDup_fold_left; [exact add_NoDup|exact Hacc]. }
        intros x. rewrite Hin, (elem_of_fold_left add pick) by exact add_elem. split.
        { intros [[H|(sub & Hs & Hp)]|(rp & d & sub & Hrp & H)]; [auto| |].
          - right. exists (u tr rq), data, sub. split; [left|auto].
          - right. exists rp, d, sub. split; [right; exact Hrp|exact H]. }
        intros [H|(rp & d & sub & Hrp & Hd & Hs & Hp)]; [auto|].
        apply elem_of_cons in Hrp as [->|Hrp].
        { assert (d = data) by congruence. subst d. left. right. exists sub. auto. }
        right. exists rp, d, sub. auto.
Qed.

End PagedLoop.

(** What follows from the account of a run. *)
Section Runs.

Context {u : upstream} {tr : list event} {request_at : nat -> request} {ready : bool}
  {read : reply -> exn + jsval} {subs : jsval -> list jsval} {lastp : jsval -> bool}
  {pick : jsval -> option string} {n : nat} {accepted : list string}
  {replies : list reply} {outcome : exn + list string}.

Hypothesis run :
  PagedRun u tr request_at ready read subs lastp pick n accepted replies outcome.

Lemma last_reply k rp :
  replies !! k = Some rp -> ~ S k < length replies -> last replies = Some rp.
Proof.
  intros Hk Hlast. assert (k < length replies) by (apply lookup_lt_Some in Hk; exact Hk).
  rewrite last_lookup. replace (pred (length replies)) with k by lia. exact Hk.
Qed.

(** A run that returns has read every page. *)
Lemma PagedRun_read out rp :
  outcome = inr out -> rp ∈ replies -> exists data, read rp = inr data.
Proof.
  destruct run as (_ & _ & _ & Hmore & Hthrow & _).
  intros Hout Hin. apply list_elem_of_lookup in Hin as [k Hk].
  destruct (decide (S k < length replies)) as [Hlt|Hlt].
  - destruct (Hmore k rp Hk Hlt) as (data & H & _). eauto.
  - destruct (read rp) as [e|data] eqn:Hread; [|eauto].
    assert (outcome = inl e).
    { apply Hthrow. right. exists rp. split; [apply (last_reply k), Hlt; exact Hk|exact Hread]. }
    congruence.
Qed.

(** The next page is asked for exactly when there is an iteration left and
    the page at hand was read and said that more follow. *)
Lemma PagedRun_next k rp :
  replies !! k = Some rp ->
  S k < length replies
  <-> S k < n /\ exists data, read rp = inr data /\ lastp data = false.
Proof.
  destruct run as (Hlen & _ & Hnone & Hmore & Hthrow & Hret).
  intros Hk. split.
  - intros Hlt. split; [lia|]. apply (Hmore k rp Hk Hlt).
  - intros (Hn & data & Hread & Hlast).
    destruct (decide (S k < length replies)) as [Hlt|Hlt]; [exact Hlt|].
    pose proof (last_reply k rp Hk Hlt) as Hl.
    assert (Hk' : k < length replies) by (apply lookup_lt_Some in Hk; exact Hk).
    destruct outcome as [e|out] eqn:Hout.
    + destruct (proj1 (Hthrow e) eq_refl) as [(Hr & _)|(rp' & Hl' & Hr)].
      * assert (replies = []) by (apply Hnone; right; exact Hr).
        subst replies. inversion Hk.
      * congruence.
    + destruct (Hret out eq_refl) as ([Hn'|(rp' & d & Hl' & Hr & Hp)] & _); [lia|].
      congruence.
Qed.

(** On a platform whose every page can be read and says that more follow,
    the run takes all its iterations and returns. *)
Lemma PagedRun_endless :
  ready = true ->
  (forall history k, exists data,
     read (u history (request_at k)) = inr data /\ lastp data = false) ->
  length replies = n /\ exists out, outcome = inr out.
Proof.
  destruct run as (Hlen & Htie & Hnone & Hmore & Hthrow & Hret).
  intros Hready Hall.
  assert (Hok : forall rp, last replies = Some rp ->
                  exists data, read rp = inr data /\ lastp data = false).
  { intros rp Hl. rewrite last_lookup in Hl.
    rewrite (Htie _ _ Hl). apply Hall. }
  destruct outcome as [e|out] eqn:Hout.
  - destruct (proj1 (Hthrow e) eq_refl) as [(Hr & _)|(rp & Hl & Hr)]; [congruence|].
    destruct (Hok rp Hl) as (data & Hd & _). congruence.
  - split; [|eauto].
    destruct (Hret out eq_refl) as ([Hn|(rp & d & Hl & Hr & Hp)] & _); [exact Hn|].
    destruct (Hok rp Hl) as (data & Hd & Hp'). congruence.
Qed.

End Runs.

(** *** The GraphQL loop *)

Lemma pageRead_inr result rp data :
  pageRead result rp = inr data
  <-> result rp = inr data /\ existsb addAcceptedThrows (submissionsOf data) = false.
Proof.
  unfold pageRead. destruct (result rp) as [e|d].
  - split; [discriminate|intros [H _]; discriminate].
  - destruct (existsb addAcceptedThrows (submissionsOf d)) eqn:E.
    + split; [discriminate|]. intros [[= ->] H]. congruence.
    + split; [intros [= <-]; auto|intros [[= ->] _]; reflexivity].
Qed.

Section GraphQLPages.

Variable graphqlRequest : query -> M jsval.
Variable result : reply -> exn + jsval.
Hypothesis posts : PostsOnce graphqlRequest result.

Lemma graphqlPages_step n username offset accepted u tr :
  graphqlPages graphqlRequest (S n) username offset accepted u tr
  = let rq := PostGraphQL (submissionList offset pageSize username) in
    let tr1 := tr ++ [Fetch rq (u tr rq)] in
    match pageRead result (u tr rq) with
    | inl e => (inl e, tr1)
    | inr data =>
        let accepted' := fold_left addAccepted (submissionsOf data) accepted in
        if lastPage data then (inr accepted', tr1)
        else graphqlPages graphqlRequest n username (offset + pageSize)%Z accepted' u tr1
    end.
Proof.
  simpl. unfold bind, pageRead. rewrite posts.
  destruct (result (u tr (PostGraphQL (submissionList offset pageSize username))))
    as [e|data]; [reflexivity|].
  unfold lastPage, submissionsOf.
  destruct (existsb addAcceptedThrows _); [reflexivity|].
  destruct (negb _ || _); reflexivity.
Qed.

(** One run of the loop. *)
Lemma graphqlPages_paged username n :
  forall accepted u tr, exists replies,
    snd (graphqlPages graphqlRequest n username 0%Z accepted u tr)
    = tr ++ exchanges (historyRequest username) replies
    /\ PagedRun u tr (historyRequest username) true (pageRead result)
         submissionsOf lastPage acceptedSlug n accepted replies
         (fst (graphqlPages graphqlRequest n username 0%Z accepted u tr)).
Proof.
  intros accepted u tr.
  destruct (paged_run
              (fun n offset accepted => graphqlPages graphqlRequest n username offset accepted)
              (fun offset => PostGraphQL (submissionList offset pageSize username))
              true (pageRead result) submissionsOf lastPage addAccepted acceptedSlug
              (fun _ _ _ _ => eq_refl)
              (fun n offset accepted u tr =>
                 graphqlPages_step n username offset accepted u tr)
              elem_of_addAccepted NoDup_addAccepted n 0 accepted u tr)
    as (replies & Htr & Hrun).
  exists replies. split; [exact Htr|exact Hrun].
Qed.

Lemma fetchAllGraphQL_unfold username u tr :
  fetchAllGraphQL graphqlRequest username u tr
  = match graphqlPages graphqlRequest maxPages username 0%Z [] u tr with
    | (inl e, tr') => (inl e, tr')
    | (inr accepted, tr') => (inr (List.filter nonEmpty accepted), tr')
    end.
Proof. reflexivity. Qed.

(** What the fetcher returns, from what the loop returns. *)
Lemma fetchAllGraphQL_output username u tr replies out :
  PagedRun u tr (historyRequest username) true (pageRead result)
    submissionsOf lastPage acceptedSlug maxPages [] replies
    (fst (graphqlPages graphqlRequest maxPages username 0%Z [] u tr)) ->
  fst (fetchAllGraphQL graphqlRequest username u tr) = inr out ->
  NoDup out /\ forall x, x ∈ out <-> x <> "" /\ acceptedOn result replies x.
Proof.
  intros Hrun. rewrite fetchAllGraphQL_unfold.
  pose proof (fun o rp => PagedRun_read Hrun o rp) as Hread.
  destruct Hrun as (_ & _ & _ & _ & _ & Hret).
  destruct (graphqlPages graphqlRequest maxPages username 0 [] u tr) as [[e|acc] tr'];
    simpl in *; [discriminate|].
  intros [= <-]. destruct (Hret acc eq_refl) as (_ & Hnd & Hin). split.
  - apply NoDup_List_filter, Hnd, NoDup_nil_2.
  - intros x. rewrite list_elem_of_In, filter_In, <- list_elem_of_In, Hin.
    rewrite nonEmpty_true. unfold acceptedOn. split.
    + intros [[H|(rp & data & sub & Hrp & Hd & H)] Hx]; [inversion H|].
      split; [exact Hx|]. apply pageRead_inr in Hd as [Hd _].
      exists rp, data, sub. auto.
    + intros [Hx (rp & data & sub & Hrp & Hd & H)]. split; [|exact Hx].
      right. destruct (Hread acc rp eq_refl Hrp) as (d & Hd').
      pose proof Hd' as Hd''. apply pageRead_inr in Hd'' as [Hd'' _].
      assert (d = data) by congruence. subst d.
      exists rp, data, sub. auto.
Qed.

Lemma fetchAllGraphQL_paged : PagedHistory (fetchAllGraphQL graphqlRequest) result.
Proof.
  intros username u tr.
  destruct (graphqlPages_paged username maxPages [] u tr) as (replies & Htr & Hrun).
  exists replies. split.
  { rewrite fetchAllGraphQL_unfold.
    destruct (graphqlPages graphqlRequest maxPages username 0 [] u tr) as [[e|acc] tr'];
      exact Htr. }
  split; [apply (proj1 Hrun)|]. split.
  - intros k rp data Hk Hres Hlast.
    assert (Hlt : k < length replies) by (apply lookup_lt_Some in Hk; exact Hk).
    destruct (decide (S k < length replies)) as [Hs|Hs]; [|lia].
    apply (PagedRun_next Hrun k rp Hk) in Hs as (_ & d & Hd & Hl).
    apply pageRead_inr in Hd as [Hd _]. congruence.
  - intros out. apply (fetchAllGraphQL_output username u tr replies out Hrun).
Qed.

Lemma fetchAllGraphQL_history : GraphQLHistory (fetchAllGraphQL graphqlRequest) result.
Proof.
  intros username u tr.
  destruct (graphqlPages_paged username maxPages [] u tr) as (replies & Htr & Hrun).
  exists replies.
  assert (Hfst : forall e,
             fst (fetchAllGraphQL graphqlRequest username u tr) = inl e
             <-> fst (graphqlPages graphqlRequest maxPages username 0%Z [] u tr) = inl e).
  { intros e. rewrite fetchAllGraphQL_unfold.
    destruct (graphqlPages graphqlRequest maxPages username 0 [] u tr) as [[e'|acc] tr'];
      simpl; split; congruence. }
  split.
  { rewrite fetchAllGraphQL_unfold.
    destruct (graphqlPages graphqlRequest maxPages username 0 [] u tr) as [[e|acc] tr'];
      exact Htr. }
  split.
  { split; [|apply (proj1 Hrun)]. destruct Hrun as (_ & _ & Hnone & _).
    destruct replies; [|simpl; lia].
    destruct (proj1 Hnone eq_refl); discriminate. }
  split; [apply (proj1 (proj2 Hrun))|]. split; [apply (PagedRun_next Hrun)|]. split.
  - intros e. rewrite Hfst. destruct Hrun as (_ & _ & _ & _ & Hthrow & _).
    rewrite Hthrow. split; [|auto]. intros [(H & _)|H]; [discriminate|exact H].
  - intros out. apply (fetchAllGraphQL_output username u tr replies out Hrun).
Qed.

(** Under a platform that always has more, the fetcher takes its 500
    iterations. *)
Lemma fetchAllGraphQL_full username u tr :
  (forall history offset, exists data,
     pageRead result (u history (PostGraphQL (submissionList offset pageSize username)))
     = inr data /\ lastPage data = false) ->
  FullRun (fetchAllGraphQL graphqlRequest username u tr) tr (historyRequest username)
    (fun replies x => x <> "" /\ acceptedOn result replies x).
Proof.
  intros Hall.
  destruct (graphqlPages_paged username maxPages [] u tr) as (replies & Htr & Hrun).
  destruct (PagedRun_endless Hrun eq_refl) as (Hlen & acc & Hacc).
  { intros history k. apply Hall. }
  pose proof (fetchAllGraphQL_output username u tr replies) as Hout.
  specialize (Hout (List.filter nonEmpty acc) Hrun).
  rewrite fetchAllGraphQL_unfold in *.
  destruct (graphqlPages graphqlRequest maxPages username 0 [] u tr) as [[e|acc'] tr'];
    simpl in *; [discriminate|].
  injection Hacc as ->. destruct (Hout eq_refl) as [Hnd Hin].
  exists (List.filter nonEmpty acc), replies. rewrite Htr. auto.
Qed.

End GraphQLPages.

Lemma acceptedSlug_spec submission x :
  acceptedSlug submission = Some x
  <-> truthy (optProp submission "titleSlug") = true
      /\ getProp submission "statusDisplay" = JStr "Accepted"
      /\ x = trim (ToString (getProp submission "titleSlug")).
Proof.
  unfold acceptedSlug. destruct (truthy (optProp submission "titleSlug")); simpl.
  2:{ split; [discriminate|intros (H & _); discriminate]. }
  destruct (isExactly (getProp submission "statusDisplay") "Accepted") eqn:E.
  - apply isExactly_true in E. split.
    + intros [= <-]. auto.
    + intros (_ & _ & ->). reflexivity.
  - split; [discriminate|]. intros (_ & H & _). apply isExactly_true in H. congruence.
Qed.

Lemma acceptedSlug_exact submission s x :
  getProp submission "titleSlug" = JStr s -> clean s ->
  acceptedSlug submission = Some x
  <-> getProp submission "statusDisplay" = JStr "Accepted" /\ x = s.
Proof.
  intros Hslug [Hne Htrim]. unfold acceptedSlug.
  assert (Hopt : optProp submission "titleSlug" = JStr s).
  { destruct submission; simpl in *; congruence. }
  rewrite Hopt, Hslug. simpl. rewrite (eqb_false _ _ Hne), (trim_fixed _ Htrim). simpl.
  destruct (isExactly (getProp submission "statusDisplay") "Accepted") eqn:E.
  - apply isExactly_true in E. split.
    + intros [= <-]. auto.
    + intros [_ ->]. reflexivity.
  - split; [discriminate|]. intros [H _]. apply isExactly_true in H. congruence.
Qed.

Lemma lastPage_spec data :
  lastPage data = true
  <-> truthy (optProp (optProp data "submissionList") "hasNext") = false
      \/ submissionsOf data = [].
Proof.
  unfold lastPage. rewrite orb_true_iff, negb_true_iff, Nat.eqb_eq.
  split; (intros [H|H]; [left; exact H|right]).
  - destruct (submissionsOf data); [reflexivity|discriminate].
  - rewrite H. reflexivity.
Qed.

(** C5, as the code has it.  In both files the GraphQL full-history fetcher
    asks for pages of 20 at offsets 0, 20, 40, ..., the first one always; it
    asks for the next page exactly when the page at hand was read, reported a
    next page, held at least one submission, and fewer than 500 pages were
    asked for; it throws exactly when the last page it asked for could not be
    read; and otherwise it returns, without duplicates, the non-empty slugs
    of the accepted submissions of the pages.  The slug of an accepted
    submission is the trimmed string form of a truthy [titleSlug] whose
    [statusDisplay] is the string [Accepted]; it is the [titleSlug] itself
    when that is a clean string. *)
Theorem graphql_history_pages_accepted :
  (forall username k,
     historyRequest username k
     = PostGraphQL (submissionList (20 * Z.of_nat k) 20 username))
  /\ maxPages = 500
  /\ GraphQLHistory FetchSolved.fetchAllAcceptedSlugs FetchSolved.graphqlResult
  /\ GraphQLHistory Part000.fetchAllAcceptedSlugsFromGraphQL Part000.graphqlResult
  /\ (forall submission x,
        acceptedSlug submission = Some x
        <-> truthy (optProp submission "titleSlug") = true
            /\ getProp submission "statusDisplay" = JStr "Accepted"
            /\ x = trim (ToString (getProp submission "titleSlug")))
  /\ (forall submission s x,
        getProp submission "titleSlug" = JStr s -> clean s ->
        acceptedSlug submission = Some x
        <-> getProp submission "statusDisplay" = JStr "Accepted" /\ x = s)
  /\ (forall data,
        lastPage data = true
        <-> truthy (optProp (optProp data "submissionList") "hasNext") = false
            \/ submissionsOf data = []).
Proof.
  split; [reflexivity|]. split; [reflexivity|].
  split; [apply fetchAllGraphQL_history, FetchSolved_PostsOnce|].
  split; [apply fetchAllGraphQL_history, Part000_PostsOnce|].
  split; [apply acceptedSlug_spec|].
  split; [apply acceptedSlug_exact|apply lastPage_spec].
Qed.

Lemma graphql_history_pages_accepted_witness :
  exists replies,
    snd (Part000.fetchAllAcceptedSlugsFromGraphQL (JStr "alice")
           (scripted [] (twoPages "two-sum" "lru-cache") refused) [])
    = [] ++ exchanges (historyRequest (JStr "alice")) replies
    /\ 1 <= length replies <= maxPages
    /\ forall out,
         fst (Part000.fetchAllAcceptedSlugsFromGraphQL (JStr "alice")
                (scripted [] (twoPages "two-sum" "lru-cache") refused) []) = inr out ->
         NoDup out
         /\ forall x, x ∈ out <-> x <> "" /\ acceptedOn Part000.graphqlResult replies x.
Proof.
  destruct (proj1 (proj2 (proj2 (proj2 graphql_history_pages_accepted))) (JStr "alice")
              (scripted [] (twoPages "two-sum" "lru-cache") refused) [])
    as (replies & Htrace & Hlen & _ & _ & _ & Hout).
  exists replies. split; [exact Htrace|]. split; [exact Hlen|exact Hout].
Defined.

(** C5 as the specification words it fails on slugs that are not clean
    strings: the set does not hold the [titleSlug] values but their trimmed
    string forms, and leaves out the one that trims to nothing. *)
Lemma graphql_history_normalises_slugs :
  let page := graphqlPage (JBool false)
                [JObj [("titleSlug", JStr " two-sum "); ("statusDisplay", JStr "Accepted")];
                 JObj [("titleSlug", JNum (Fin 42)); ("statusDisplay", JStr "Accepted")];
                 JObj [("titleSlug", JStr "   "); ("statusDisplay", JStr "Accepted")]] in
  let u := always (Response 200 (Json page)) in
  fst (FetchSolved.fetchAllAcceptedSlugs (JStr "alice") u []) = inr ["two-sum"; "42"]
  /\ fst (Part000.fetchAllAcceptedSlugsFromGraphQL (JStr "alice") u [])
     = inr ["two-sum"; "42"].
Proof. vm_compute. split; reflexivity. Qed.

(** One page of three submissions, of which one is accepted. *)
Example graphql_history_one_page :
  let page := graphqlPage (JBool false)
                [JObj [("titleSlug", JStr "two-sum"); ("statusDisplay", JStr "Accepted")];
                 JObj [("titleSlug", JStr "lru-cache"); ("statusDisplay", JStr "Wrong Answer")];
                 JObj [("titleSlug", JStr "3sum"); ("statusDisplay", JStr "accepted")]] in
  Part000.fetchAllAcceptedSlugsFromGraphQL (JStr "alice")
    (always (Response 200 (Json page))) []
  = (inr ["two-sum"],
     [Fetch (PostGraphQL (submissionList 0 20 (JStr "alice"))) (Response 200 (Json page))]).
Proof. vm_compute. reflexivity. Qed.

(** Two pages: the second is asked for because the first says that more
    follow, and ends the loop because it says that none does. *)
Example graphql_history_two_pages :
  Part000.fetchAllAcceptedSlugsFromGraphQL (JStr "alice")
    (scripted [] (twoPages "two-sum" "lru-cache") refused) []
  = (inr ["two-sum"; "lru-cache"],
     [Fetch (PostGraphQL (submissionList 0 20 (JStr "alice"))) (twoPages "two-sum" "lru-cache" 0);
      Fetch (PostGraphQL (submissionList 20 20 (JStr "alice")))
        (twoPages "two-sum" "lru-cache" 20)]).
Proof. vm_compute. reflexivity. Qed.

(** *** The public API loop *)

Lemma publicPages_step n username offset accepted u tr :
  publicPages (S n) username offset accepted u tr
  = if convertible username
    then let rq := GetSubmissions username offset pageSize in
         let tr1 := tr ++ [Fetch rq (u tr rq)] in
         match publicResult (u tr rq) with
         | inl e => (inl e, tr1)
         | inr data =>
             let accepted' := fold_left addAcceptedPublic (dumpOf data) accepted in
             if lastPublic data then (inr accepted', tr1)
             else publicPages n username (offset + pageSize)%Z accepted' u tr1
         end
    else (inl conversionError, tr).
Proof.
  simpl. destruct (convertible username); [|reflexivity].
  unfold bind, fetch, publicResult. cbn [negb].
  destruct (u tr (GetSubmissions username offset pageSize)) as [e|st b]; [reflexivity|].
  unfold ok. simpl.
  destruct (negb ((200 <=? st)%Z && (st <=? 299)%Z)); [reflexivity|].
  unfold response_json. simpl. destruct b as [|reason|data]; try reflexivity.
  unfold ret, lastPublic, dumpOf. destruct (negb _ || _); reflexivity.
Qed.

(** One run of the loop. *)
Lemma publicPages_paged username n :
  forall accepted u tr, exists replies,
    snd (publicPages n username 0%Z accepted u tr)
    = tr ++ exchanges (publicRequest username) replies
    /\ PagedRun u tr (publicRequest username) (convertible username) publicResult
         dumpOf lastPublic acceptedSlugPublic n accepted replies
         (fst (publicPages n username 0%Z accepted u tr)).
Proof.
  intros accepted u tr.
  destruct (paged_run
              (fun n offset accepted => publicPages n username offset accepted)
              (fun offset => GetSubmissions username offset pageSize)
              (convertible username) publicResult dumpOf lastPublic
              addAcceptedPublic acceptedSlugPublic
              (fun _ _ _ _ => eq_refl)
              (fun n offset accepted u tr =>
                 publicPages_step n username offset accepted u tr)
              elem_of_addAcceptedPublic NoDup_addAcceptedPublic n 0 accepted u tr)
    as (replies & Htr & Hrun).
  exists replies. split; [exact Htr|exact Hrun].
Qed.

(** Whatever the platform does, the public API loop returns clean, distinct
    slugs if it is given such. *)
Lemma publicPages_clean username n :
  forall offset accepted u tr out tr',
    publicPages n username offset accepted u tr = (inr out, tr') ->
    NoDup accepted -> Forall clean accepted ->
    NoDup out /\ Forall clean out.
Proof.
  induction n as [|n IH]; intros offset accepted u tr out tr'.
  - simpl. unfold ret. intros [= <- <-]. auto.
  - rewrite publicPages_step. destruct (convertible username); [|discriminate].
    cbv zeta. destruct (publicResult _) as [e|data]; [discriminate|].
    intros Hrun Hnd Hclean.
    assert (Hnd' : NoDup (fold_left addAcceptedPublic (dumpOf data) accepted)).
    { apply NoDup_fold_left; [|exact Hnd]. intros; apply NoDup_addAcceptedPublic; assumption. }
    assert (Hclean' : Forall clean (fold_left addAcceptedPublic (dumpOf data) accepted)).
    { apply Forall_forall. intros x Hx.
      apply (elem_of_fold_left addAcceptedPublic acceptedSlugPublic) in Hx;
        [|apply elem_of_addAcceptedPublic].
      destruct Hx as [Hx|(a & _ & Ha)].
      - rewrite Forall_forall in Hclean. apply Hclean, Hx.
      - apply (acceptedSlugPublic_clean a x Ha). }
    destruct (lastPublic data).
    + injection Hrun as <- <-. auto.
    + apply (IH _ _ _ _ _ _ Hrun Hnd' Hclean').
Qed.


(** *** Platforms that always have more *)

Lemma optProp_getProp v k : optProp v k = getProp v k.
Proof. destruct v; reflexivity. Qed.

Lemma getProp_object v k w :
  getProp v k = w -> w <> JUndefined -> (k =? "length") = false -> truthy v = true.
Proof.
  intros H Hw Hk. destruct v; simpl in *; try congruence; rewrite Hk in H; congruence.
Qed.

Lemma MorePage_data json submissions :
  getProp (getProp (getProp json "data") "submissionList") "hasNext" = JBool true ->
  getProp (getProp (getProp json "data") "submissionList") "submissions"
  = JArr submissions ->
  submissions <> [] ->
  let data := orElse (optProp json "data") emptyObject in
  submissionsOf data = submissions /\ lastPage data = false.
Proof.
  intros Hnext Hsubs Hne data.
  assert (Hpage : getProp (getProp json "data") "submissionList" <> JUndefined).
  { intros E. rewrite E in Hnext. discriminate. }
  assert (Hdata : truthy (getProp json "data") = true).
  { apply (getProp_object _ "submissionList" _ eq_refl Hpage). reflexivity. }
  assert (Hd : data = getProp json "data").
  { unfold data, orElse. rewrite optProp_getProp, Hdata. reflexivity. }
  assert (Hs : submissionsOf data = submissions).
  { unfold submissionsOf. rewrite Hd, !optProp_getProp, Hsubs. reflexivity. }
  split; [exact Hs|].
  unfold lastPage. rewrite Hs. rewrite Hd, !optProp_getProp, Hnext. simpl.
  destruct submissions; [contradiction|reflexivity].
Qed.

Lemma MorePage_FetchSolved rp submissions :
  MorePage rp submissions -> existsb addAcceptedThrows submissions = false ->
  exists data, pageRead FetchSolved.graphqlResult rp = inr data /\ lastPage data = false.
Proof.
  intros (st & json & -> & Hst & Herr & Hnext & Hsubs & Hne) Hconv.
  destruct (MorePage_data json submissions Hnext Hsubs Hne) as [Hs Hlast].
  exists (orElse (optProp json "data") emptyObject). split; [|exact Hlast].
  apply pageRead_inr. rewrite Hs. split; [|exact Hconv].
  unfold FetchSolved.graphqlResult. apply succeeded_spec in Hst.
  rewrite Hst, Herr. reflexivity.
Qed.

Lemma MorePage_Part000 rp submissions :
  MorePage rp submissions -> existsb addAcceptedThrows submissions = false ->
  exists data, pageRead Part000.graphqlResult rp = inr data /\ lastPage data = false.
Proof.
  intros (st & json & -> & Hst & Herr & Hnext & Hsubs & Hne) Hconv.
  destruct (MorePage_data json submissions Hnext Hsubs Hne) as [Hs Hlast].
  exists (orElse (optProp json "data") emptyObject). split; [|exact Hlast].
  apply pageRead_inr. rewrite Hs. split; [|exact Hconv].
  unfold Part000.graphqlResult. simpl. apply succeeded_spec in Hst. rewrite Hst.
  destruct (isArray (optProp json "errors")
            && (0 <? length (arrayOrEmpty (getProp json "errors")))%nat) eqn:E;
    [|reflexivity].
  apply Part000_errors in E as (errs & He & Hnil). rewrite He in Herr. simpl in Herr.
  destruct errs; [contradiction|discriminate].
Qed.

Lemma MorePublicPage_read rp submissions_dump :
  MorePublicPage rp submissions_dump ->
  exists data, publicResult rp = inr data /\ lastPublic data = false.
Proof.
  intros (st & data & -> & Hst & Hnext & Hdump & Hne).
  exists data. unfold publicResult. apply succeeded_spec in Hst. rewrite Hst.
  split; [reflexivity|].
  unfold lastPublic, dumpOf. rewrite !optProp_getProp, Hnext, Hdump. simpl.
  destruct submissions_dump; [contradiction|reflexivity].
Qed.

Lemma publicApi_full username u tr :
  convertible username = true ->
  AlwaysMorePublic u username ->
  FullRun (fetchAllAcceptedSlugsFromPublicApi username u tr) tr (publicRequest username)
    acceptedOnPublic.
Proof.
  intros Hready Hall.
  destruct (publicPages_paged username maxPages [] u tr) as (replies & Htr & Hrun).
  destruct (PagedRun_endless Hrun Hready) as (Hlen & out & Hout).
  { intros history k. destruct (Hall history (pageSize * Z.of_nat k)%Z) as (dump & H).
    apply (MorePublicPage_read _ dump H). }
  destruct Hrun as (_ & _ & _ & _ & _ & Hret).
  destruct (Hret out Hout) as (_ & Hnd & Hin).
  exists out, replies. unfold fetchAllAcceptedSlugsFromPublicApi in *.
  destruct (publicPages maxPages username 0 [] u tr) as [o tr']. simpl in *. subst.
  split; [reflexivity|]. split; [exact Hlen|]. split; [apply Hnd; constructor|].
  intros x. rewrite Hin. unfold acceptedOnPublic. split.
  - intros [H|H]; [inversion H|exact H].
  - intros H. right. exact H.
Qed.

(** C4, as the code has it.  When every page the platform serves reports
    that another follows and holds at least one submission, and no accepted
    submission has a slug that cannot be converted to a string, the GraphQL
    loop of either file sends exactly 500 requests, at offsets 0, 20, ...,
    and then returns its set: without duplicates, the non-empty slugs of the
    accepted submissions of the 500 pages.  The loop of the public API does
    the same for a username it can put in the address. *)
Theorem pagination_stops_at_500 (u : upstream) (username : jsval) (tr : list event) :
  (AlwaysMoreGraphQL u username ->
     FullRun (FetchSolved.fetchAllAcceptedSlugs username u tr) tr
       (historyRequest username)
       (fun replies x => x <> "" /\ acceptedOn FetchSolved.graphqlResult replies x)
     /\ FullRun (Part000.fetchAllAcceptedSlugsFromGraphQL username u tr) tr
          (historyRequest username)
          (fun replies x => x <> "" /\ acceptedOn Part000.graphqlResult replies x))
  /\ (AlwaysMorePublic u username ->
      convertible username = true ->
      FullRun (fetchAllAcceptedSlugsFromPublicApi username u tr) tr
        (publicRequest username) acceptedOnPublic).
Proof.
  split.
  - intros more. split.
    + apply (fetchAllGraphQL_full _ _ FetchSolved_PostsOnce).
      intros history offset. destruct (more history offset) as (subs & Hpage & Hconv).
      apply (MorePage_FetchSolved _ subs Hpage Hconv).
    + apply (fetchAllGraphQL_full _ _ Part000_PostsOnce).
      intros history offset. destruct (more history offset) as (subs & Hpage & Hconv).
      apply (MorePage_Part000 _ subs Hpage Hconv).
  - intros more Hready. apply publicApi_full; assumption.
Qed.

Lemma pagination_stops_at_500_witness :
  FullRun (FetchSolved.fetchAllAcceptedSlugs (JStr "alice")
             (endless (acceptedItem "two-sum")) []) []
    (historyRequest (JStr "alice"))
    (fun replies x => x <> "" /\ acceptedOn FetchSolved.graphqlResult replies x)
  /\ FullRun (fetchAllAcceptedSlugsFromPublicApi (JStr "alice")
                (endless (acceptedItem "two-sum")) []) []
       (publicRequest (JStr "alice")) acceptedOnPublic.
Proof.
  destruct (pagination_stops_at_500 (endless (acceptedItem "two-sum")) (JStr "alice") [])
    as [Hgraphql Hpublic].
  split.
  - apply Hgraphql. intros history offset. exists [acceptedItem "two-sum"].
    split; [|reflexivity].
    exists 200%Z, (graphqlPage (JBool true) [acceptedItem "two-sum"]).
    split; [reflexivity|]. split; [unfold succeeded; lia|].
    split; [reflexivity|]. split; [reflexivity|]. split; [reflexivity|discriminate].
  - apply Hpublic; [|reflexivity].
    intros history offset. exists [acceptedItem "two-sum"].
    exists 200%Z, (publicPage (JBool true) [acceptedItem "two-sum"]).
    split; [reflexivity|]. split; [unfold succeeded; lia|].
    split; [reflexivity|]. split; [reflexivity|discriminate].
Defined.

(** C4 as the specification words it fails when a conversion throws: every
    page reports a next page and holds one submission, yet the GraphQL loop
    stops at the first page, on the slug it cannot convert; and so does the
    loop of the public API, before its first request, on a username it
    cannot put in the address. *)
Lemma unconvertible_slug_ends_pagination :
  let u := endless unconvertibleItem in
  let page := Response 200 (Json (graphqlPage (JBool true) [unconvertibleItem])) in
  (forall history offset,
     MorePage (u history (PostGraphQL (submissionList offset pageSize (JStr "alice"))))
       [unconvertibleItem])
  /\ FetchSolved.fetchAllAcceptedSlugs (JStr "alice") u []
     = (inl conversionError, [Fetch (historyRequest (JStr "alice") 0) page])
  /\ Part000.fetchAllAcceptedSlugsFromGraphQL (JStr "alice") u []
     = (inl conversionError, [Fetch (historyRequest (JStr "alice") 0) page])
  /\ AlwaysMorePublic u unconvertible
  /\ fetchAllAcceptedSlugsFromPublicApi unconvertible u [] = (inl conversionError, []).
Proof.
  intros u page. split.
  { intros history offset.
    exists 200%Z, (graphqlPage (JBool true) [unconvertibleItem]).
    split; [reflexivity|]. split; [unfold succeeded; lia|].
    split; [reflexivity|]. split; [reflexivity|]. split; [reflexivity|discriminate]. }
  split; [reflexivity|]. split; [reflexivity|]. split; [|reflexivity].
  intros history offset. exists [unconvertibleItem].
  exists 200%Z, (publicPage (JBool true) [unconvertibleItem]).
  split; [reflexivity|]. split; [unfold succeeded; lia|].
  split; [reflexivity|]. split; [reflexivity|discriminate].
Qed.

(** Five hundred pages of the same accepted submission, through each loop. *)
Example endless_history_is_cut :
  let s := JObj [("titleSlug", JStr "two-sum"); ("title_slug", JStr "two-sum");
                 ("statusDisplay", JStr "Accepted")] in
  let run1 := Part000.fetchAllAcceptedSlugsFromGraphQL (JStr "alice") (endless s) [] in
  let run2 := fetchAllAcceptedSlugsFromPublicApi (JStr "alice") (endless s) [] in
  fst run1 = inr ["two-sum"] /\ length (snd run1) = 500
  /\ fst run2 = inr ["two-sum"] /\ length (snd run2) = 500
  /\ last (requests (snd run2)) = Some (GetSubmissions (JStr "alice") 9980 20).
Proof. vm_compute. repeat split. Qed.

(** ** The fallback chain *)

Section Chain.

Variable fetchFull : jsval -> M (list string).
Variables fullFailed publicFailed : string.
Variable username : jsval.
Variable recent : list Submission.

Let fromRecent : HttpResponse :=
  respond 200 (Some (aggregated "recent" recent (dedupeSlugs (slugsOf recent)))).

(** The second stage of [aggregate], entered with the trace [trA]. *)
Let publicStage (u : upstream) (trA : list event) : (exn + HttpResponse) * list event :=
  match fetchAllAcceptedSlugsFromPublicApi username u trA with
  | (inr (x :: all), tr2) =>
      (inr (respond 200 (Some (aggregated "full" recent (x :: all)))), tr2)
  | (inr [], tr2) => (inr fromRecent, tr2)
  | (inl e, tr2) => (inr fromRecent, tr2 ++ [ConsoleError [publicFailed; message e]])
  end.

Lemma aggregate_unfold u tr :
  aggregate fetchFull fullFailed publicFailed username recent u tr
  = match fetchFull username u tr with
    | (inr (x :: all), tr1) =>
        (inr (respond 200 (Some (aggregated "full" recent (x :: all)))), tr1)
    | (inr [], tr1) => publicStage u tr1
    | (inl e, tr1) => publicStage u (tr1 ++ [ConsoleError [fullFailed; message e]])
    end.
Proof.
  unfold aggregate, publicStage, fromRecent, bind, tryCatch, ret, console_error.
  destruct (fetchFull username u tr) as [[e|[|x all]] tr1]; simpl; try reflexivity.
  - destruct (fetchAllAcceptedSlugsFromPublicApi username u _) as [[e'|[|y all']] tr2];
      reflexivity.
  - destruct (fetchAllAcceptedSlugsFromPublicApi username u _) as [[e'|[|y all']] tr2];
      reflexivity.
Qed.

(** [aggregate] always answers 200 with the richer object. *)
Lemma aggregate_answers u tr :
  exists source all tr',
    aggregate fetchFull fullFailed publicFailed username recent u tr
    = (inr (respond 200 (Some (aggregated source recent all))), tr')
    /\ (source = "full" \/ source = "recent")
    /\ ((exists tr1, fetchFull username u tr = (inr all, tr1))
        \/ (exists trA, fetchAllAcceptedSlugsFromPublicApi username u trA = (inr all, tr'))
        \/ all = dedupeSlugs (slugsOf recent)).
Proof.
  rewrite aggregate_unfold. unfold publicStage, fromRecent.
  destruct (fetchFull username u tr) as [[e|[|x all]] tr1].
  - destruct (fetchAllAcceptedSlugsFromPublicApi username u _)
      as [[e'|[|y all']] tr2] eqn:Hp; eauto 10.
  - destruct (fetchAllAcceptedSlugsFromPublicApi username u _)
      as [[e'|[|y all']] tr2] eqn:Hp; eauto 10.
  - eauto 10.
Qed.


End Chain.

(** ** The handlers *)

Lemma tryCatch_returns {A} (c : M A) handle u tr a tr' :
  c u tr = (inr a, tr') -> tryCatch c handle u tr = (inr a, tr').
Proof. intros H. unfold tryCatch. rewrite H. reflexivity. Qed.

Lemma bodyField_getProp req : bodyField req "username" = getProp (body req) "username".
Proof.
  unfold bodyField, orElse. destruct (truthy (body req)) eqn:E; [reflexivity|].
  destruct (body req) as [| | | | | |]; try reflexivity; discriminate.
Qed.

(** The two flags of part_000 as the handler computes them. *)
Lemma wantsV2_true req :
  wantsV2 req ->
  isExactly (bodyField req "responseFormat") "v2"
  || match bodyField req "includeFullHistory" with JBool true => true | _ => false end
  = true.
Proof.
  intros [H|H]; rewrite H; [reflexivity|]. apply orb_true_r.
Qed.

Lemma Part000_handler_options req u tr :
  method req = "OPTIONS" -> Part000.handler req u tr = (inr (respond 200 None), tr).
Proof. intros H. unfold Part000.handler. rewrite H. reflexivity. Qed.

Lemma FetchSolved_handler_options req u tr :
  method req = "OPTIONS" -> FetchSolved.handler req u tr = (inr (respond 200 None), tr).
Proof. intros H. unfold FetchSolved.handler. rewrite H. reflexivity. Qed.

Lemma Part000_handler_other req u tr :
  method req <> "OPTIONS" -> method req <> "POST" ->
  Part000.handler req u tr
  = (inr (respond 405 (Some (errorBody "Only POST allowed"))), tr).
Proof.
  intros H1 H2. unfold Part000.handler.
  rewrite (eqb_false _ _ H1), (eqb_false _ _ H2). reflexivity.
Qed.

Lemma FetchSolved_handler_other req u tr :
  method req <> "OPTIONS" -> method req <> "POST" ->
  FetchSolved.handler req u tr
  = (inr (respond 405 (Some (errorBody "Only POST allowed"))), tr).
Proof.
  intros H1 H2. unfold FetchSolved.handler.
  rewrite (eqb_false _ _ H1), (eqb_false _ _ H2). reflexivity.
Qed.

(** part_000 on a [POST]: the validation of the username, then the fetches. *)
Lemma Part000_handler_post req u tr :
  method req = "POST" ->
  Part000.handler req u tr
  = let username := bodyField req "username" in
    if negb (truthy username) || negb (isString username)
       || negb (truthy (JStr (trim (ToString username))))
    then (inr (respond 400 (Some (errorBody "Username is required"))), tr)
    else
      let safeUsername := JStr (trim (ToString username)) in
      tryCatch
        (recentSolved <- Part000.fetchRecentSubmissions safeUsername ;;
         if negb (isExactly (bodyField req "responseFormat") "v2"
                  || match bodyField req "includeFullHistory" with
                     | JBool true => true
                     | _ => false
                     end)
         then ret (respond 200 (Some (JArr (map submissionToJs recentSolved))))
         else aggregate Part000.fetchAllAcceptedSlugsFromGraphQL
                "GraphQL full-history fetch failed:"
                "Public API full-history fetch failed:"
                safeUsername recentSolved)
        (fun err =>
           _ <- console_error [message err] ;;
           ret (respond 500 (Some (serverError err)))) u tr.
Proof.
  intros H. unfold Part000.handler. rewrite H. cbv zeta. fold (bodyField req "username").
  fold (bodyField req "responseFormat"). fold (bodyField req "includeFullHistory").
  change ("POST" =? "OPTIONS") with false. change ("POST" =? "POST") with true.
  cbv iota. simpl negb at 1. cbv iota.
  destruct (negb (truthy (bodyField req "username")) || _ || _); reflexivity.
Qed.

Lemma valid_username name :
  trim name <> "" ->
  negb (truthy (JStr name)) || negb (isString (JStr name))
  || negb (truthy (JStr (trim (ToString (JStr name))))) = false.
Proof.
  intros H. simpl. assert (Hn : name <> "") by (intros ->; apply H; reflexivity).
  rewrite (eqb_false _ _ Hn), (eqb_false _ _ H). reflexivity.
Qed.

(** fetchSolved.js on a [POST] with a body. *)
Lemma FetchSolved_handler_post req u tr :
  method req = "POST" -> body req <> JUndefined -> body req <> JNull ->
  FetchSolved.handler req u tr
  = let username := getProp (body req) "username" in
    if negb (truthy username)
    then (inr (respond 400 (Some (errorBody "Username is required"))), tr)
    else
      tryCatch
        (recentSolved <- FetchSolved.fetchRecentAcceptedSubmissions username ;;
         aggregate FetchSolved.fetchAllAcceptedSlugs
           "Full history fetch failed, falling back to recent list:"
           "Public submissions API full-history fetch failed:"
           username recentSolved)
        (fun err =>
           _ <- console_error [message err] ;;
           ret (respond 500 (Some (serverError err)))) u tr.
Proof.
  intros H Hu Hn. unfold FetchSolved.handler. rewrite H.
  change ("POST" =? "OPTIONS") with false. change ("POST" =? "POST") with true.
  cbv iota. simpl negb at 1. cbv iota zeta.
  destruct (body req); try contradiction;
    destruct (negb (truthy _)); reflexivity.
Qed.

Lemma PagedHistory_clean fetcher result username u tr out tr' :
  PagedHistory fetcher result ->
  fetcher username u tr = (inr out, tr') -> NoDup out /\ Forall clean out.
Proof.
  intros Hpaged Hrun. destruct (Hpaged username u tr) as (replies & _ & _ & _ & Hout).
  rewrite Hrun in Hout. destruct (Hout out eq_refl) as [Hnd Hin].
  split; [exact Hnd|]. apply Forall_forall. intros x Hx.
  apply Hin in Hx as [Hne (rp & data & sub & _ & _ & _ & Hs)].
  split; [exact Hne|]. apply (acceptedSlug_trimmed sub x Hs).
Qed.

Lemma publicApi_clean username u tr out tr' :
  fetchAllAcceptedSlugsFromPublicApi username u tr = (inr out, tr') ->
  NoDup out /\ Forall clean out.
Proof.
  intros Hrun. apply (publicPages_clean _ _ _ _ _ _ _ _ Hrun); constructor.
Qed.

Lemma dedupeSlugs_clean_output l : Forall clean (dedupeSlugs (JArr l)).
Proof.
  apply Forall_forall. intros x Hx.
  apply elem_of_dedupeSlugs in Hx as [Hne (v & _ & <-)].
  split; [exact Hne|]. apply trim_noOuterSpace.
Qed.

(** Whichever source fills it, the slug list of [aggregate] is clean. *)
Lemma aggregate_clean fetchFull result fullFailed publicFailed username recent u tr :
  PagedHistory fetchFull result ->
  exists source all tr',
    aggregate fetchFull fullFailed publicFailed username recent u tr
    = (inr (respond 200 (Some (aggregated source recent all))), tr')
    /\ (source = "full" \/ source = "recent")
    /\ NoDup all /\ Forall clean all.
Proof.
  intros Hpaged.
  destruct (aggregate_answers fetchFull fullFailed publicFailed username recent u tr)
    as (source & all & tr' & Hagg & Hsrc & Hfrom).
  exists source, all, tr'. split; [exact Hagg|]. split; [exact Hsrc|].
  destruct Hfrom as [[tr1 H]|[[trA H]| ->]].
  - apply (PagedHistory_clean _ _ _ _ _ _ _ Hpaged H).
  - apply (publicApi_clean _ _ _ _ _ H).
  - split; [apply NoDup_dedupeSlugs|apply dedupeSlugs_clean_output].
Qed.



(** A 200 of part_000 to a [POST] that opts into the richer format. *)
Lemma Part000_rich_response req u tr resp tr' :
  method req = "POST" -> wantsV2 req ->
  Part000.handler req u tr = (inr resp, tr') -> statusCode resp = 200%Z ->
  exists source recent all,
    sent resp = Some (aggregated source recent all)
    /\ (source = "full" \/ source = "recent")
    /\ NoDup all /\ Forall clean all.
Proof.
  intros Hm Hv2. rewrite (Part000_handler_post _ _ _ Hm). cbv zeta.
  destruct (negb (truthy (bodyField req "username")) || _ || _).
  { intros [= <- <-]. discriminate. }
  rewrite (wantsV2_true _ Hv2). simpl negb. unfold tryCatch, bind.
  destruct (Part000.fetchRecentSubmissions _ u tr) as [[e|recent] tr1].
  { unfold console_error, ret. intros [= <- <-]. discriminate. }
  destruct (aggregate_clean Part000.fetchAllAcceptedSlugsFromGraphQL Part000.graphqlResult
              "GraphQL full-history fetch failed:" "Public API full-history fetch failed:"
              (JStr (trim (ToString (bodyField req "username")))) recent u tr1)
    as (source & all & tr2 & Hagg & H);
      [apply fetchAllGraphQL_paged; auto using FetchSolved_PostsOnce, Part000_PostsOnce|].
  rewrite Hagg. intros [= <- <-] _. exists source, recent, all. auto.
Qed.

(** A 200 of fetchSolved.js to a [POST]. *)
Lemma FetchSolved_rich_response req u tr resp tr' :
  method req = "POST" ->
  FetchSolved.handler req u tr = (inr resp, tr') -> statusCode resp = 200%Z ->
  exists source recent all,
    sent resp = Some (aggregated source recent all)
    /\ (source = "full" \/ source = "recent")
    /\ NoDup all /\ Forall clean all.
Proof.
  intros Hm. unfold FetchSolved.handler. rewrite Hm.
  change ("POST" =? "OPTIONS") with false. change ("POST" =? "POST") with true.
  change (negb true) with false. cbv iota zeta.
  assert (Hmain : forall username,
    (if negb (truthy username)
     then ret (respond 400 (Some (errorBody "Username is required")))
     else tryCatch
            (recentSolved <- FetchSolved.fetchRecentAcceptedSubmissions username ;;
             aggregate FetchSolved.fetchAllAcceptedSlugs
               "Full history fetch failed, falling back to recent list:"
               "Public submissions API full-history fetch failed:"
               username recentSolved)
            (fun err =>
               _ <- console_error [message err] ;;
               ret (respond 500 (Some (serverError err))))) u tr = (inr resp, tr') ->
    statusCode resp = 200%Z ->
    exists source recent all,
      sent resp = Some (aggregated source recent all)
      /\ (source = "full" \/ source = "recent")
      /\ NoDup all /\ Forall clean all).
  { intros username. destruct (negb (truthy username)).
    { unfold ret. intros [= <- <-]. discriminate. }
    unfold tryCatch, bind.
    destruct (FetchSolved.fetchRecentAcceptedSubmissions username u tr)
      as [[e|recent] tr1].
    { unfold console_error, ret. intros [= <- <-]. discriminate. }
    destruct (aggregate_clean FetchSolved.fetchAllAcceptedSlugs FetchSolved.graphqlResult
                "Full history fetch failed, falling back to recent list:"
                "Public submissions API full-history fetch failed:"
                username recent u tr1)
      as (source & all & tr2 & Hagg & H);
      [apply fetchAllGraphQL_paged; auto using FetchSolved_PostsOnce, Part000_PostsOnce|].
    rewrite Hagg. intros [= <- <-] _. exists source, recent, all. auto. }
  destruct (body req); try (unfold throw; discriminate); apply Hmain.
Qed.

(** C7, as the code has it: the method is looked at before the username.
    [OPTIONS] is answered 200 with no body; a [POST] whose username is missing
    or empty is answered 400; any other method is answered 405, whatever the
    username.  (fetchSolved.js destructures [req.body], so its 400 needs a
    body.) *)
Theorem handler_status_by_method (req : HttpRequest) (u : upstream) (tr : list event) :
  (method req = "OPTIONS" ->
     Part000.handler req u tr = (inr (respond 200 None), tr)
     /\ FetchSolved.handler req u tr = (inr (respond 200 None), tr))
  /\ (method req = "POST" -> truthy (bodyField req "username") = false ->
        Part000.handler req u tr
        = (inr (respond 400 (Some (errorBody "Username is required"))), tr)
        /\ (body req <> JUndefined -> body req <> JNull ->
            FetchSolved.handler req u tr
            = (inr (respond 400 (Some (errorBody "Username is required"))), tr)))
  /\ (method req <> "OPTIONS" -> method req <> "POST" ->
        Part000.handler req u tr
        = (inr (respond 405 (Some (errorBody "Only POST allowed"))), tr)
        /\ FetchSolved.handler req u tr
           = (inr (respond 405 (Some (errorBody "Only POST allowed"))), tr)).
Proof.
  split; [|split].
  - intros H. split; [apply Part000_handler_options|apply FetchSolved_handler_options]; exact H.
  - intros Hm Hu. split.
    + rewrite (Part000_handler_post _ _ _ Hm). cbv zeta. rewrite Hu. reflexivity.
    + intros Hb1 Hb2. rewrite (FetchSolved_handler_post _ _ _ Hm Hb1 Hb2). cbv zeta.
      rewrite <- bodyField_getProp, Hu. reflexivity.
  - intros H1 H2. split; [apply Part000_handler_other|apply FetchSolved_handler_other];
      assumption.
Qed.

Lemma handler_status_by_method_witness :
  Part000.handler (post [("username", JStr "")]) (always (Rejected (Error "offline"))) []
  = (inr (respond 400 (Some (errorBody "Username is required"))), []).
Proof.
  destruct (handler_status_by_method (post [("username", JStr "")])
              (always (Rejected (Error "offline"))) []) as (_ & H & _).
  destruct (H eq_refl eq_refl) as [H400 _]. exact H400.
Defined.

(** C7 as the specification words it fails: a [GET] without a username is
    answered 405, not 400, by both files. *)
Lemma get_without_username_is_405 :
  let req := {| method := "GET"; body := JObj [] |} in
  let u := always (Rejected (Error "offline")) in
  truthy (bodyField req "username") = false
  /\ fst (Part000.handler req u [])
     = inr (respond 405 (Some (errorBody "Only POST allowed")))
  /\ fst (FetchSolved.handler req u [])
     = inr (respond 405 (Some (errorBody "Only POST allowed"))).
Proof. repeat split. Qed.

(** C2, as the code has it.  In part_000 a [POST] whose username is a string
    that is not blank, and that gives neither [responseFormat] nor
    [includeFullHistory], is answered 200 with the bare array of the recent
    fetch, once that fetch has returned.  fetchSolved.js has no such mode:
    each of its 200s to a [POST] carries the richer object. *)
Theorem legacy_mode_bare_array (req : HttpRequest) (name : string) (u : upstream)
    (tr tr1 : list event) (recent : list Submission) :
  method req = "POST" ->
  bodyField req "username" = JStr name -> trim name <> "" ->
  bodyField req "responseFormat" = JUndefined ->
  bodyField req "includeFullHistory" = JUndefined ->
  Part000.fetchRecentSubmissions (JStr (trim name)) u tr = (inr recent, tr1) ->
  Part000.handler req u tr
  = (inr (respond 200 (Some (JArr (map submissionToJs recent)))), tr1)
  /\ forall resp tr',
       FetchSolved.handler req u tr = (inr resp, tr') -> statusCode resp = 200%Z ->
       exists source recent' all, sent resp = Some (aggregated source recent' all).
Proof.
  intros Hm Hu Hname Hrf Hfull Hrecent. split.
  - rewrite (Part000_handler_post _ _ _ Hm), Hu, Hrf, Hfull. cbv zeta.
    rewrite (valid_username _ Hname). simpl.
    apply tryCatch_returns. unfold bind. rewrite Hrecent. reflexivity.
  - intros resp tr' Hrun Hst.
    destruct (FetchSolved_rich_response req u tr resp tr' Hm Hrun Hst)
      as (source & recent' & all & H & _).
    eauto.
Qed.

Lemma legacy_mode_bare_array_witness :
  Part000.handler (post [("username", JStr " alice ")]) (recentOnly [solved "two-sum" 7]) []
  = (inr (respond 200
            (Some (JArr [submissionToJs
                           {| title := JStr "two-sum"; titleSlug := "two-sum";
                              timestamp := Fin 7 |}]))),
     [Fetch (PostGraphQL (recentSolved (JStr "alice")))
        (recentOnly [solved "two-sum" 7] [] (PostGraphQL (recentSolved (JStr "alice"))))]).
Proof.
  assert (Hname : trim " alice " <> "") by (vm_compute; discriminate).
  exact (proj1 (legacy_mode_bare_array (post [("username", JStr " alice ")]) " alice "
                  (recentOnly [solved "two-sum" 7]) [] _ _
                  eq_refl eq_refl Hname eq_refl eq_refl eq_refl)).
Defined.

(** C2 as the specification words it fails twice: part_000 answers 400 to a
    username of blanks, which is not empty; and fetchSolved.js, which reads
    neither flag, answers with the object that has a [source] key. *)
Lemma legacy_mode_needs_more :
  fst (Part000.handler (post [("username", JStr "  ")]) (recentOnly [solved "two-sum" 7]) [])
  = inr (respond 400 (Some (errorBody "Username is required")))
  /\ fst (FetchSolved.handler (post [("username", JStr "alice")])
            (recentOnly [solved "two-sum" 7]) [])
     = inr (respond 200
              (Some (aggregated "recent"
                       [{| title := JStr "two-sum"; titleSlug := "two-sum";
                           timestamp := Fin 7 |}]
                       ["two-sum"]))).
Proof. split; vm_compute; reflexivity. Qed.



Lemma isRich source recent all :
  richBody source (map submissionToJs recent) (map JStr all) = aggregated source recent all.
Proof. unfold richBody, aggregated. rewrite !length_map. reflexivity. Qed.

(** C6: a 200 to a [POST] with [responseFormat: "v2"] (in fetchSolved.js, to
    any [POST]) carries an object with exactly the keys [source],
    [recentSolved], [allSolvedSlugs] and [counts], whose two counts are the
    lengths of the two arrays. *)
Theorem v2_response_shape (req : HttpRequest) (u : upstream) (tr tr' : list event)
    (resp : HttpResponse) :
  method req = "POST" -> statusCode resp = 200%Z ->
  (bodyField req "responseFormat" = JStr "v2" ->
   Part000.handler req u tr = (inr resp, tr') -> RichResponse resp)
  /\ (FetchSolved.handler req u tr = (inr resp, tr') -> RichResponse resp).
Proof.
  intros Hm Hst. split.
  - intros Hv2 Hrun.
    destruct (Part000_rich_response req u tr resp tr' Hm (or_introl Hv2) Hrun Hst)
      as (source & recent & all & Hsent & _).
    exists source, (map submissionToJs recent), (map JStr all).
    rewrite isRich. exact Hsent.
  - intros Hrun.
    destruct (FetchSolved_rich_response req u tr resp tr' Hm Hrun Hst)
      as (source & recent & all & Hsent & _).
    exists source, (map submissionToJs recent), (map JStr all).
    rewrite isRich. exact Hsent.
Qed.

Lemma v2_response_shape_witness :
  RichResponse (respond 200 (Some (aggregated "recent" [twoSum] ["two-sum"]))).
Proof.
  apply (proj1 (v2_response_shape aliceV2 (recentOnly [solved "two-sum" 7]) []
                  (snd (Part000.handler aliceV2 (recentOnly [solved "two-sum" 7]) []))
                  (respond 200 (Some (aggregated "recent" [twoSum] ["two-sum"])))
                  eq_refl eq_refl)); vm_compute; reflexivity.
Defined.

(** C10: in a 200 that carries the richer object, whichever source filled
    [allSolvedSlugs], its elements are non-empty strings with no white space
    at either end, and no two of them are equal. *)
Theorem v2_slugs_clean_distinct (req : HttpRequest) (u : upstream) (tr tr' : list event)
    (resp : HttpResponse) :
  method req = "POST" -> statusCode resp = 200%Z ->
  (wantsV2 req -> Part000.handler req u tr = (inr resp, tr') -> CleanSlugs resp)
  /\ (FetchSolved.handler req u tr = (inr resp, tr') -> CleanSlugs resp).
Proof.
  intros Hm Hst. split.
  - intros Hv2 Hrun.
    destruct (Part000_rich_response req u tr resp tr' Hm Hv2 Hrun Hst)
      as (source & recent & all & Hsent & _ & Hnd & Hclean).
    exists (aggregated source recent all), all. auto.
  - intros Hrun.
    destruct (FetchSolved_rich_response req u tr resp tr' Hm Hrun Hst)
      as (source & recent & all & Hsent & _ & Hnd & Hclean).
    exists (aggregated source recent all), all. auto.
Qed.

Lemma v2_slugs_clean_distinct_witness :
  CleanSlugs (respond 200 (Some (aggregated "recent" [twoSum] ["two-sum"]))).
Proof.
  apply (proj1 (v2_slugs_clean_distinct aliceV2 (recentOnly [solved "two-sum" 7]) []
                  (snd (Part000.handler aliceV2 (recentOnly [solved "two-sum" 7]) []))
                  (respond 200 (Some (aggregated "recent" [twoSum] ["two-sum"])))
                  eq_refl eq_refl)); [left|]; vm_compute; reflexivity.
Defined.

(** * Further properties *)

(** ** Pagination, all or nothing *)

Lemma fetchAllGraphQL_all_or_nothing graphqlRequest result :
  PostsOnce graphqlRequest result ->
  AllOrNothing (fetchAllGraphQL graphqlRequest) historyRequest (fun _ => true)
    (pageRead result) lastPage.
Proof.
  intros posts username u tr.
  destruct (graphqlPages_paged graphqlRequest result posts username maxPages [] u tr)
    as (replies & Htr & _ & _ & Hnone & Hmore & Hthrow & Hret).
  exists replies. rewrite fetchAllGraphQL_unfold.
  destruct (graphqlPages graphqlRequest maxPages username 0 [] u tr) as [[e|acc] tr'];
    simpl in *.
  - split; [exact Htr|]. split.
    { rewrite Hnone. split; [intros [H|H]; discriminate|discriminate]. }
    split; [exact Hmore|]. split.
    + intros e'. rewrite Hthrow. split.
      * intros [(H & _)|H]; [discriminate|auto].
      * intros [(H & _)|H]; [discriminate|auto].
    + intros out H. discriminate.
  - split; [exact Htr|]. split.
    { rewrite Hnone. split; [intros [H|H]; discriminate|discriminate]. }
    split; [exact Hmore|]. split.
    + intros e. split; [discriminate|]. intros H.
      assert (He : @inr exn (list string) acc = inl e); [|discriminate].
      apply Hthrow. destruct H as [(H & _)|H]; [discriminate|auto].
    + intros out _. destruct (Hret acc eq_refl) as [H _]. exact H.
Qed.

(** X10.  Each full-history fetcher is all or nothing.  A GraphQL fetcher
    throws exactly when the last page it asked for could not be read: the
    request failed, or a slug on the page could not be converted to a
    string.  The public API fetcher throws before it asks for anything
    exactly when it cannot put the username in the address, and otherwise
    exactly when the last page it asked for could not be read.  So a failure
    on a later page loses the slugs of the pages read before it; every page
    before the last was read and announced more; and a fetcher returns only
    after 500 pages or a page that ends the loop. *)
Theorem full_history_all_or_nothing :
  AllOrNothing FetchSolved.fetchAllAcceptedSlugs historyRequest (fun _ => true)
    (pageRead FetchSolved.graphqlResult) lastPage
  /\ AllOrNothing Part000.fetchAllAcceptedSlugsFromGraphQL historyRequest (fun _ => true)
       (pageRead Part000.graphqlResult) lastPage
  /\ AllOrNothing fetchAllAcceptedSlugsFromPublicApi publicRequest convertible
       publicResult lastPublic.
Proof.
  split; [apply fetchAllGraphQL_all_or_nothing, FetchSolved_PostsOnce|].
  split; [apply fetchAllGraphQL_all_or_nothing, Part000_PostsOnce|].
  intros username u tr.
  destruct (publicPages_paged username maxPages [] u tr)
    as (replies & Htr & _ & _ & Hnone & Hmore & Hthrow & Hret).
  exists replies. split; [exact Htr|]. split.
  { rewrite Hnone. split; [intros [H|H]; [discriminate|exact H]|auto]. }
  split; [exact Hmore|]. split.
  - intros e. unfold fetchAllAcceptedSlugsFromPublicApi. rewrite Hthrow. split.
    + intros [(H & _ & He)|H]; auto.
    + intros [(H & He)|H]; [left|auto]. split; [exact H|]. split; [|exact He].
      unfold maxPages. lia.
  - intros out Hout. destruct (Hret out Hout) as [H _]. exact H.
Qed.

(** A first page with an accepted slug, then a failure: the fetcher throws
    and the slug is gone; the handler falls back to the recent list. *)
Example second_page_failure_loses_first :
  let u := scripted [solved "lru-cache" 3] (secondPageFails "two-sum") refused in
  fst (Part000.fetchAllAcceptedSlugsFromGraphQL (JStr "alice") u [])
  = inl (Error "LeetCode GraphQL request failed (502)")
  /\ fst (Part000.handler aliceV2 u [])
     = inr (respond 200
              (Some (aggregated "recent"
                       [{| title := JStr "lru-cache"; titleSlug := "lru-cache";
                           timestamp := Fin 3 |}]
                       ["lru-cache"]))).
Proof. vm_compute. split; reflexivity. Qed.

(** X9.  The public API fetcher asks for pages of 20 at offsets 0, 20, ...,
    at most 500 of them, and for none after a page without [has_next] or
    without submissions; when it returns, its list has no duplicates and
    holds exactly the slugs of the pages it read that [acceptedSlugPublic]
    picks: a non-empty trimmed string [title_slug] whose [status_display]
    (or, when that is falsy, [statusDisplay]) is the string [Accepted]. *)
Theorem public_history_pages_accepted :
  (forall username u tr, exists replies,
     snd (fetchAllAcceptedSlugsFromPublicApi username u tr)
     = tr ++ exchanges (publicRequest username) replies
     /\ length replies <= maxPages
     /\ (forall k rp data,
           replies !! k = Some rp -> publicResult rp = inr data ->
           lastPublic data = true -> length replies = S k)
     /\ (forall out,
           fst (fetchAllAcceptedSlugsFromPublicApi username u tr) = inr out ->
           NoDup out /\ forall x, x ∈ out <-> acceptedOnPublic replies x))
  /\ (forall submission x,
        acceptedSlugPublic submission = Some x
        <-> truthy submission = true
            /\ x <> ""
            /\ (exists s, getProp submission "title_slug" = JStr s /\ trim s = x)
            /\ orElse (getProp submission "status_display")
                      (getProp submission "statusDisplay") = JStr "Accepted").
Proof.
  split.
  - intros username u tr.
    destruct (publicPages_paged username maxPages [] u tr)
      as (replies & Htr & Hlen & _ & _ & Hmore & _ & Hret).
    exists replies. split; [exact Htr|]. split; [exact Hlen|]. split.
    + intros k rp data Hk Hres Hlast.
      assert (Hlt : k < length replies) by (apply lookup_lt_Some in Hk; exact Hk).
      destruct (decide (S k < length replies)) as [Hs|Hs]; [|lia].
      destruct (Hmore k rp Hk Hs) as (d & Hd & Hl). congruence.
    + intros out Hout. destruct (Hret out Hout) as (_ & Hnd & Hin).
      split; [apply Hnd; constructor|].
      intros x. rewrite Hin. unfold acceptedOnPublic. split.
      * intros [H|H]; [inversion H|exact H].
      * intros H. right. exact H.
  - intros submission x. unfold acceptedSlugPublic.
    destruct (getProp submission "title_slug") as [| | | |s| |] eqn:Hslug;
      try (split; [discriminate|intros (_ & _ & (s' & H & _) & _); discriminate]).
    destruct (truthy submission); simpl.
    2:{ split; [discriminate|intros (H & _); discriminate]. }
    destruct (nonEmpty (trim s)) eqn:Hne; simpl.
    2:{ split; [discriminate|]. intros (_ & Hx & (s' & [= <-] & Ht) & _).
        subst x. apply nonEmpty_true in Hx. congruence. }
    destruct (isExactly _ "Accepted") eqn:Hst.
    + apply isExactly_true in Hst. split.
      * intros [= <-]. split; [reflexivity|]. split; [apply nonEmpty_true, Hne|].
        split; [exists s; auto|exact Hst].
      * intros (_ & _ & (s' & [= <-] & Ht) & _). congruence.
    + split; [discriminate|]. intros (_ & _ & _ & H).
      apply isExactly_true in H. congruence.
Qed.

(** ** The records of the recent fetcher *)

Lemma length_Map_set m k v : length (Map_set m k v) <= S (length m).
Proof.
  induction m as [|[a b] m IH]; simpl; [lia|].
  destruct (k =? a); simpl; lia.
Qed.

Lemma length_keepLatest entries m :
  length (fold_left keepLatest entries m) <= length m + length entries.
Proof.
  revert m. induction entries as [|item entries IH]; intros m; simpl; [lia|].
  specialize (IH (keepLatest m item)).
  assert (length (keepLatest m item) <= S (length m)); [|lia].
  rewrite keepLatest_eq. destruct (slugOf item); [|lia].
  destruct (match Map_get m s with Some e => _ | None => true end); [|lia].
  apply length_Map_set.
Qed.

(** X12.  The recent fetcher never returns more records than it was given
    entries; each record has a non-empty slug without white space around it
    and a truthy title (the upstream title, or the slug when that is
    missing); and a list without a usable slug gives no record. *)
Theorem recent_records_well_formed (entries : list jsval) :
  length (recentOf entries) <= length entries
  /\ (forall r, r ∈ recentOf entries ->
        clean (titleSlug r) /\ truthy (title r) = true
        /\ exists item,
             item ∈ entries
             /\ title r = orElse (getProp item "title") (JStr (titleSlug r)))
  /\ ((forall item, item ∈ entries -> slugOf item = None) -> recentOf entries = []).
Proof.
  split; [|split].
  - unfold recentOf. rewrite Array_sort_perm. unfold Map_values. rewrite length_map.
    pose proof (length_keepLatest entries []) as H. simpl in H. exact H.
  - intros r Hr. destruct (recentOf_records entries r Hr) as (Hclean & Htitle & _).
    split; [exact Hclean|]. split; [exact Htitle|].
    destruct (recentOf_LatestPerSlug entries) as (_ & Hfrom & _).
    destruct (Hfrom r Hr) as (item & Hitem & _ & Hrec).
    exists item. split; [exact Hitem|]. rewrite Hrec at 1. reflexivity.
  - intros Hnone. destruct (recentOf entries) as [|r out] eqn:E; [reflexivity|].
    destruct (recentOf_LatestPerSlug entries) as (_ & Hfrom & _).
    rewrite E in Hfrom. destruct (Hfrom r) as (item & Hitem & Hslug & _); [left|].
    rewrite (Hnone item Hitem) in Hslug. discriminate.
Qed.

Lemma recent_records_well_formed_witness :
  recentOf [JNull; JObj [("titleSlug", JStr "   ")]; JObj [("title", JStr "x")]] = [].
Proof.
  apply (proj2 (proj2 (recent_records_well_formed
                         [JNull; JObj [("titleSlug", JStr "   ")];
                          JObj [("title", JStr "x")]]))).
  intros item Hitem.
  repeat (apply elem_of_cons in Hitem as [->|Hitem]; [reflexivity|]).
  inversion Hitem.
Defined.

(** X13.  The recent list needs no deduplication: [dedupeSlugs] of its slugs
    is the list of its slugs, in the same order, so in the fallback the two
    counts of the response agree. *)
Theorem dedupe_of_recent_is_identity (entries : list jsval) :
  dedupeSlugs (slugsOf (recentOf entries)) = map titleSlug (recentOf entries)
  /\ length (dedupeSlugs (slugsOf (recentOf entries))) = length (recentOf entries).
Proof.
  rewrite dedupe_of_recent. split; [reflexivity|apply length_map].
Qed.

(** *** Reading the output again *)

Lemma Map_get_absent m k : k ∉ map fst m -> Map_get m k = None.
Proof.
  induction m as [|[a b] m IH]; simpl; [reflexivity|]. intros H.
  apply not_elem_of_cons in H as [Hne H]. rewrite (eqb_false _ _ Hne). apply IH, H.
Qed.

Lemma Map_set_absent m k v : k ∉ map fst m -> Map_set m k v = m ++ [(k, v)].
Proof.
  induction m as [|[a b] m IH]; simpl; [reflexivity|]. intros H.
  apply not_elem_of_cons in H as [Hne H]. rewrite (eqb_false _ _ Hne), (IH H). reflexivity.
Qed.

(** A record with a clean slug, a truthy title and a numeric timestamp is
    read back from its JSON form as itself. *)
Lemma submissionToJs_read r z :
  clean (titleSlug r) -> truthy (title r) = true -> timestamp r = Fin z ->
  slugOf (submissionToJs r) = Some (titleSlug r)
  /\ recordOf (submissionToJs r) (titleSlug r) = r.
Proof.
  intros [Hne Htrim] Htitle Hts. destruct r as [t s ts]. simpl in *. subst ts.
  split.
  - unfold slugOf. simpl. rewrite (eqb_false _ _ Hne), (trim_fixed _ Htrim). simpl.
    unfold nonEmpty. rewrite (eqb_false _ _ Hne). reflexivity.
  - unfold recordOf, stampOf, orElse. simpl. rewrite Htitle. f_equal.
    destruct (z =? 0)%Z eqn:E; simpl; [|reflexivity].
    apply Z.eqb_eq in E. congruence.
Qed.

Lemma keepLatest_fresh l :
  forall m,
    NoDup (map fst m ++ map titleSlug l) ->
    (forall r, r ∈ l ->
       clean (titleSlug r) /\ truthy (title r) = true /\ exists z, timestamp r = Fin z) ->
    fold_left keepLatest (map submissionToJs l) m
    = m ++ map (fun r => (titleSlug r, r)) l.
Proof.
  induction l as [|r l IH]; intros m Hnd Hgood; simpl.
  - rewrite app_nil_r. reflexivity.
  - destruct (Hgood r) as (Hclean & Htitle & z & Hts); [left|].
    destruct (submissionToJs_read r z Hclean Htitle Hts) as [Hslug Hrec].
    assert (Hfresh : titleSlug r ∉ map fst m).
    { apply NoDup_app in Hnd as (_ & H & _). intros Hin. apply (H _ Hin). left. }
    rewrite keepLatest_eq, Hslug, (Map_get_absent _ _ Hfresh), Hrec,
      (Map_set_absent _ _ _ Hfresh).
    rewrite IH.
    + rewrite <- app_assoc. reflexivity.
    + rewrite map_app. simpl. rewrite <- app_assoc. exact Hnd.
    + intros r' Hr'. apply Hgood. right. exact Hr'.
Qed.

Lemma Array_sort_sorted_id l : StronglySorted newerFirst l -> Array_sort l = l.
Proof.
  induction 1 as [|a l Hl IH Ha]; simpl; [reflexivity|].
  rewrite IH. destruct l as [|b l]; [reflexivity|]. simpl.
  rewrite staysBefore_spec. apply Forall_cons in Ha as [Hab _].
  unfold newerFirst in Hab. apply Z.leb_le in Hab. rewrite Hab. reflexivity.
Qed.

(** X15.  The output of the recent fetcher is a fixed point: when the
    timestamps of the entries are numbers, sending the returned records
    through the fetcher's normalisation again returns them unchanged. *)
Theorem recent_output_is_stable (entries : list jsval) :
  (forall item, item ∈ entries -> stampOf item <> NaN) ->
  recentOf (map submissionToJs (recentOf entries)) = recentOf entries.
Proof.
  intros Hnum.
  destruct (recentOf_LatestPerSlug entries) as (Hnd & Hfrom & _ & Hsorted).
  unfold recentOf at 1. rewrite keepLatest_fresh.
  - simpl. unfold Map_values. rewrite map_map. simpl. rewrite map_id.
    apply Array_sort_sorted_id, Hsorted.
  - simpl. exact Hnd.
  - intros r Hr. destruct (recentOf_records entries r Hr) as (Hclean & Htitle & item & Hitem & Hts).
    split; [exact Hclean|]. split; [exact Htitle|].
    specialize (Hnum item Hitem). rewrite Hts.
    destruct (stampOf item) as [|z]; [contradiction|]. exists z. reflexivity.
Qed.

Lemma recent_output_is_stable_witness :
  recentOf (map submissionToJs (recentOf [solved " a" 1; solved "a" 5; solved "b" 2]))
  = recentOf [solved " a" 1; solved "a" 5; solved "b" 2].
Proof.
  apply (recent_output_is_stable [solved " a" 1; solved "a" 5; solved "b" 2]).
  intros item Hitem.
  repeat (apply elem_of_cons in Hitem as [->|Hitem]; [discriminate|]).
  inversion Hitem.
Defined.

(** A timestamp that is not a number is stored as [NaN] and read back as 0. *)
Example recent_output_with_NaN :
  let entries := [JObj [("titleSlug", JStr "a"); ("timestamp", JStr "soon")]] in
  map timestamp (recentOf entries) = [NaN]
  /\ map timestamp (recentOf (map submissionToJs (recentOf entries))) = [Fin 0].
Proof. split; reflexivity. Qed.

(** ** The order of [dedupeSlugs] *)







(** Later duplicates and blanks drop out; the first of each stays in place. *)
Example dedupeSlugs_keeps_order :
  dedupeSlugs (JArr [JStr "b "; JNull; JStr "a"; JStr " b"; JNum (Fin 7); JStr "a"])
  = ["b"; "a"; "7"].
Proof. reflexivity. Qed.

(** ** The handlers, path by path *)

Lemma requests_app tr1 tr2 : requests (tr1 ++ tr2) = requests tr1 ++ requests tr2.
Proof. apply omap_app. Qed.

Lemma requests_exchanges request_at replies :
  requests (exchanges request_at replies) = map request_at (seq 0 (length replies)).
Proof.
  revert request_at. induction replies as [|rp replies IH]; intros request_at;
    [reflexivity|].
  rewrite exchanges_cons. simpl. f_equal.
  change (omap _ (exchanges ?f replies)) with (requests (exchanges f replies)).
  rewrite IH, <- seq_shift, map_map. reflexivity.
Qed.

(** part_000 on a [POST] with a valid username [name]. *)
Lemma Part000_handler_valid req name u tr :
  method req = "POST" -> bodyField req "username" = JStr name -> trim name <> "" ->
  Part000.handler req u tr
  = match Part000.fetchRecentSubmissions (JStr (trim name)) u tr with
    | (inl e, tr1) =>
        (inr (respond 500 (Some (serverError e))), tr1 ++ [ConsoleError [message e]])
    | (inr recent, tr1) =>
        if isExactly (bodyField req "responseFormat") "v2"
           || match bodyField req "includeFullHistory" with
              | JBool true => true
              | _ => false
              end
        then aggregate Part000.fetchAllAcceptedSlugsFromGraphQL
               "GraphQL full-history fetch failed:" "Public API full-history fetch failed:"
               (JStr (trim name)) recent u tr1
        else (inr (respond 200 (Some (JArr (map submissionToJs recent)))), tr1)
    end.
Proof.
  intros Hm Hu Hname. rewrite (Part000_handler_post _ _ _ Hm), Hu. cbv zeta.
  rewrite (valid_username _ Hname). simpl ToString. unfold tryCatch, bind.
  destruct (Part000.fetchRecentSubmissions (JStr (trim name)) u tr) as [[e|recent] tr1];
    [reflexivity|].
  destruct (isExactly (bodyField req "responseFormat") "v2" || _); cbn [negb];
    [|reflexivity].
  destruct (aggregate_answers Part000.fetchAllAcceptedSlugsFromGraphQL
              "GraphQL full-history fetch failed:" "Public API full-history fetch failed:"
              (JStr (trim name)) recent u tr1) as (source & all & tr' & Hagg & _).
  rewrite Hagg. reflexivity.
Qed.

(** fetchSolved.js on a [POST] with a body and a truthy username. *)
Lemma FetchSolved_handler_valid req u tr :
  method req = "POST" -> body req <> JUndefined -> body req <> JNull ->
  truthy (getProp (body req) "username") = true ->
  FetchSolved.handler req u tr
  = match FetchSolved.fetchRecentAcceptedSubmissions (getProp (body req) "username") u tr with
    | (inl e, tr1) =>
        (inr (respond 500 (Some (serverError e))), tr1 ++ [ConsoleError [message e]])
    | (inr recent, tr1) =>
        aggregate FetchSolved.fetchAllAcceptedSlugs
          "Full history fetch failed, falling back to recent list:"
          "Public submissions API full-history fetch failed:"
          (getProp (body req) "username") recent u tr1
    end.
Proof.
  intros Hm Hb1 Hb2 Hu. rewrite (FetchSolved_handler_post _ _ _ Hm Hb1 Hb2). cbv zeta.
  rewrite Hu. simpl negb. unfold tryCatch, bind.
  destruct (FetchSolved.fetchRecentAcceptedSubmissions _ u tr) as [[e|recent] tr1];
    [reflexivity|].
  destruct (aggregate_answers FetchSolved.fetchAllAcceptedSlugs
              "Full history fetch failed, falling back to recent list:"
              "Public submissions API full-history fetch failed:"
              (getProp (body req) "username") recent u tr1)
    as (source & all & tr' & Hagg & _).
  rewrite Hagg. reflexivity.
Qed.

Lemma fetchRecent_trace graphqlRequest result payload field u tr out tr1 :
  PostsOnce graphqlRequest result ->
  fetchRecent graphqlRequest payload field u tr = (out, tr1) ->
  requests tr1 = requests tr ++ [PostGraphQL payload].
Proof.
  intros posts. rewrite (fetchRecent_result _ _ _ _ _ _ posts). intros [= _ <-].
  rewrite requests_app. reflexivity.
Qed.

(** X1.  When the recent fetch throws, the handler answers 500 with the
    message of the error as [details], logs the error, and has made no other
    request than the recent query: no full-history source is tried. *)
Theorem recent_failure_is_500 :
  (forall req name u tr e tr1,
     method req = "POST" -> bodyField req "username" = JStr name -> trim name <> "" ->
     Part000.fetchRecentSubmissions (JStr (trim name)) u tr = (inl e, tr1) ->
     Part000.handler req u tr
     = (inr (respond 500 (Some (serverError e))), tr1 ++ [ConsoleError [message e]])
     /\ requests (tr1 ++ [ConsoleError [message e]])
        = requests tr ++ [PostGraphQL (recentSolved (JStr (trim name)))])
  /\ (forall req u tr e tr1,
        method req = "POST" -> body req <> JUndefined -> body req <> JNull ->
        truthy (getProp (body req) "username") = true ->
        FetchSolved.fetchRecentAcceptedSubmissions (getProp (body req) "username") u tr
        = (inl e, tr1) ->
        FetchSolved.handler req u tr
        = (inr (respond 500 (Some (serverError e))), tr1 ++ [ConsoleError [message e]])
        /\ requests (tr1 ++ [ConsoleError [message e]])
           = requests tr ++ [PostGraphQL (recentAccepted (getProp (body req) "username"))]).
Proof.
  split.
  - intros req name u tr e tr1 Hm Hu Hname Hrecent.
    rewrite (Part000_handler_valid _ _ _ _ Hm Hu Hname), Hrecent. split; [reflexivity|].
    rewrite requests_app. simpl. rewrite app_nil_r.
    apply (fetchRecent_trace _ _ _ _ _ _ _ _ Part000_PostsOnce Hrecent).
  - intros req u tr e tr1 Hm Hb1 Hb2 Hu Hrecent.
    rewrite (FetchSolved_handler_valid _ _ _ Hm Hb1 Hb2 Hu), Hrecent. split; [reflexivity|].
    rewrite requests_app. simpl. rewrite app_nil_r.
    apply (fetchRecent_trace _ _ _ _ _ _ _ _ FetchSolved_PostsOnce Hrecent).
Qed.

Lemma recent_failure_is_500_witness :
  fst (Part000.handler aliceV2 (always (Response 503 Blank)) [])
  = inr (respond 500
           (Some (JObj [("error", JStr "Server error");
                        ("details", JStr "LeetCode GraphQL request failed (503)")]))).
Proof.
  assert (Hname : trim "alice" <> "") by (vm_compute; discriminate).
  destruct (proj1 recent_failure_is_500 aliceV2 "alice" (always (Response 503 Blank)) []
              (Error "LeetCode GraphQL request failed (503)")
              [Fetch (PostGraphQL (recentSolved (JStr "alice"))) (Response 503 Blank)]
              eq_refl eq_refl Hname eq_refl) as [Hrun _].
  rewrite Hrun. reflexivity.
Defined.

(** A recent entry whose slug cannot be converted ends the recent fetch with
    a [TypeError], and the request with a 500. *)
Example unconvertible_recent_slug_is_500 :
  let u := recentOnly [solved "two-sum" 7; JObj [("titleSlug", unconvertible)]] in
  fst (Part000.fetchRecentSubmissions (JStr "alice") u []) = inl conversionError
  /\ fst (Part000.handler aliceV2 u [])
     = inr (respond 500 (Some (serverError conversionError)))
  /\ fst (FetchSolved.handler aliceV2 u [])
     = inr (respond 500 (Some (serverError conversionError))).
Proof. vm_compute. repeat split. Qed.

Lemma Part000_username_ok v :
  negb (truthy v) || negb (isString v) || negb (truthy (JStr (trim (ToString v)))) = false
  <-> exists name, v = JStr name /\ trim name <> "".
Proof.
  split.
  - intros H. apply orb_false_iff in H as [H Hblank]. apply orb_false_iff in H as [_ Hstr].
    destruct v; try discriminate. exists s. split; [reflexivity|].
    simpl in Hblank. apply negb_false_iff, negb_true_iff in Hblank.
    apply String.eqb_neq, Hblank.
  - intros (name & -> & Hname). apply valid_username, Hname.
Qed.

(** Every way part_000 can answer. *)
Lemma Part000_handler_cases req u tr :
  exists resp tr',
    Part000.handler req u tr = (inr resp, tr')
    /\ ((method req = "OPTIONS" /\ statusCode resp = 200%Z)
        \/ (method req <> "OPTIONS" /\ method req <> "POST" /\ statusCode resp = 405%Z)
        \/ (method req = "POST"
            /\ (forall name, bodyField req "username" = JStr name -> trim name = "")
            /\ statusCode resp = 400%Z)
        \/ (method req = "POST"
            /\ (exists name, bodyField req "username" = JStr name /\ trim name <> "")
            /\ (statusCode resp = 500%Z \/ statusCode resp = 200%Z))).
Proof.
  destruct (decide (method req = "OPTIONS")) as [Ho|Ho].
  { rewrite (Part000_handler_options _ _ _ Ho). eexists _, _. split; [reflexivity|]. auto. }
  destruct (decide (method req = "POST")) as [Hm|Hm].
  2:{ rewrite (Part000_handler_other _ _ _ Ho Hm). eexists _, _. split; [reflexivity|].
      right. left. auto. }
  destruct (negb (truthy (bodyField req "username"))
            || negb (isString (bodyField req "username"))
            || negb (truthy (JStr (trim (ToString (bodyField req "username"))))))
    eqn:Hvalid.
  - rewrite (Part000_handler_post _ _ _ Hm). cbv zeta. rewrite Hvalid.
    eexists _, _. split; [reflexivity|]. right. right. left.
    split; [exact Hm|]. split; [|reflexivity].
    intros name Hname. destruct (decide (trim name = "")) as [H|H]; [exact H|].
    assert (Hok : exists n, bodyField req "username" = JStr n /\ trim n <> "") by eauto.
    apply Part000_username_ok in Hok. congruence.
  - apply Part000_username_ok in Hvalid as (name & Hu & Hname).
    rewrite (Part000_handler_valid _ _ _ _ Hm Hu Hname).
    destruct (Part000.fetchRecentSubmissions (JStr (trim name)) u tr) as [[e|recent] tr1].
    { eexists _, _. split; [reflexivity|]. right. right. right. eauto 6. }
    destruct (isExactly (bodyField req "responseFormat") "v2" || _).
    + destruct (aggregate_answers Part000.fetchAllAcceptedSlugsFromGraphQL
                  "GraphQL full-history fetch failed:"
                  "Public API full-history fetch failed:"
                  (JStr (trim name)) recent u tr1) as (source & all & tr' & Hagg & _).
      rewrite Hagg. eexists _, _. split; [reflexivity|]. right. right. right. eauto 6.
    + eexists _, _. split; [reflexivity|]. right. right. right. eauto 6.
Qed.

(** Every way fetchSolved.js can answer, or fail to. *)
Lemma FetchSolved_handler_cases req u tr :
  (method req = "POST" /\ (body req = JUndefined \/ body req = JNull)
   /\ FetchSolved.handler req u tr
      = (inl (FetchSolved.cannotDestructure
                match body req with JNull => "null" | _ => "undefined" end), tr))
  \/ exists resp tr',
       FetchSolved.handler req u tr = (inr resp, tr')
       /\ ((method req = "OPTIONS" /\ statusCode resp = 200%Z)
           \/ (method req <> "OPTIONS" /\ method req <> "POST" /\ statusCode resp = 405%Z)
           \/ (method req = "POST"
               /\ truthy (getProp (body req) "username") = false
               /\ statusCode resp = 400%Z)
           \/ (method req = "POST"
               /\ truthy (getProp (body req) "username") = true
               /\ (statusCode resp = 500%Z \/ statusCode resp = 200%Z))).
Proof.
  destruct (decide (method req = "OPTIONS")) as [Ho|Ho].
  { right. rewrite (FetchSolved_handler_options _ _ _ Ho).
    eexists _, _. split; [reflexivity|]. auto. }
  destruct (decide (method req = "POST")) as [Hm|Hm].
  2:{ right. rewrite (FetchSolved_handler_other _ _ _ Ho Hm).
      eexists _, _. split; [reflexivity|]. right. left. auto. }
  assert (Hbody : (body req = JUndefined \/ body req = JNull)
                  \/ (body req <> JUndefined /\ body req <> JNull)).
  { destruct (body req); auto; right; split; discriminate. }
  destruct Hbody as [Hbody|[Hb1 Hb2]].
  - left. split; [exact Hm|]. split; [exact Hbody|].
    unfold FetchSolved.handler. rewrite Hm.
    change ("POST" =? "OPTIONS") with false. change ("POST" =? "POST") with true.
    change (negb true) with false. cbv iota.
    destruct Hbody as [-> | ->]; reflexivity.
  - right. destruct (truthy (getProp (body req) "username")) eqn:Hu.
    + rewrite (FetchSolved_handler_valid _ _ _ Hm Hb1 Hb2 Hu).
      destruct (FetchSolved.fetchRecentAcceptedSubmissions _ u tr) as [[e|recent] tr1].
      { eexists _, _. split; [reflexivity|]. right. right. right. auto. }
      destruct (aggregate_answers FetchSolved.fetchAllAcceptedSlugs
                  "Full history fetch failed, falling back to recent list:"
                  "Public submissions API full-history fetch failed:"
                  (getProp (body req) "username") recent u tr1)
        as (source & all & tr' & Hagg & _).
      rewrite Hagg. eexists _, _. split; [reflexivity|]. right. right. right. auto.
    + rewrite (FetchSolved_handler_post _ _ _ Hm Hb1 Hb2). cbv zeta. rewrite Hu.
      eexists _, _. split; [reflexivity|]. right. right. left. auto.
Qed.

(** X2.  No exception escapes the handler of part_000: whatever the
    request, and however the upstream calls settle, it answers with status
    200, 400, 405 or 500.  The handler of fetchSolved.js does the same except
    on a [POST] whose body is [undefined] or [null], where destructuring the
    body throws a [TypeError] that names which of the two it is, before any
    request is made. *)
Theorem handler_always_answers (req : HttpRequest) (u : upstream) (tr : list event) :
  (exists resp tr',
     Part000.handler req u tr = (inr resp, tr') /\ knownStatus (statusCode resp))
  /\ ((method req = "POST" /\ body req = JUndefined
       /\ FetchSolved.handler req u tr
          = (inl (Error "Cannot destructure property 'username' of 'req.body' as it is undefined."),
             tr))
      \/ (method req = "POST" /\ body req = JNull
          /\ FetchSolved.handler req u tr
             = (inl (Error "Cannot destructure property 'username' of 'req.body' as it is null."),
                tr))
      \/ exists resp tr',
           FetchSolved.handler req u tr = (inr resp, tr') /\ knownStatus (statusCode resp)).
Proof.
  split.
  - destruct (Part000_handler_cases req u tr) as (resp & tr' & Hrun & Hcases).
    exists resp, tr'. split; [exact Hrun|]. unfold knownStatus.
    destruct Hcases as [[_ H]|[(_ & _ & H)|[(_ & _ & H)|(_ & _ & [H|H])]]]; auto.
  - destruct (FetchSolved_handler_cases req u tr)
      as [(Hm & [Hb|Hb] & H)|(resp & tr' & Hrun & Hcases)].
    + left. rewrite Hb in H. auto.
    + right. left. rewrite Hb in H. auto.
    + right. right. exists resp, tr'. split; [exact Hrun|]. unfold knownStatus.
      destruct Hcases as [[_ H]|[(_ & _ & H)|[(_ & _ & H)|(_ & _ & [H|H])]]]; auto.
Qed.

(** A [POST] without a body: part_000 answers 400, fetchSolved.js throws. *)
Example post_without_body :
  let u := always (Rejected (Error "offline")) in
  Part000.handler {| method := "POST"; body := JUndefined |} u []
  = (inr (respond 400 (Some (errorBody "Username is required"))), [])
  /\ Part000.handler {| method := "POST"; body := JNull |} u []
     = (inr (respond 400 (Some (errorBody "Username is required"))), [])
  /\ FetchSolved.handler {| method := "POST"; body := JUndefined |} u []
     = (inl (FetchSolved.cannotDestructure "undefined"), [])
  /\ FetchSolved.handler {| method := "POST"; body := JNull |} u []
     = (inl (FetchSolved.cannotDestructure "null"), []).
Proof. repeat split. Qed.

(** X3.  On a [POST], part_000 answers 400 exactly when the username is not
    a string with something other than white space in it; fetchSolved.js,
    given a body, answers 400 exactly when the username is falsy, and so
    lets any truthy value through. *)
Theorem username_required_exactly (req : HttpRequest) (u : upstream) (tr : list event) :
  method req = "POST" ->
  ((exists resp tr',
      Part000.handler req u tr = (inr resp, tr') /\ statusCode resp = 400%Z)
   <-> forall name, bodyField req "username" = JStr name -> trim name = "")
  /\ (body req <> JUndefined -> body req <> JNull ->
      (exists resp tr',
         FetchSolved.handler req u tr = (inr resp, tr') /\ statusCode resp = 400%Z)
      <-> truthy (getProp (body req) "username") = false).
Proof.
  intros Hm. split.
  - destruct (Part000_handler_cases req u tr) as (resp & tr' & Hrun & Hcases). split.
    + intros (resp' & tr'' & Hrun' & Hst). rewrite Hrun in Hrun'.
      injection Hrun' as <- <-.
      destruct Hcases as [[H _]|[(_ & H & _)|[(_ & H & _)|(_ & _ & [H|H])]]];
        first [exact H|congruence|rewrite Hm in H; discriminate].
    + intros Hblank. exists resp, tr'. split; [exact Hrun|].
      destruct Hcases as [[H _]|[(_ & H & _)|[(_ & _ & H)|(_ & (name & Hu & Hn) & _)]]].
      * rewrite Hm in H. discriminate.
      * congruence.
      * exact H.
      * contradiction Hn. apply Hblank, Hu.
  - intros Hb1 Hb2.
    destruct (FetchSolved_handler_cases req u tr)
      as [(_ & [H|H] & _)|(resp & tr' & Hrun & Hcases)]; try contradiction.
    split.
    + intros (resp' & tr'' & Hrun' & Hst). rewrite Hrun in Hrun'.
      injection Hrun' as <- <-.
      destruct Hcases as [[H _]|[(_ & H & _)|[(_ & H & _)|(_ & _ & [H|H])]]];
        first [exact H|congruence|rewrite Hm in H; discriminate].
    + intros Hfalsy. exists resp, tr'. split; [exact Hrun|].
      destruct Hcases as [[H _]|[(_ & H & _)|[(_ & _ & H)|(_ & Hu & _)]]].
      * rewrite Hm in H. discriminate.
      * congruence.
      * exact H.
      * congruence.
Qed.

Lemma username_required_exactly_witness :
  exists resp tr',
    Part000.handler (post [("username", JNum (Fin 42))]) (recentOnly []) []
    = (inr resp, tr') /\ statusCode resp = 400%Z.
Proof.
  apply (proj1 (username_required_exactly (post [("username", JNum (Fin 42))])
                  (recentOnly []) [] eq_refl)).
  intros name H. discriminate.
Defined.

(** A number as username: 400 from part_000; fetchSolved.js asks the
    platform about it. *)
Example numeric_username :
  let req := post [("username", JNum (Fin 42))] in
  fst (Part000.handler req (recentOnly []) [])
  = inr (respond 400 (Some (errorBody "Username is required")))
  /\ requests (snd (FetchSolved.handler req (scripted [] (onePage "two-sum") refused) []))
     = [PostGraphQL (recentAccepted (JNum (Fin 42)));
        PostGraphQL (submissionList 0 20 (JNum (Fin 42)))].
Proof. split; vm_compute; reflexivity. Qed.

Lemma wantsV2_false req :
  bodyField req "responseFormat" <> JStr "v2" ->
  bodyField req "includeFullHistory" <> JBool true ->
  isExactly (bodyField req "responseFormat") "v2"
  || match bodyField req "includeFullHistory" with JBool true => true | _ => false end
  = false.
Proof.
  intros Hrf Hfull. apply orb_false_iff. split.
  - destruct (isExactly (bodyField req "responseFormat") "v2") eqn:E; [|reflexivity].
    apply isExactly_true in E. contradiction.
  - destruct (bodyField req "includeFullHistory") as [| |[|]| | | |]; try reflexivity.
    contradiction.
Qed.

(** X5.  A request in the old format costs one request to the platform, the
    recent query for the trimmed username, whatever the platform answers:
    no full-history source is ever asked. *)
Theorem legacy_asks_once (req : HttpRequest) (name : string) (u : upstream)
    (tr : list event) :
  method req = "POST" -> bodyField req "username" = JStr name -> trim name <> "" ->
  bodyField req "responseFormat" <> JStr "v2" ->
  bodyField req "includeFullHistory" <> JBool true ->
  requests (snd (Part000.handler req u tr))
  = requests tr ++ [PostGraphQL (recentSolved (JStr (trim name)))].
Proof.
  intros Hm Hu Hname Hrf Hfull.
  rewrite (Part000_handler_valid _ _ _ _ Hm Hu Hname), (wantsV2_false _ Hrf Hfull).
  destruct (Part000.fetchRecentSubmissions (JStr (trim name)) u tr) as [[e|recent] tr1] eqn:E;
    simpl; pose proof (fetchRecent_trace _ _ _ _ _ _ _ _ Part000_PostsOnce E) as Htrace.
  - rewrite requests_app, Htrace. simpl. apply app_nil_r.
  - exact Htrace.
Qed.

Lemma legacy_asks_once_witness :
  requests (snd (Part000.handler aliceLegacy (endless (acceptedItem "two-sum")) []))
  = requests [] ++ [PostGraphQL (recentSolved (JStr (trim "alice")))].
Proof.
  apply (legacy_asks_once aliceLegacy "alice"); try reflexivity; discriminate.
Defined.






(** The public API is the second choice, and the recent list the last. *)
Example second_source_is_used :
  fst (Part000.handler aliceV2
         (scripted [solved "a" 1]
            (fun _ => Response 200 (Json (graphqlPage (JBool false) [])))
            (onePublicPage "lru-cache")) [])
  = inr (respond 200
           (Some (aggregated "full"
                    [{| title := JStr "a"; titleSlug := "a"; timestamp := Fin 1 |}]
                    ["lru-cache"]))).
Proof. vm_compute. reflexivity. Qed.





(** ** The requests of one call *)

Lemma public_requests username u tr :
  exists p,
    p <= maxPages
    /\ requests (snd (fetchAllAcceptedSlugsFromPublicApi username u tr))
       = requests tr ++ map (publicRequest username) (seq 0 p).
Proof.
  destruct (publicPages_paged username maxPages [] u tr) as (replies & Htr & Hlen & _).
  exists (length replies). split; [exact Hlen|].
  unfold fetchAllAcceptedSlugsFromPublicApi. rewrite Htr, requests_app, requests_exchanges.
  reflexivity.
Qed.

Lemma aggregate_requests fetchFull result fullFailed publicFailed username recent u tr :
  PagedHistory fetchFull result ->
  exists g p,
    g <= maxPages /\ p <= maxPages
    /\ requests (snd (aggregate fetchFull fullFailed publicFailed username recent u tr))
       = requests tr ++ map (historyRequest username) (seq 0 g)
         ++ map (publicRequest username) (seq 0 p).
Proof.
  intros Hpaged. destruct (Hpaged username u tr) as (replies & Htr & Hlen & _).
  assert (Hfull : requests (snd (fetchFull username u tr))
                  = requests tr ++ map (historyRequest username) (seq 0 (length replies))).
  { rewrite Htr, requests_app, requests_exchanges. reflexivity. }
  clear Htr. rewrite aggregate_unfold.
  destruct (fetchFull username u tr) as [[e|[|x all]] tr1]; simpl in Hfull.
  - destruct (public_requests username u (tr1 ++ [ConsoleError [fullFailed; message e]]))
      as (p & Hp & Hreq).
    exists (length replies), p. split; [exact Hlen|]. split; [exact Hp|].
    rewrite requests_app, Hfull in Hreq. simpl in Hreq.
    rewrite app_nil_r, <- app_assoc in Hreq.
    destruct (fetchAllAcceptedSlugsFromPublicApi username u _) as [[e'|[|y all']] tr2];
      simpl in *; [|exact Hreq|exact Hreq].
    rewrite requests_app, Hreq. simpl. apply app_nil_r.
  - destruct (public_requests username u tr1) as (p & Hp & Hreq).
    exists (length replies), p. split; [exact Hlen|]. split; [exact Hp|].
    rewrite Hfull, <- app_assoc in Hreq.
    destruct (fetchAllAcceptedSlugsFromPublicApi username u _) as [[e'|[|y all']] tr2];
      simpl in *; [|exact Hreq|exact Hreq].
    rewrite requests_app, Hreq. simpl. apply app_nil_r.
  - exists (length replies), 0. split; [exact Hlen|]. split; [lia|].
    simpl. rewrite app_nil_r. exact Hfull.
Qed.

Lemma Traffic_length username recentQuery news :
  Traffic username recentQuery news -> length news <= 1001.
Proof.
  intros [->|(g & p & Hg & Hp & ->)]; [simpl; lia|].
  simpl. rewrite length_app, !length_map, !length_seq. unfold maxPages in *. lia.
Qed.

Lemma Traffic_recent_only username recentQuery :
  Traffic username recentQuery [PostGraphQL recentQuery].
Proof. right. exists 0, 0. repeat split; unfold maxPages; lia. Qed.

(** X4.  The requests of one call, whatever the platform does: none, or the
    recent query followed by at most 500 GraphQL pages at offsets 0, 20, ...
    and then at most 500 pages of the public API, so at most 1001 in all.
    part_000 sends every one of them for the trimmed username,
    fetchSolved.js for the username as it came. *)
Theorem handler_traffic (req : HttpRequest) (u : upstream) (tr : list event) :
  (exists news,
     requests (snd (Part000.handler req u tr)) = requests tr ++ news
     /\ Traffic (JStr (trim (ToString (bodyField req "username"))))
          (recentSolved (JStr (trim (ToString (bodyField req "username"))))) news
     /\ length news <= 1001)
  /\ (exists news,
        requests (snd (FetchSolved.handler req u tr)) = requests tr ++ news
        /\ Traffic (getProp (body req) "username")
             (recentAccepted (getProp (body req) "username")) news
        /\ length news <= 1001).
Proof.
  assert (Hnone : forall (A : Type) (run : (exn + A) * list event) username query,
            snd run = tr ->
            exists news,
              requests (snd run) = requests tr ++ news
              /\ Traffic username query news /\ length news <= 1001).
  { intros A run username query ->. exists []. rewrite app_nil_r.
    split; [reflexivity|]. split; [left; reflexivity|simpl; lia]. }
  split.
  - destruct (decide (method req = "OPTIONS")) as [Ho|Ho].
    { apply Hnone. rewrite (Part000_handler_options _ _ _ Ho). reflexivity. }
    destruct (decide (method req = "POST")) as [Hm|Hm].
    2:{ apply Hnone. rewrite (Part000_handler_other _ _ _ Ho Hm). reflexivity. }
    destruct (negb (truthy (bodyField req "username"))
              || negb (isString (bodyField req "username"))
              || negb (truthy (JStr (trim (ToString (bodyField req "username"))))))
      eqn:Hvalid.
    { apply Hnone. rewrite (Part000_handler_post _ _ _ Hm). cbv zeta. rewrite Hvalid.
      reflexivity. }
    apply Part000_username_ok in Hvalid as (name & Hu & Hname).
    rewrite (Part000_handler_valid _ _ _ _ Hm Hu Hname), Hu. simpl ToString.
    destruct (Part000.fetchRecentSubmissions (JStr (trim name)) u tr)
      as [[e|recent] tr1] eqn:Hrecent;
      pose proof (fetchRecent_trace _ _ _ _ _ _ _ _ Part000_PostsOnce Hrecent) as Htrace.
    { eexists. simpl. rewrite requests_app, Htrace. simpl. rewrite app_nil_r.
      split; [reflexivity|]. split; [apply Traffic_recent_only|simpl; lia]. }
    destruct (isExactly (bodyField req "responseFormat") "v2" || _).
    2:{ eexists. simpl. rewrite Htrace.
        split; [reflexivity|]. split; [apply Traffic_recent_only|simpl; lia]. }
    destruct (aggregate_requests Part000.fetchAllAcceptedSlugsFromGraphQL
                Part000.graphqlResult "GraphQL full-history fetch failed:"
                "Public API full-history fetch failed:" (JStr (trim name)) recent u tr1)
      as (g & p & Hg & Hp & Hreq);
      [apply fetchAllGraphQL_paged, Part000_PostsOnce|].
    rewrite Hreq, Htrace, <- app_assoc. eexists. split; [reflexivity|].
    assert (HT : Traffic (JStr (trim name)) (recentSolved (JStr (trim name)))
                   ([PostGraphQL (recentSolved (JStr (trim name)))]
                    ++ map (historyRequest (JStr (trim name))) (seq 0 g)
                    ++ map (publicRequest (JStr (trim name))) (seq 0 p))).
    { right. exists g, p. auto. }
    split; [exact HT|apply (Traffic_length _ _ _ HT)].
  - destruct (decide (method req = "OPTIONS")) as [Ho|Ho].
    { apply Hnone. rewrite (FetchSolved_handler_options _ _ _ Ho). reflexivity. }
    destruct (decide (method req = "POST")) as [Hm|Hm].
    2:{ apply Hnone. rewrite (FetchSolved_handler_other _ _ _ Ho Hm). reflexivity. }
    destruct (FetchSolved_handler_cases req u tr)
      as [(_ & _ & H)|(resp0 & tr0 & Hrun0 & Hcases)].
    { apply Hnone. rewrite H. reflexivity. }
    assert (Hb : body req <> JUndefined /\ body req <> JNull).
    { split; intros Hb; unfold FetchSolved.handler in Hrun0; rewrite Hm, Hb in Hrun0;
        discriminate. }
    destruct Hb as [Hb1 Hb2]. clear Hrun0 Hcases.
    destruct (truthy (getProp (body req) "username")) eqn:Hu.
    2:{ apply Hnone. rewrite (FetchSolved_handler_post _ _ _ Hm Hb1 Hb2). cbv zeta.
        rewrite Hu. reflexivity. }
    rewrite (FetchSolved_handler_valid _ _ _ Hm Hb1 Hb2 Hu).
    destruct (FetchSolved.fetchRecentAcceptedSubmissions _ u tr)
      as [[e|recent] tr1] eqn:Hrecent;
      pose proof (fetchRecent_trace _ _ _ _ _ _ _ _ FetchSolved_PostsOnce Hrecent) as Htrace.
    { eexists. simpl. rewrite requests_app, Htrace. simpl. rewrite app_nil_r.
      split; [reflexivity|]. split; [apply Traffic_recent_only|simpl; lia]. }
    destruct (aggregate_requests FetchSolved.fetchAllAcceptedSlugs
                FetchSolved.graphqlResult
                "Full history fetch failed, falling back to recent list:"
                "Public submissions API full-history fetch failed:"
                (getProp (body req) "username") recent u tr1)
      as (g & p & Hg & Hp & Hreq);
      [apply fetchAllGraphQL_paged, FetchSolved_PostsOnce|].
    rewrite Hreq, Htrace, <- app_assoc. eexists. split; [reflexivity|].
    assert (HT : Traffic (getProp (body req) "username")
                   (recentAccepted (getProp (body req) "username"))
                   ([PostGraphQL (recentAccepted (getProp (body req) "username"))]
                    ++ map (historyRequest (getProp (body req) "username")) (seq 0 g)
                    ++ map (publicRequest (getProp (body req) "username")) (seq 0 p))).
    { right. exists g, p. auto. }
    split; [exact HT|apply (Traffic_length _ _ _ HT)].
Qed.

(** A platform that never runs out of pages costs 1001 requests, all of them
    for the trimmed username. *)
Example endless_platform_costs_1001 :
  let req := post [("username", JStr " alice "); ("includeFullHistory", JBool true)] in
  let sent_ := requests (snd (Part000.handler req (endless JNull) [])) in
  length sent_ = 1001
  /\ hd_error sent_ = Some (PostGraphQL (recentSolved (JStr "alice")))
  /\ last sent_ = Some (GetSubmissions (JStr "alice") 9980 20).
Proof. vm_compute. repeat split. Qed.

(** ** What the caller is told about a failure *)

Lemma first_error_message json first rest m :
  getProp json "errors" = JArr (first :: rest) ->
  optProp first "message" = JStr m -> m <> "" ->
  optProp json "errors" = JArr (first :: rest)
  /\ newError (orElse (optProp (getFirst (getProp json "errors")) "message")
                      (JStr "LeetCode GraphQL returned errors")) = Error m.
Proof.
  intros Herr Hmsg Hm. split.
  - destruct json; simpl in *; congruence.
  - rewrite Herr. simpl. rewrite Hmsg. unfold orElse. simpl.
    rewrite (eqb_false _ _ Hm). reflexivity.
Qed.

Lemma Part000_result_of_error st json first rest m :
  getProp json "errors" = JArr (first :: rest) ->
  optProp first "message" = JStr m -> m <> "" ->
  Part000.graphqlResult (Response st (Json json))
  = inl (if negb ((200 <=? st) && (st <=? 299))%Z
         then failedWith "LeetCode GraphQL request failed" st
         else Error m).
Proof.
  intros Herr Hmsg Hm. destruct (first_error_message _ _ _ _ Herr Hmsg Hm) as [Hopt Htext].
  unfold Part000.graphqlResult. simpl.
  destruct (negb ((200 <=? st)%Z && (st <=? 299)%Z)); [reflexivity|].
  rewrite Hopt, Htext. rewrite Herr. reflexivity.
Qed.

Lemma FetchSolved_result_of_error st json first rest m :
  getProp json "errors" = JArr (first :: rest) ->
  optProp first "message" = JStr m -> m <> "" ->
  FetchSolved.graphqlResult (Response st (Json json))
  = inl (if negb ((200 <=? st) && (st <=? 299))%Z
         then failedWith "LeetCode GraphQL request failed" st
         else Error m).
Proof.
  intros Herr Hmsg Hm. destruct (first_error_message _ _ _ _ Herr Hmsg Hm) as [Hopt Htext].
  unfold FetchSolved.graphqlResult.
  destruct (negb ((200 <=? st)%Z && (st <=? 299)%Z)); [reflexivity|].
  rewrite Hopt, Htext. reflexivity.
Qed.

(** X11.  What the platform says reaches the caller: when the reply to the
    recent query carries a non-empty [errors] array whose first element has
    a non-empty string [message], the handler answers 500 with that message
    as [details]; unless the status is outside 2xx, which is reported
    instead, with the status in the text. *)
Theorem upstream_error_reaches_details :
  (forall req name u tr st json first rest m,
     method req = "POST" -> bodyField req "username" = JStr name -> trim name <> "" ->
     u tr (PostGraphQL (recentSolved (JStr (trim name)))) = Response st (Json json) ->
     getProp json "errors" = JArr (first :: rest) ->
     optProp first "message" = JStr m -> m <> "" ->
     fst (Part000.handler req u tr)
     = inr (respond 500
              (Some (serverError
                       (if negb ((200 <=? st) && (st <=? 299))%Z
                        then failedWith "LeetCode GraphQL request failed" st
                        else Error m)))))
  /\ (forall req u tr st json first rest m,
        method req = "POST" -> body req <> JUndefined -> body req <> JNull ->
        truthy (getProp (body req) "username") = true ->
        u tr (PostGraphQL (recentAccepted (getProp (body req) "username")))
        = Response st (Json json) ->
        getProp json "errors" = JArr (first :: rest) ->
        optProp first "message" = JStr m -> m <> "" ->
        fst (FetchSolved.handler req u tr)
        = inr (respond 500
                 (Some (serverError
                          (if negb ((200 <=? st) && (st <=? 299))%Z
                           then failedWith "LeetCode GraphQL request failed" st
                           else Error m))))).
Proof.
  split.
  - intros req name u tr st json first rest m Hm Hu Hname Hrp Herr Hmsg Hne.
    rewrite (Part000_handler_valid _ _ _ _ Hm Hu Hname).
    unfold Part000.fetchRecentSubmissions.
    rewrite (fetchRecent_result _ _ _ _ _ _ Part000_PostsOnce), Hrp.
    unfold recentResult. rewrite (Part000_result_of_error _ _ _ _ _ Herr Hmsg Hne).
    reflexivity.
  - intros req u tr st json first rest m Hm Hb1 Hb2 Hu Hrp Herr Hmsg Hne.
    rewrite (FetchSolved_handler_valid _ _ _ Hm Hb1 Hb2 Hu).
    unfold FetchSolved.fetchRecentAcceptedSubmissions.
    rewrite (fetchRecent_result _ _ _ _ _ _ FetchSolved_PostsOnce), Hrp.
    unfold recentResult. rewrite (FetchSolved_result_of_error _ _ _ _ _ Herr Hmsg Hne).
    reflexivity.
Qed.

Lemma upstream_error_reaches_details_witness :
  fst (Part000.handler aliceV2
         (always (Response 200
                    (Json (JObj [("errors",
                                  JArr [JObj [("message", JStr "That user does not exist.")]])]))))
         [])
  = inr (respond 500
           (Some (JObj [("error", JStr "Server error");
                        ("details", JStr "That user does not exist.")]))).
Proof.
  assert (Hname : trim "alice" <> "") by (vm_compute; discriminate).
  assert (Hm : "That user does not exist." <> "") by discriminate.
  exact (proj1 upstream_error_reaches_details aliceV2 "alice"
           (always (Response 200
                      (Json (JObj [("errors",
                                    JArr [JObj [("message",
                                                 JStr "That user does not exist.")]])]))))
           [] 200%Z
           (JObj [("errors", JArr [JObj [("message", JStr "That user does not exist.")]])])
           (JObj [("message", JStr "That user does not exist.")]) []
           "That user does not exist."
           eq_refl eq_refl Hname eq_refl eq_refl eq_refl Hm).
Defined.

Lemma orElse_object_truthy v : truthy (orElse v emptyObject) = true.
Proof. unfold orElse. destruct (truthy v) eqn:E; [exact E|reflexivity]. Qed.

(** X16.  The contract of the GraphQL helper towards its callers, in both
    files: one call is one request, logged with its reply; a rejected
    [fetch] is thrown on unchanged; and what the helper returns is never
    falsy, so the callers may read properties off it. *)
Theorem graphqlRequest_contract (payload : query) (u : upstream) (tr : list event) :
  (snd (Part000.graphqlRequest payload u tr)
   = tr ++ [Fetch (PostGraphQL payload) (u tr (PostGraphQL payload))]
   /\ snd (FetchSolved.graphqlRequest payload u tr)
      = tr ++ [Fetch (PostGraphQL payload) (u tr (PostGraphQL payload))])
  /\ (forall e,
        u tr (PostGraphQL payload) = Rejected e ->
        fst (Part000.graphqlRequest payload u tr) = inl e
        /\ fst (FetchSolved.graphqlRequest payload u tr) = inl e)
  /\ (forall data,
        fst (Part000.graphqlRequest payload u tr) = inr data
        \/ fst (FetchSolved.graphqlRequest payload u tr) = inr data ->
        truthy data = true).
Proof.
  split; [rewrite Part000_PostsOnce, FetchSolved_PostsOnce; split; reflexivity|]. split.
  - intros e He. rewrite Part000_PostsOnce, FetchSolved_PostsOnce, He. split; reflexivity.
  - rewrite Part000_PostsOnce, FetchSolved_PostsOnce. cbn [fst]. intros data [H|H].
    + apply Part000_result_data in H as (_ & _ & json & _ & _ & _ & ->).
      apply orElse_object_truthy.
    + apply FetchSolved_result_data in H as (_ & json & _ & _ & ->).
      apply orElse_object_truthy.
Qed.

Lemma graphqlRequest_contract_witness :
  fst (Part000.graphqlRequest (recentSolved (JStr "alice"))
         (always (Rejected (Error "fetch failed"))) [])
  = inl (Error "fetch failed").
Proof.
  apply (proj1 (proj2 (graphqlRequest_contract (recentSolved (JStr "alice"))
                         (always (Rejected (Error "fetch failed"))) []))
           (Error "fetch failed") eq_refl).
Defined.
